(** * adbb: the anime / episode / file cache objects of [adbb/animeobjs.py]

    A shallow embedding of the entity layer of adbb: the shared refresh
    protocol of [AniDBObj], the merge callbacks of [Anime], [Episode] and
    [File], the file status decoding and the mylist workflows.

    Python objects that are mutated through several references (the relation
    rows of an anime) live in an explicit heap; Python dictionaries are
    [gmap string _]; exceptions are the left summand of the result of a
    computation in the state-and-exception monad [M]. *)

From Stdlib Require Import ZArith String Ascii List Lia DecimalString Bool.
From Stdlib Require DecimalPos DecimalZ.
From stdpp Require Import gmap strings list.

Open Scope string_scope.
Open Scope list_scope.
Open Scope Z_scope.

(** ** Python values, exceptions and the monad of stateful code *)

Module Py.

(** The exception classes that the embedded code can raise. *)
Inductive exn : Type :=
| TypeError | ValueError | KeyError | IndexError | AttributeError | NameError
| DBAPIError | AniDBError | AniDBFileError
| Blocked.  (* no exception: the calling thread waits and never returns *)

(** The values that flow through the field dictionaries: raw strings from
    the wire and what the converter tables make of them. *)
Inductive pyval : Type :=
| PNone
| PBool (b : bool)
| PInt (n : Z)
| PStr (s : string)
| PTime (t : Z).

#[global] Instance exn_eq_dec : EqDecision exn.
Proof. solve_decision. Defined.

#[global] Instance pyval_eq_dec : EqDecision pyval.
Proof. solve_decision. Defined.

(** Python truthiness ([if x:], [x and y], [not x]). *)
Definition truthy (v : pyval) : bool :=
  match v with
  | PNone => false
  | PBool b => b
  | PInt n => negb (n =? 0)
  | PStr s => negb (String.eqb s "")
  | PTime _ => true
  end.

(** State and exceptions: a raise keeps the mutations made before it. *)
Definition M (St A : Type) : Type := St -> (exn + A) * St.

Definition ret {St A} (a : A) : M St A := fun s => (inr a, s).
Definition raise {St A} (e : exn) : M St A := fun s => (inl e, s).
Definition bind {St A B} (c : M St A) (k : A -> M St B) : M St B :=
  fun s => match c s with
           | (inr a, s') => k a s'
           | (inl e, s') => (inl e, s')
           end.
Definition get {St} : M St St := fun s => (inr s, s).
Definition gets {St A} (f : St -> A) : M St A := fun s => (inr (f s), s).
Definition modify {St} (f : St -> St) : M St unit := fun s => (inr tt, f s).
Definition lift {St A} (r : exn + A) : M St A := fun s => (r, s).

(** [try: c except e: h] for one exception class. *)
Definition try_except {St A} (c : M St A) (e : exn) (h : M St A) : M St A :=
  fun s => match c s with
           | (inl e', s') => if decide (e' = e) then h s' else (inl e', s')
           | r => r
           end.

(** [for x in l: body x]. *)
Fixpoint for_each {St A} (l : list A) (body : A -> M St unit) : M St unit :=
  match l with
  | [] => ret tt
  | x :: l' => bind (body x) (fun _ => for_each l' body)
  end.

(** *** [int(s)] and [str(n)] *)

(** The characters [int()] skips around a literal, within ASCII: tab to
    carriage return, the four separators 0x1c-0x1f and the space. *)
Definition is_space (c : ascii) : bool :=
  let n := nat_of_ascii c in
  ((9 <=? n)%nat && (n <=? 13)%nat) || ((28 <=? n)%nat && (n <=? 32)%nat).

Fixpoint lstrip (s : string) : string :=
  match s with
  | String c s' => if is_space c then lstrip s' else s
  | EmptyString => EmptyString
  end.

Fixpoint rev_string (acc s : string) : string :=
  match s with
  | String c s' => rev_string (String c acc) s'
  | EmptyString => acc
  end.

Definition strip (s : string) : string :=
  rev_string "" (lstrip (rev_string "" (lstrip s))).

Definition digit_val (c : ascii) : option Z :=
  let n := nat_of_ascii c in
  if ((48 <=? n)%nat && (n <=? 57)%nat) then Some (Z.of_nat (n - 48)) else None.

(** Decimal digits, where a single underscore may separate two digits. *)
Fixpoint parse_digits (acc : Z) (after_digit : bool) (s : string) : option Z :=
  match s with
  | EmptyString => if after_digit then Some acc else None
  | String c s' =>
      if Ascii.eqb c "_"%char
      then (if after_digit then parse_digits acc false s' else None)
      else match digit_val c with
           | Some d => parse_digits (10 * acc + d) true s'
           | None => None
           end
  end.

(** [int(s)] for a [str]: [None] stands for [ValueError].  Digits outside
    ASCII, which Python also accepts, are outside this model. *)
Definition int_of_str (s : string) : option Z :=
  match strip s with
  | String "+" r => parse_digits 0 false r
  | String "-" r => Z.opp <$> parse_digits 0 false r
  | t => parse_digits 0 false t
  end.

(** [int(v)] for any value of the model. *)
Definition int (v : pyval) : exn + Z :=
  match v with
  | PInt n => inr n
  | PBool b => inr (if b then 1 else 0)
  | PStr s => match int_of_str s with Some n => inr n | None => inl ValueError end
  | PNone | PTime _ => inl TypeError
  end.

(** [str(n)] for an [int]. *)
Definition str (n : Z) : string := NilZero.string_of_int (Z.to_int n).

(** [s.split(sep)] for a separator of one character. *)
Fixpoint split_aux (sep : ascii) (cur : string) (s : string) : list string :=
  match s with
  | EmptyString => [rev_string "" cur]
  | String c s' =>
      if Ascii.eqb c sep then rev_string "" cur :: split_aux sep "" s'
      else split_aux sep (String c cur) s'
  end.

Definition split (sep : ascii) (s : string) : list string := split_aux sep "" s.

(** [zip(a, b)]: stops with the shorter list. *)
Fixpoint zip {A B} (a : list A) (b : list B) : list (A * B) :=
  match a, b with
  | x :: a', y :: b' => (x, y) :: zip a' b'
  | _, _ => []
  end.

End Py.

Import Py.

Notation "'let!' x ':=' c 'in' k" := (bind c (fun x => k))
  (at level 10, x name, c at level 100, k at level 200, only parsing).


(** ** The cache store: one transactional session

    [adbb._sql_db] is a session of the storage engine.  The model keeps the
    changes of the open transaction, the changes that past commits made
    durable, and the answers the storage engine will give to the coming
    commits (the engine is an external collaborator). *)

Module Db.

Inductive op (T : Type) : Type :=
| Add (x : T)
| Delete (x : T).

Arguments Add {T} x.
Arguments Delete {T} x.

Inductive outcome : Type :=
| CommitOk
| CommitRaises (e : exn).

Inductive log_entry : Type :=
| Debug (msg : string)
| Info (msg : string)
| Warning (msg : string).

Record session (T : Type) : Type := mkSession {
  pending : list (op T);
  durable : list (op T);
  storage : list outcome;
  log : list log_entry
}.

Arguments mkSession {T}.
Arguments pending {T}.
Arguments durable {T}.
Arguments storage {T}.
Arguments log {T}.

(** [session.add(x)] and [session.delete(x)]. *)
Definition add {T} (x : T) (d : session T) : session T :=
  mkSession (pending d ++ [Add x]) (durable d) (storage d) (log d).

Definition delete {T} (x : T) (d : session T) : session T :=
  mkSession (pending d ++ [Delete x]) (durable d) (storage d) (log d).

(** [session.commit()]: the engine accepts the transaction or raises. *)
Definition commit {T} (d : session T) : (exn + unit) * session T :=
  match storage d with
  | CommitRaises e :: rest => (inl e, mkSession (pending d) (durable d) rest (log d))
  | CommitOk :: rest => (inr tt, mkSession [] (durable d ++ pending d) rest (log d))
  | [] => (inr tt, mkSession [] (durable d ++ pending d) [] (log d))
  end.

(** [session.rollback()]: the open transaction is dropped. *)
Definition rollback {T} (d : session T) : session T :=
  mkSession [] (durable d) (storage d) (log d).

Definition warn {T} (msg : string) (d : session T) : session T :=
  mkSession (pending d) (durable d) (storage d) (log d ++ [Warning msg]).

Definition info {T} (msg : string) (d : session T) : session T :=
  mkSession (pending d) (durable d) (storage d) (log d ++ [Info msg]).

(** Modelled from the spec: the method [update] of the table classes of
    [adbb.db], called with a record as keywords, which updates the row's
    scalar fields in place: the keywords overwrite the row's fields of the
    same name and leave the others. *)
Definition row_update (keywords fields : gmap string pyval) : gmap string pyval :=
  keywords ∪ fields.

End Db.

(** ** [class AniDBObj]: what the three entities share *)

(** The interface of an entity to the shared code of [AniDBObj]: its cached
    row, the wall clock, the session, and the refresh protocol [update] as the
    calling thread sees it.  The threads and the lock behind [update] are the
    subject of [Module Refresh] below. *)
Class AniDBObj (St T : Type) : Type := {
  (** [None] when [self.db_data] is [None], else [self.db_data.updated]. *)
  db_stamp : St -> option Z;
  (** [datetime.datetime.now()], in microseconds. *)
  now : St -> Z;
  _db : St -> Db.session T;
  set_db : Db.session T -> St -> St;
  update : bool -> M St unit
}.

(** [AniDBObj.update_if_old], lines 60-66. *)
Definition update_if_old {St T} `{AniDBObj St T} (age : Z) (block : bool) : M St unit :=
  fun s =>
    match db_stamp s with
    | None => update true s
    | Some stamp =>
        let old := now s - age in
        if stamp <=? old then update block s else ret tt s
    end.

(** The default of the [age] parameter: [datetime.timedelta(days=7)]. *)
Definition seven_days : Z := 7 * 24 * 3600 * 1000000.

(** [AniDBObj._db_commit], lines 72-81. *)
Definition _db_commit {St T} `{AniDBObj St T} : M St unit :=
  try_except
    (fun s => let '(r, d) := Db.commit (_db s) in (r, set_db d s))
    DBAPIError
    (fun s =>
       let msg := match db_stamp s with
                  | Some _ => "Failed to update data"
                  | None => "Failed to update db"
                  end in
       (inr tt, set_db (Db.rollback (Db.warn msg (_db s))) s)).

(** ** [class Anime] *)

Module Anime.

(** Modelled from the spec: [AnimeRelationTable] of [adbb.db], a relation as
    (related anime id, relation type), with the key [anime_pk] of the owning
    anime row that the callback assigns. *)
Record AnimeRelationTable : Type := mkRel {
  anime_pk : option Z;
  related_aid : Z;
  relation_type : string
}.

(** Modelled from the spec: [AnimeTable] of [adbb.db], with the key [pk],
    the scalar fields by name, the stamp [updated] and the relations.  The
    relation rows are objects that the row and the callback's local lists
    share, so the row holds their addresses. *)
Record AnimeTable : Type := mkRow {
  pk : option Z;
  fields : gmap string pyval;
  updated : Z;
  relations : list nat
}.

(** The objects handed to the session. *)
Inductive obj : Type :=
| Relation (l : nat)
| Row (r : AnimeTable).

Record response : Type := mkResponse {
  rescode : string;
  datalines : list (gmap string pyval)
}.

Record state : Type := mkState {
  aid : Z;
  db_data : option AnimeTable;
  heap : gmap nat AnimeRelationTable;
  next : nat;
  db : Db.session obj;
  clock : Z;
  _updated : bool;
  update_calls : list bool
}.

Definition set_db_data (r : option AnimeTable) (s : state) : state :=
  mkState (aid s) r (heap s) (next s) (db s) (clock s) (_updated s) (update_calls s).

Definition set_heap (h : gmap nat AnimeRelationTable) (n : nat) (s : state) : state :=
  mkState (aid s) (db_data s) h n (db s) (clock s) (_updated s) (update_calls s).

Definition set_session (d : Db.session obj) (s : state) : state :=
  mkState (aid s) (db_data s) (heap s) (next s) d (clock s) (_updated s) (update_calls s).

Definition set_updated (b : bool) (s : state) : state :=
  mkState (aid s) (db_data s) (heap s) (next s) (db s) (clock s) b (update_calls s).


(** To the thread that calls it, [update(block)] is a request to refresh. *)
Definition record_update (block : bool) : M state unit :=
  modify (fun s => mkState (aid s) (db_data s) (heap s) (next s) (db s) (clock s)
                     (_updated s) (update_calls s ++ [block])).

#[global] Instance anime_obj : AniDBObj state obj := {
  db_stamp s := updated <$> db_data s;
  now := clock;
  _db := db;
  set_db := set_session;
  update := record_update
}.

Section Mapper.

(** [adbb.mapper.anime_relation_map] and [adbb.mapper.anime_map_a_converters]:
    tables of the mapper module, supplied as configuration. *)
Variable anime_relation_map : gmap string string.
Variable anime_map_a_converters : gmap string (pyval -> exn + pyval).

(** [v.split("'")] on a field of the response. *)
Definition split_field (v : pyval) : exn + list string :=
  match v with
  | PStr s => inr (split "'" s)
  | _ => inl AttributeError
  end.

(** [AnimeRelationTable(related_aid=int(x), relation_type=anime_relation_map[y])]. *)
Definition make_relation (xy : string * string) : exn + AnimeRelationTable :=
  match int (PStr (fst xy)) with
  | inl e => inl e
  | inr n =>
      match anime_relation_map !! snd xy with
      | None => inl KeyError
      | Some t => inr (mkRel None n t)
      end
  end.

Fixpoint map_exn {A B} (f : A -> exn + B) (l : list A) : exn + list B :=
  match l with
  | [] => inr []
  | x :: l' =>
      match f x with
      | inl e => inl e
      | inr y => match map_exn f l' with
                 | inl e => inl e
                 | inr ys => inr (y :: ys)
                 end
      end
  end.

(** Lines 117-130: the relation tuples of the record, and the record without
    the two list fields.  [relations] stays [None] when a list field is
    missing, and the comprehension then iterates [None]. *)
Definition parse_relations (ainfo : gmap string pyval)
  : exn + (list AnimeRelationTable * gmap string pyval) :=
  match ainfo !! "related_aid_list", ainfo !! "related_aid_type" with
  | Some ids, Some types =>
      match split_field ids with
      | inl e => inl e
      | inr xs =>
          match split_field types with
          | inl e => inl e
          | inr ys =>
              match map_exn make_relation (zip xs ys) with
              | inl e => inl e
              | inr rels =>
                  inr (rels, base.delete "related_aid_type" (base.delete "related_aid_list" ainfo))
              end
          end
      end
  | _, _ => inl TypeError
  end.

(** Lines 133-135: the converter table applied to the fields it names. *)
Definition convert_field (kv : string * pyval) : exn + (string * pyval) :=
  match anime_map_a_converters !! fst kv with
  | Some conv => match conv (snd kv) with
                 | inl e => inl e
                 | inr v => inr (fst kv, v)
                 end
  | None => inr kv
  end.

Definition convert (ainfo : gmap string pyval) : exn + gmap string pyval :=
  match map_exn convert_field (map_to_list ainfo) with
  | inl e => inl e
  | inr kvs => inr (list_to_map kvs)
  end.

(** The assignments to a stored relation that matches, lines 146-147. *)
Definition overwrite (r : AnimeRelationTable) (p : option Z) (sr : AnimeRelationTable)
  : AnimeRelationTable :=
  mkRel p (related_aid sr) (relation_type r).

(** Lines 143-148: the inner loop over [self.db_data.relations]. *)
Fixpoint match_stored (r : AnimeRelationTable) (p : option Z) (stored : list nat)
    (h : gmap nat AnimeRelationTable) (found : bool) (new_relations : list nat)
  : gmap nat AnimeRelationTable * bool * list nat :=
  match stored with
  | [] => (h, found, new_relations)
  | l :: rest =>
      match h !! l with
      | Some sr =>
          if related_aid r =? related_aid sr
          then match_stored r p rest (<[l := overwrite r p sr]> h) true (new_relations ++ [l])
          else match_stored r p rest h found new_relations
      | None => match_stored r p rest h found new_relations
      end
  end.

(** Lines 141-151: the outer loop over the response's relations.  A row of
    the response becomes a stored object, with an address of its own, when
    it is appended to [new_relations]; before that only its fields are read. *)
Fixpoint reconcile (rs : list AnimeRelationTable) (p : option Z) (stored : list nat)
    (h : gmap nat AnimeRelationTable) (n : nat) (new_relations : list nat)
  : gmap nat AnimeRelationTable * nat * list nat :=
  match rs with
  | [] => (h, n, new_relations)
  | r :: rs' =>
      let '(h1, found, nr1) := match_stored r p stored h false new_relations in
      if found then reconcile rs' p stored h1 n nr1
      else reconcile rs' p stored (<[n := mkRel p (related_aid r) (relation_type r)]> h1)
             (S n) (nr1 ++ [n])
  end.

(** Lines 152-154: [r not in new_relations] compares object identities. *)
Definition dropped (stored new_relations : list nat) : list nat :=
  filter (fun l => l ∉ new_relations) stored.

(** [new.relations = relations] for a fresh row, line 160. *)
Fixpoint allocate (rs : list AnimeRelationTable) (h : gmap nat AnimeRelationTable) (n : nat)
  : gmap nat AnimeRelationTable * nat * list nat :=
  match rs with
  | [] => (h, n, [])
  | r :: rs' =>
      let '(h', n', ls) := allocate rs' (<[n := r]> h) (S n) in
      (h', n', n :: ls)
  end.

(** Lines 137-166: the merge into the cache once the response is parsed. *)
Definition merge (rels : list AnimeRelationTable) (ainfo : gmap string pyval) (s : state)
  : state :=
  match db_data s with
  | Some row =>
      let '(h, n, new_relations) := reconcile rels (pk row) (relations row) (heap s) (next s) [] in
      let d := foldl (fun d l => Db.delete (Relation l) d) (db s)
                 (dropped (relations row) new_relations) in
      set_db_data (Some (mkRow (pk row) (Db.row_update ainfo (fields row)) (clock s) new_relations))
        (set_session d (set_heap h n s))
  | None =>
      let '(h, n, ls) := allocate rels (heap s) (next s) in
      let new := mkRow None ainfo (clock s) ls in
      set_db_data (Some new) (set_session (Db.add (Row new) (db s)) (set_heap h n s))
  end.

(** [Anime._db_data_callback], lines 115-168. *)
Definition _db_data_callback (res : response) : M state unit :=
  let! ainfo := lift (match datalines res with
                    | ainfo :: _ => inr ainfo
                    | [] => inl IndexError
                    end) in
  let! parsed := lift (parse_relations ainfo) in
  let! ainfo' := lift (convert (snd parsed)) in
  let! _ := modify (merge (fst parsed) ainfo') in
  let! _ := _db_commit in
  modify (set_updated true).

End Mapper.

(** What a reader of the cache sees of the relations: for each entry of
    [db_data.relations], its related id and its type. *)
Definition relation_view (s : state) : list (Z * string) :=
  match db_data s with
  | Some row =>
      omap (fun l => (fun r => (related_aid r, relation_type r)) <$> heap s !! l)
           (relations row)
  | None => []
  end.

Definition relation_set (s : state) : gset (Z * string) :=
  list_to_set (relation_view s).


(** *** The vocabulary of the relation diff *)

(** The related id of the object at an address. *)
Definition id_of (h : gmap nat AnimeRelationTable) (l : nat) : option Z :=
  related_aid <$> h !! l.

(** The stored relations that carry a given related id. *)
Definition matches (h : gmap nat AnimeRelationTable) (a : Z) (stored : list nat) : list nat :=
  filter (fun l => id_of h l = Some a) stored.

(** The heap after the matching objects took the type of [r]. *)
Definition overwrite_all (r : AnimeRelationTable) (p : option Z) (ls : list nat)
    (h : gmap nat AnimeRelationTable) : gmap nat AnimeRelationTable :=
  foldl (fun h' l => alter (overwrite r p) l h') h ls.

(** The response's relations with what each contributes to [new_relations]:
    the stored objects with its related id or, when there is none, one fresh
    object. *)
Fixpoint blocks (h : gmap nat AnimeRelationTable) (stored : list nat)
    (rs : list AnimeRelationTable) (n : nat) : list (AnimeRelationTable * list nat) :=
  match rs with
  | [] => []
  | r :: rs' =>
      let ms := matches h (related_aid r) stored in
      if bool_decide (ms = []) then (r, [n]) :: blocks h stored rs' (S n)
      else (r, ms) :: blocks h stored rs' n
  end.

(** What the loop leaves in a stored object: each response row with the
    object's related id overwrites it in turn. *)
Definition settle (p : option Z) (rs : list AnimeRelationTable) (sr : AnimeRelationTable)
  : AnimeRelationTable :=
  foldl (fun o r => if bool_decide (related_aid r = related_aid o)
                    then overwrite r p o else o) sr rs.


End Anime.


(** ** [class Episode] *)

Module Episode.

(** Modelled from the spec: [EpisodeTable] of [adbb.db], its columns (eid,
    aid, epno, ...) by name, and the stamp [updated]. *)
Record EpisodeTable : Type := mkRow {
  fields : gmap string pyval;
  updated : Z
}.

(** A column of a row; a column without a value reads [None]. *)
Definition col (row : EpisodeTable) (name : string) : pyval :=
  default PNone (fields row !! name).

Record response : Type := mkResponse {
  rescode : string;
  datalines : list (gmap string pyval)
}.

(** The [anime] argument of the constructor: absent, an [Anime] object (known
    by its aid), or a key from which [Anime(key)] is built. *)
Inductive anime_arg : Type :=
| NoAnime
| AnimeObject (aid : Z)
| AnimeKey (key : pyval).

Definition truthy_anime (a : anime_arg) : bool :=
  match a with
  | NoAnime => false
  | AnimeObject _ => true
  | AnimeKey key => truthy key
  end.

Record state : Type := mkState {
  _eid : pyval;
  _anime : option Z;
  _episode_number : pyval;
  db_data : option EpisodeTable;
  table : list EpisodeTable;
  db : Db.session EpisodeTable;
  clock : Z;
  _updated : bool;
  update_calls : list bool
}.

(** The attributes of a new object: the class attributes and what
    [AniDBObj.__init__] sets, over the given table and session. *)
Definition new (rows : list EpisodeTable) (d : Db.session EpisodeTable) (t : Z) : state :=
  mkState PNone None PNone None rows d t false [].

Definition set_eid (v : pyval) (s : state) : state :=
  mkState v (_anime s) (_episode_number s) (db_data s) (table s) (db s) (clock s)
    (_updated s) (update_calls s).

Definition set_anime (a : Z) (s : state) : state :=
  mkState (_eid s) (Some a) (_episode_number s) (db_data s) (table s) (db s) (clock s)
    (_updated s) (update_calls s).

Definition set_episode_number (v : pyval) (s : state) : state :=
  mkState (_eid s) (_anime s) v (db_data s) (table s) (db s) (clock s)
    (_updated s) (update_calls s).

Definition set_db_data (r : option EpisodeTable) (s : state) : state :=
  mkState (_eid s) (_anime s) (_episode_number s) r (table s) (db s) (clock s)
    (_updated s) (update_calls s).

Definition set_session (d : Db.session EpisodeTable) (s : state) : state :=
  mkState (_eid s) (_anime s) (_episode_number s) (db_data s) (table s) d (clock s)
    (_updated s) (update_calls s).

Definition set_updated (b : bool) (s : state) : state :=
  mkState (_eid s) (_anime s) (_episode_number s) (db_data s) (table s) (db s) (clock s)
    b (update_calls s).

Definition record_update (block : bool) : M state unit :=
  modify (fun s => mkState (_eid s) (_anime s) (_episode_number s) (db_data s) (table s)
                     (db s) (clock s) (_updated s) (update_calls s ++ [block])).

#[global] Instance episode_obj : AniDBObj state EpisodeTable := {
  db_stamp s := updated <$> db_data s;
  now := clock;
  _db := db;
  set_db := set_session;
  update := record_update
}.

Section Collaborators.

(** [Anime(key).aid]: the title resolver behind the [Anime] constructor. *)
Variable resolve_anime : pyval -> exn + Z.

(** [adbb.mapper.episode_map_converters]. *)
Variable episode_map_converters : gmap string (pyval -> exn + pyval).

(** The property [anime], lines 220-227, up to the aid of the result. *)
Definition anime : M state Z :=
  fun s =>
    match _anime s with
    | Some a => ret a s
    | None =>
        (let! _ := (if match db_data s with
                       | Some row => negb (truthy (col row "aid"))
                       | None => true
                       end
                    then update true else ret tt) in
         let! row := (fun s' => match db_data s' with
                                | Some row => ret row s'
                                | None => raise AttributeError s'
                                end) in
         let! a := lift (resolve_anime (col row "aid")) in
         let! _ := modify (set_anime a) in
         ret a) s
    end.

(** The property [episode_number], lines 229-235. *)
Definition episode_number : M state pyval :=
  fun s =>
    if truthy (_episode_number s) then ret (_episode_number s) s
    else
      (let! _ := (if match db_data s with
                     | Some row => negb (truthy (col row "epno"))
                     | None => true
                     end
                  then update true else ret tt) in
       fun s' => match db_data s' with
                 | Some row => ret (col row "epno") s'
                 | None => raise AttributeError s'
                 end) s.

(** [Episode._get_db_data], lines 258-267. *)
Definition _get_db_data : M state unit :=
  let! res := (fun s =>
    if truthy (_eid s)
    then ret (filter (fun row => col row "eid" = _eid s) (table s)) s
    else
      (let! a := anime in
       let! n := episode_number in
       gets (fun s' => filter (fun row => col row "aid" = PInt a /\ col row "epno" = n)
                         (table s'))) s) in
  match res with
  | row :: _ => modify (set_db_data (Some row))
  | [] => ret tt
  end.

(** [Episode.__init__], lines 237-256.  The [try] block computes
    [str(int(epno))] and drops the result; the attribute is then assigned
    from the argument. *)
Definition __init__ (anime_given : anime_arg) (epno eid : pyval) : M state unit :=
  if negb ((truthy_anime anime_given && truthy epno) || truthy eid)
  then raise AniDBError
  else
    let! _ := (if truthy eid then modify (set_eid eid)
               else
                 let! a := lift (match anime_given with
                                 | AnimeObject a => inr a
                                 | AnimeKey key => resolve_anime key
                                 | NoAnime => resolve_anime PNone
                                 end) in
                 let! _ := modify (set_anime a) in
                 let! _ := try_except
                             (let! n := lift (int epno) in
                              let _ := str n in
                              ret tt)
                             ValueError
                             (ret tt) in
                 modify (set_episode_number epno)) in
    _get_db_data.

(** Lines 276-285: one field of the record on its way into the row. *)
Definition convert_field (kv : string * pyval) : exn + (string * pyval) :=
  if String.eqb (fst kv) "epno" then
    match int (snd kv) with
    | inr n => inr ("epno", PStr (str n))
    | inl ValueError => inr kv
    | inl e => inl e
    end
  else if bool_decide (fst kv ∈ ["title_eng"; "title_romaji"; "title_kanji"]) then inr kv
  else
    match episode_map_converters !! fst kv with
    | Some conv => match conv (snd kv) with
                   | inl e => inl e
                   | inr v => inr (fst kv, v)
                   end
    | None => inl KeyError
    end.

Definition convert (einfo : gmap string pyval) : exn + gmap string pyval :=
  match Anime.map_exn convert_field (map_to_list einfo) with
  | inl e => inl e
  | inr kvs => inr (list_to_map kvs)
  end.

(** Lines 287-296. *)
Definition merge (einfo : gmap string pyval) (s : state) : state :=
  match db_data s with
  | Some row => set_db_data (Some (mkRow (Db.row_update einfo (fields row)) (clock s))) s
  | None =>
      let new := mkRow einfo (clock s) in
      set_db_data (Some new) (set_session (Db.add new (db s)) s)
  end.


End Collaborators.

End Episode.


(** ** [class File] *)

Module File.

(** Modelled from the spec: [FileTable] of [adbb.db], with the identity of
    the row object, its columns (fid, aid, eid, path, size, ...) by name, and
    the stamp [updated]. *)
Record FileTable : Type := mkRow {
  rowid : nat;
  fields : gmap string pyval;
  updated : Z
}.

Definition col (row : FileTable) (name : string) : pyval :=
  default PNone (fields row !! name).

Record response : Type := mkResponse {
  rescode : string;
  datalines : list (gmap string pyval)
}.

(** Modelled from the spec: a command of [adbb.commands], as its class and
    the keyword arguments it was built with. *)
Record command : Type := mkCommand {
  name : string;
  args : list (string * pyval)
}.

(** What the calling thread does that the outside can observe, in order. *)
Inductive event : Type :=
| Sent (c : command) (prio : bool)
| Answered (c : command)
| Stored
| Committed.

(** An [Episode] object as [File] uses it. *)
Record episode_obj : Type := mkEpisode {
  ep_eid : pyval;
  ep_number : pyval
}.

Inductive episode_arg : Type :=
| NoEpisode
| EpisodeObject (e : episode_obj)
| EpisodeKey (key : pyval).

Definition truthy_episode (e : episode_arg) : bool :=
  match e with
  | NoEpisode => false
  | EpisodeObject _ => true
  | EpisodeKey key => truthy key
  end.

(** The private attributes of a [File] object. *)
Record attrs : Type := mkAttrs {
  _path : pyval;
  _fid : pyval;
  _size : pyval;
  _mtime : pyval;
  _ed2khash : pyval;
  _anime : option Z;
  _episode : option episode_obj;
  _multiep : option (list string)
}.

(** The link as one calling thread sees it: the local event [wait], the
    requests whose callback has not run yet, the result codes the service will
    answer with, and the events so far. *)
Record link : Type := mkLink {
  wait : bool;
  inflight : list command;
  rescodes : list string;
  events : list event
}.

Record state : Type := mkState {
  self : attrs;
  db_data : option FileTable;
  table0 : list FileTable;
  db : Db.session FileTable;
  clock : Z;
  anidb : link;
  _file_updated : bool
}.

Definition new_attrs : attrs := mkAttrs PNone PNone PNone PNone PNone None None (Some []).

Definition set_self (a : attrs) (s : state) : state :=
  mkState a (db_data s) (table0 s) (db s) (clock s) (anidb s) (_file_updated s).

Definition set_db_data (r : option FileTable) (s : state) : state :=
  mkState (self s) r (table0 s) (db s) (clock s) (anidb s) (_file_updated s).

Definition set_session (d : Db.session FileTable) (s : state) : state :=
  mkState (self s) (db_data s) (table0 s) d (clock s) (anidb s) (_file_updated s).

Definition set_link (k : link) (s : state) : state :=
  mkState (self s) (db_data s) (table0 s) (db s) (clock s) k (_file_updated s).

Definition set_file_updated (b : bool) (s : state) : state :=
  mkState (self s) (db_data s) (table0 s) (db s) (clock s) (anidb s) b.

Definition set_path_stats (path mtime size : pyval) (a : attrs) : attrs :=
  mkAttrs path (_fid a) size mtime (_ed2khash a) (_anime a) (_episode a) (_multiep a).

Definition set_stats (mtime size : pyval) (a : attrs) : attrs :=
  mkAttrs (_path a) (_fid a) size mtime (_ed2khash a) (_anime a) (_episode a) (_multiep a).

Definition set_fid (fid : pyval) (a : attrs) : attrs :=
  mkAttrs (_path a) fid (_size a) (_mtime a) (_ed2khash a) (_anime a) (_episode a) (_multiep a).

Definition set_size (size : pyval) (a : attrs) : attrs :=
  mkAttrs (_path a) (_fid a) size (_mtime a) (_ed2khash a) (_anime a) (_episode a) (_multiep a).

Definition set_ed2khash (h : pyval) (a : attrs) : attrs :=
  mkAttrs (_path a) (_fid a) (_size a) (_mtime a) h (_anime a) (_episode a) (_multiep a).

Definition set_anime (x : option Z) (a : attrs) : attrs :=
  mkAttrs (_path a) (_fid a) (_size a) (_mtime a) (_ed2khash a) x (_episode a) (_multiep a).

Definition set_episode (e : option episode_obj) (a : attrs) : attrs :=
  mkAttrs (_path a) (_fid a) (_size a) (_mtime a) (_ed2khash a) (_anime a) e (_multiep a).

(** A new object over the given table, session and link: the class
    attributes and what [AniDBObj.__init__] and line 429 set. *)
Definition new (stored : list FileTable) (d : Db.session FileTable) (t : Z) (k : link)
  : state :=
  mkState new_attrs None stored d t k false.

(** The rows a query sees: the stored rows with the changes of all commits
    and of the open transaction. *)
Definition apply_op (rows : list FileTable) (o : Db.op FileTable) : list FileTable :=
  match o with
  | Db.Add r => rows ++ [r]
  | Db.Delete r => filter (fun r' => rowid r' <> rowid r) rows
  end.

Definition committed_rows (s : state) : list FileTable :=
  foldl apply_op (table0 s) (Db.durable (db s)).

Definition rows (s : state) : list FileTable :=
  foldl apply_op (committed_rows s) (Db.pending (db s)).

(** [self._db.query(FileTable).filter_by(column=v).all()]. *)
Definition query (column : string) (v : pyval) (s : state) : list FileTable :=
  filter (fun row => col row column = v) (rows s).

Definition modify_self (f : attrs -> attrs) : M state unit :=
  modify (fun s => set_self (f (self s)) s).

Definition modify_link (f : link -> link) : M state unit :=
  modify (fun s => set_link (f (anidb s)) s).

Section Collaborators.

(** The refresh protocol [update(block)] as the calling thread sees it. *)
Variable refresh : bool -> M state unit.

(** [adbb.fileinfo.get_file_stats] (modification time, size) and
    [adbb.fileinfo.get_file_hash]. *)
Variable get_file_stats : pyval -> exn + (pyval * pyval).
Variable get_file_hash : pyval -> exn + pyval.

(** The constructors [Anime(key)] and [Episode(anime=, epno=, eid=)], and the
    property [Episode.episode_number] of an episode object. *)
Variable make_anime : pyval -> exn + Z.
Variable make_episode : option Z -> pyval -> pyval -> exn + episode_obj.
Variable episode_number_of : episode_obj -> exn + pyval.

(** [adbb.mapper.file_map_f_converters] and [adbb.mapper.mylist_state_map]. *)
Variable file_map_f_converters : gmap string (pyval -> exn + pyval).
Variable mylist_state_map : list (Z * string).

#[local] Instance file_obj : AniDBObj state FileTable := {
  db_stamp s := updated <$> db_data s;
  now := clock;
  _db := db;
  set_db := set_session;
  update := refresh
}.

(** [self.db_data.<name>]: [AttributeError] when there is no cached row. *)
Definition db_data_attr (name : string) : M state pyval :=
  fun s => match db_data s with
           | Some row => ret (col row name) s
           | None => raise AttributeError s
           end.

(** [not self.db_data or not self.db_data.<name>]. *)
Definition lacks (name : string) (s : state) : bool :=
  match db_data s with
  | Some row => negb (truthy (col row name))
  | None => true
  end.

(** [File.__getattr__], lines 618-620. *)
Definition __getattr__ (name : string) : M state pyval :=
  let! _ := update_if_old seven_days false in
  gets (fun s => match db_data s with
                 | Some row => col row name
                 | None => PNone
                 end).

(** The property [fid], lines 368-374. *)
Definition fid : M state pyval :=
  fun s =>
    if truthy (_fid (self s)) then ret (_fid (self s)) s
    else (let! _ := (fun s' => if lacks "fid" s' then update true s' else ret tt s') in
          db_data_attr "fid") s.

(** The property [path], lines 376-382. *)
Definition path (s : state) : pyval :=
  if truthy (_path (self s)) then _path (self s)
  else match db_data s with
       | Some row => col row "path"
       | None => PNone
       end.

(** The property [size], lines 384-392. *)
Definition size : M state pyval :=
  fun s =>
    if truthy (_size (self s)) then ret (_size (self s)) s
    else
      (let! _ := (fun s' =>
                    if truthy (path s') then
                      (let! st := lift (get_file_stats (path s')) in
                       modify_self (set_stats (fst st) (snd st))) s'
                    else match db_data s' with
                         | Some row =>
                             if truthy (col row "size")
                             then modify_self (set_size (col row "size")) s'
                             else ret tt s'
                         | None => ret tt s'
                         end) in
       gets (fun s' => _size (self s'))) s.

(** The property [ed2khash], lines 404-425. *)
Definition ed2khash : M state pyval :=
  fun s =>
    if truthy (_ed2khash (self s)) then ret (_ed2khash (self s)) s
    else if truthy (path s) then
      (let! _ := (fun s' =>
                    match db_data s' with
                    | Some row =>
                        if truthy (col row "mtime") && truthy (col row "size")
                           && truthy (col row "ed2khash")
                        then
                          (let! st := lift (get_file_stats (path s')) in
                           if bool_decide (fst st = col row "mtime")
                              && bool_decide (snd st = col row "size")
                           then modify_self (set_ed2khash (col row "ed2khash"))
                           else ret tt) s'
                        else ret tt s'
                    | None => ret tt s'
                    end) in
       let! _ := (fun s' =>
                    if truthy (_ed2khash (self s')) then ret tt s'
                    else (let! h := lift (get_file_hash (_path (self s'))) in
                          modify_self (set_ed2khash h)) s') in
       gets (fun s' => _ed2khash (self s'))) s
    else
      (let! _ := (fun s' =>
                    match db_data s' with
                    | None => raise AttributeError s'
                    | Some _ => ret tt s'
                    end) in
       let! _ := (fun s' =>
                    match db_data s' with
                    | Some row => modify_self (set_ed2khash (col row "ed2khash")) s'
                    | None => ret tt s'
                    end) in
       gets (fun s' => _ed2khash (self s'))) s.

(** The property [anime], lines 334-342: the [Anime] object or [None]. *)
Definition anime : M state (option Z) :=
  fun s =>
    match _anime (self s) with
    | Some a => ret (Some a) s
    | None =>
        (let! _ := (fun s' => if lacks "aid" s' then update true s' else ret tt s') in
         let! aid := db_data_attr "aid" in
         let! _ := (if truthy aid
                    then (let! a := lift (make_anime aid) in modify_self (set_anime (Some a)))
                    else ret tt) in
         gets (fun s' => _anime (self s'))) s
    end.

(** The property [episode], lines 344-354.  The second branch names a
    global [_multiep] that does not exist. *)
Definition episode : M state (option episode_obj) :=
  fun s =>
    match _episode (self s) with
    | Some e => ret (Some e) s
    | None =>
        (let! _ := (fun s' => if lacks "eid" s' then update true s' else ret tt s') in
         let! eid := db_data_attr "eid" in
         let! _ := (if truthy eid
                    then (let! e := lift (make_episode None PNone eid) in
                          modify_self (set_episode (Some e)))
                    else
                      fun s' =>
                        match _multiep (self s') with
                        | Some (_ :: _) =>
                            (let! a := anime in
                             match a with
                             | Some _ => raise NameError
                             | None => ret tt
                             end) s'
                        | _ => ret tt s'
                        end) in
         gets (fun s' => _episode (self s'))) s
    end.

(** [self.anime.aid] and [self.episode.episode_number]. *)
Definition anime_aid : M state Z :=
  let! a := anime in
  match a with
  | Some aid => ret aid
  | None => raise AttributeError
  end.

Definition episode_episode_number : M state pyval :=
  let! e := episode in
  match e with
  | Some e => lift (episode_number_of e)
  | None => raise AttributeError
  end.

(** [File._get_db_data], lines 451-462. *)
Definition _get_db_data : M state unit :=
  let! res := (fun s =>
    if truthy (_fid (self s)) then ret (query "fid" (_fid (self s)) s) s
    else
      match query "path" (_path (self s)) s with
      | row :: others =>
          if negb (bool_decide (col row "size" = _size (self s)))
          then (let! _ := modify (fun s' => set_session (Db.delete row (db s')) s') in
                let! _ := _db_commit in
                ret []) s
          else ret (row :: others) s
      | [] => ret [] s
      end) in
  match res with
  | row :: _ => modify (set_db_data (Some row))
  | [] => ret tt
  end.

(** [File.__init__], lines 427-449, on the attributes of a new object. *)
Definition __init__ (path_given fid_given : pyval) (anime_given : Episode.anime_arg)
    (episode_given : episode_arg) : M state unit :=
  if negb (truthy path_given) && negb (truthy fid_given)
     && negb (Episode.truthy_anime anime_given && truthy_episode episode_given)
  then raise AniDBError
  else
    let! _ := (if truthy path_given
               then (let! st := lift (get_file_stats path_given) in
                     modify_self (set_path_stats path_given (fst st) (snd st)))
               else ret tt) in
    let! _ := (if truthy fid_given
               then (let! n := lift (int fid_given) in modify_self (set_fid (PInt n)))
               else ret tt) in
    let! _ := (if Episode.truthy_anime anime_given
               then
                 (let! a := lift (match anime_given with
                                  | Episode.AnimeObject a => inr a
                                  | Episode.AnimeKey key => make_anime key
                                  | Episode.NoAnime => make_anime PNone
                                  end) in
                  let! _ := modify_self (set_anime (Some a)) in
                  let! e := lift (match episode_given with
                                  | EpisodeObject e => inr e
                                  | EpisodeKey key => make_episode (Some a) key PNone
                                  | NoEpisode => make_episode (Some a) PNone PNone
                                  end) in
                  modify_self (set_episode (Some e)))
               else ret tt) in
    _get_db_data.

(** *** The file data callback *)

(** Lines 485-502: the status bits of a normal response. *)
Definition decode_state (state : Z) (finfo : gmap string pyval) : gmap string pyval :=
  let finfo :=
    if truthy (PInt (Z.land state 0x1)) then <["crc_ok" := PBool true]> finfo
    else if truthy (PInt (Z.land state 0x2)) then <["crc_ok" := PBool false]> finfo
    else finfo in
  let finfo :=
    if truthy (PInt (Z.land state 0x4)) then <["file_version" := PInt 2]> finfo
    else if truthy (PInt (Z.land state 0x8)) then <["file_version" := PInt 3]> finfo
    else if truthy (PInt (Z.land state 0x10)) then <["file_version" := PInt 4]> finfo
    else if truthy (PInt (Z.land state 0x20)) then <["file_version" := PInt 5]> finfo
    else <["file_version" := PInt 1]> finfo in
  if truthy (PInt (Z.land state 0x40)) then <["censored" := PBool false]> finfo
  else if truthy (PInt (Z.land state 0x80)) then <["censored" := PBool true]> finfo
  else finfo.

Definition convert_field (kv : string * pyval) : exn + (string * pyval) :=
  match file_map_f_converters !! fst kv with
  | Some conv => match conv (snd kv) with
                 | inl e => inl e
                 | inr v => inr (fst kv, v)
                 end
  | None => inl KeyError
  end.

Definition convert (finfo : gmap string pyval) : exn + gmap string pyval :=
  match Anime.map_exn convert_field (map_to_list finfo) with
  | inl e => inl e
  | inr kvs => inr (list_to_map kvs)
  end.

(** Lines 468-504: the record that the response stands for. *)
Definition file_record (res : response) : exn + gmap string pyval :=
  if bool_decide (rescode res ∈ ["340"; "320"]) then inr {["is_generic" := PBool true]}
  else
    match datalines res with
    | [] => inl IndexError
    | finfo :: _ =>
        match (match finfo !! "state" with
               | Some v => match int v with
                           | inr n => inr (Some n)
                           | inl e => inl e
                           end
               | None => inr None
               end) with
        | inl e => inl e
        | inr state =>
            let finfo := base.delete "state" finfo in
            let finfo :=
              filter (fun kv => ~ (String.prefix "mylist_" (fst kv) = true
                                   /\ snd kv = PStr "")) finfo in
            match convert finfo with
            | inl e => inl e
            | inr finfo =>
                match state with
                | None => inl TypeError
                | Some st => inr (<["is_generic" := PBool false]> (decode_state st finfo))
                end
            end
        end
    end.

(** The result codes other than "no such file" and "generic file". *)
Definition rescode_normal (res : response) : bool :=
  negb (bool_decide (rescode res ∈ ["340"; "320"])).

Definition fresh_rowid (s : state) : nat :=
  S (foldr Nat.max 0%nat (rowid <$> (table0 s ++ rows s))).

(** Lines 516-525. *)
Definition merge (finfo : gmap string pyval) (s : state) : state :=
  match db_data s with
  | Some row =>
      set_db_data (Some (mkRow (rowid row) (Db.row_update finfo (fields row)) (clock s))) s
  | None =>
      let new := mkRow (fresh_rowid s) finfo (clock s) in
      set_db_data (Some new) (set_session (Db.add new (db s)) s)
  end.

(** [File._anidb_file_data_callback], lines 466-527. *)
Definition _anidb_file_data_callback (res : response) : M state unit :=
  let! finfo := lift (file_record res) in
  let! finfo := (fun s =>
    if truthy (_path (self s))
    then (let finfo := <["size" := _size (self s)]> (<["path" := _path (self s)]> finfo) in
          let! h := ed2khash in
          ret (<["ed2khash" := h]> finfo)) s
    else ret finfo s) in
  let finfo := match finfo !! "aid" with Some _ => finfo | None => <["aid" := PInt 0]> finfo end in
  let finfo := match finfo !! "eid" with Some _ => finfo | None => <["eid" := PInt 0]> finfo end in
  let! _ := modify (merge finfo) in
  let! _ := _db_commit in
  modify (set_file_updated true).

(** *** The mylist workflows *)

(** [self._anidb_link.request(req, callback, prio=prio)]. *)
Definition request (req : command) (prio : bool) : M state unit :=
  modify_link (fun k => mkLink (wait k) (inflight k ++ [req]) (rescodes k)
                          (events k ++ [Sent req prio])).

(** [wait.clear()]. *)
Definition wait_clear : M state unit :=
  modify_link (fun k => mkLink false (inflight k) (rescodes k) (events k)).

(** [wait.wait()]: returns at once when the event is set; otherwise the
    thread sleeps until the callback of the oldest request in flight has
    run (every callback here ends in [wait.set()]); with nothing in flight
    it sleeps for good. *)
Definition wait_wait (callback : string -> M state unit) : M state unit :=
  fun s =>
    if wait (anidb s) then ret tt s
    else match inflight (anidb s) with
         | req :: others =>
             (let! _ := modify_link (fun k => mkLink (wait k) others (tl (rescodes k))
                                                (events k ++ [Answered req])) in
              let! _ := callback (hd "" (rescodes (anidb s))) in
              modify_link (fun k => mkLink true (inflight k) (rescodes k) (events k))) s
         | [] => raise Blocked s
         end.

Definition log_info (msg : string) : M state unit :=
  modify (fun s => set_session (Db.info msg (db s)) s).

Definition log_warning (msg : string) : M state unit :=
  modify (fun s => set_session (Db.warn msg (db s)) s).

(** [_mylistdel_callback], lines 633-638, up to its [wait.set()]. *)
Definition _mylistdel_callback (code : string) : M state unit :=
  if String.eqb code "211" then log_info "removed from mylist"
  else if String.eqb code "411" then log_warning "was not in mylist"
  else ret tt.

(** [_mylistadd_callback], lines 671-677, up to its [wait.set()].  The
    second test compares the result code, a string, with two integers. *)
Definition _mylistadd_callback (code : string) : M state unit :=
  if bool_decide (code ∈ ["320"; "330"; "350"; "310"]) then log_warning "Could not add file to mylist"
  else if bool_decide (PStr code ∈ [PInt 210; PInt 310]) then log_info "added to mylist"
  else ret tt.

(** The list the two workflows iterate, lines 649-652 and 694-697. *)
Definition episodes : M state (list pyval) :=
  fun s =>
    match _multiep (self s) with
    | Some (ep :: eps) => ret (PStr <$> (ep :: eps)) s
    | _ => (let! n := episode_episode_number in ret [n]) s
    end.

(** [File.remove_from_mylist], lines 630-660. *)
Definition remove_from_mylist : M state unit :=
  let! _ := modify_link (fun k => mkLink false (inflight k) (rescodes k) (events k)) in
  let! dbv := __getattr__ "db" in
  let! known := (if truthy dbv
                 then (let! f := db_data_attr "fid" in ret (truthy f))
                 else ret false) in
  let! _ :=
    (if known then
       let! _ := __getattr__ "data" in
       raise AttributeError
     else
       let! sz := size in
       let! hashed := (if truthy sz then (let! h := ed2khash in ret (truthy h)) else ret false) in
       if hashed then
         let! sz := size in
         let! h := ed2khash in
         request (mkCommand "MyListDelCommand" [("size", sz); ("ed2k", h)]) true
       else
         let! eps := episodes in
         for_each eps (fun ep =>
           let! _ := wait_clear in
           let! a := anime_aid in
           let! n := episode_episode_number in
           let! _ := request (mkCommand "MyListDelCommand" [("aid", PInt a); ("epno", n)]) true in
           wait_wait _mylistdel_callback)) in
  wait_wait _mylistdel_callback.

(** Lines 720-725: the mylist columns of the cached row. *)
Definition store_mylist (state_name : string) (watched : Z) (source other : pyval)
  : M state unit :=
  fun s =>
    match db_data s with
    | None => raise AttributeError s
    | Some row =>
        let f := <["mylist_viewed" := PInt watched]> (<["mylist_state" := PStr state_name]> (fields row)) in
        let f := if truthy (PInt watched) then <["mylist_viewdate" := PTime (clock s)]> f else f in
        let f := <["mylist_other" := other]> (<["mylist_source" := source]> f) in
        (let! _ := modify (set_db_data (Some (mkRow (rowid row) f (updated row)))) in
         modify_link (fun k => mkLink (wait k) (inflight k) (rescodes k) (events k ++ [Stored]))) s
    end.

(** [File.add_to_mylist], lines 662-726. *)
Definition add_to_mylist (state_name : string) (watched source other : pyval)
  : M state unit :=
  let! _ := modify_link (fun k => mkLink false (inflight k) (rescodes k) (events k)) in
  let! _ := update_if_old seven_days false in
  let! state_num := lift (match filter (fun xy => snd xy = state_name) mylist_state_map with
                          | xy :: _ => inr (fst xy)
                          | [] => inl IndexError
                          end) in
  let watched := if truthy watched then 1 else 0 in
  let common := [("state", PInt state_num); ("viewed", PInt watched);
                 ("source", source); ("other", other)] in
  let! f := fid in
  let! _ :=
    (if truthy f then
       let! f := fid in
       request (mkCommand "MyListAddCommand" (("fid", f) :: common)) true
     else
       let! generic := __getattr__ "is_generic" in
       if truthy generic then
         let! eps := episodes in
         for_each eps (fun ep =>
           let! _ := wait_clear in
           let! a := anime_aid in
           let! _ := request (mkCommand "MyListAddCommand"
                                ([("aid", PInt a); ("epno", ep); ("generic", PInt 1)] ++ common))
                       true in
           wait_wait _mylistadd_callback)
       else
         let! sz := size in
         let! h := ed2khash in
         request (mkCommand "MyListAddCommand" ([("size", sz); ("ed2k", h)] ++ common)) true) in
  let! _ := wait_wait _mylistadd_callback in
  let! _ := store_mylist state_name watched source other in
  let! _ := _db_commit in
  modify_link (fun k => mkLink (wait k) (inflight k) (rescodes k) (events k ++ [Committed])).

(** [File(path=path)]. *)
Definition construct_from_path (path_given : pyval) : M state unit :=
  __init__ path_given PNone Episode.NoAnime NoEpisode.


End Collaborators.

End File.


(** ** The refresh protocol: threads, the lock and the event

    [AniDBObj.update] (lines 51-58), [AniDBObj._fetch_anidb_data] (lines
    42-49) and [Anime._send_anidb_update_req] (lines 170-177), run by any
    number of threads on one entity.  A state holds the lock [_updating],
    the event [_updated], where every calling thread and every refresh
    thread stands, and the requests sent to the service; a step is one
    statement of one thread, or the service running the callback of a
    request. *)

Module Refresh.

(** Where a thread that called [update(block)] stands. *)
Inductive caller : Type :=
| CallUpdate (block : bool)   (* line 52: about to try the lock *)
| WaitLock                    (* line 55: [self._updating.acquire(True)] *)
| ReleaseLock                 (* line 56: [self._updating.release()] *)
| Fetch (block : bool)        (* lines 44-47: about to start the refresh thread *)
| Join (thread : nat)         (* line 49: [thread.join()] *)
| Returned.

(** Where a refresh thread stands in [_send_anidb_update_req]. *)
Inductive refresher : Type :=
| Clear      (* line 171: [self._updated.clear()] *)
| Request    (* line 175: [self._anidb_link.request(...)] *)
| Wait       (* line 176: [self._updated.wait()] *)
| Release    (* line 177: [self._updating.release()] *)
| Finished.

Record state : Type := mkState {
  _updating : bool;
  _updated : bool;
  callers : list caller;
  refreshers : list refresher;
  outstanding : nat;
  sent : nat
}.

Definition with_lock (b : bool) (s : state) : state :=
  mkState b (_updated s) (callers s) (refreshers s) (outstanding s) (sent s).

Definition with_event (b : bool) (s : state) : state :=
  mkState (_updating s) b (callers s) (refreshers s) (outstanding s) (sent s).

Definition with_callers (cs : list caller) (s : state) : state :=
  mkState (_updating s) (_updated s) cs (refreshers s) (outstanding s) (sent s).

Definition with_refreshers (rs : list refresher) (s : state) : state :=
  mkState (_updating s) (_updated s) (callers s) rs (outstanding s) (sent s).

Definition with_requests (pending total : nat) (s : state) : state :=
  mkState (_updating s) (_updated s) (callers s) (refreshers s) pending total.

(** Every thread is about to call [update]; the lock is free, the event
    unset, nothing was sent. *)
Definition initial (blocks : list bool) : state :=
  mkState false false (CallUpdate <$> blocks) [] 0 0.

Inductive actor : Type :=
| Thread
| Service.

Inductive step : actor -> state -> state -> Prop :=
| step_acquire s cs1 b cs2 :
    callers s = cs1 ++ CallUpdate b :: cs2 -> _updating s = false ->
    step Thread s (with_lock true (with_callers (cs1 ++ Fetch b :: cs2) s))
| step_locked s cs1 b cs2 :
    callers s = cs1 ++ CallUpdate b :: cs2 -> _updating s = true ->
    step Thread s (with_callers (cs1 ++ (if b then WaitLock else Returned) :: cs2) s)
| step_wait_lock s cs1 cs2 :
    callers s = cs1 ++ WaitLock :: cs2 -> _updating s = false ->
    step Thread s (with_lock true (with_callers (cs1 ++ ReleaseLock :: cs2) s))
| step_release_lock s cs1 cs2 :
    callers s = cs1 ++ ReleaseLock :: cs2 ->
    step Thread s (with_lock false (with_callers (cs1 ++ Returned :: cs2) s))
| step_fetch s cs1 b cs2 :
    callers s = cs1 ++ Fetch b :: cs2 ->
    step Thread s
      (with_refreshers (refreshers s ++ [Clear])
         (with_callers
            (cs1 ++ (if b then Join (length (refreshers s)) else Returned) :: cs2) s))
| step_join s cs1 t cs2 :
    callers s = cs1 ++ Join t :: cs2 -> refreshers s !! t = Some Finished ->
    step Thread s (with_callers (cs1 ++ Returned :: cs2) s)
| step_clear s rs1 rs2 :
    refreshers s = rs1 ++ Clear :: rs2 ->
    step Thread s (with_event false (with_refreshers (rs1 ++ Request :: rs2) s))
| step_request s rs1 rs2 :
    refreshers s = rs1 ++ Request :: rs2 ->
    step Thread s
      (with_requests (S (outstanding s)) (S (sent s))
         (with_refreshers (rs1 ++ Wait :: rs2) s))
| step_woken s rs1 rs2 :
    refreshers s = rs1 ++ Wait :: rs2 -> _updated s = true ->
    step Thread s (with_refreshers (rs1 ++ Release :: rs2) s)
| step_unlock s rs1 rs2 :
    refreshers s = rs1 ++ Release :: rs2 ->
    step Thread s (with_lock false (with_refreshers (rs1 ++ Finished :: rs2) s))
| step_callback s n :
    outstanding s = S n ->
    step Service s (with_event true (with_requests n (sent s) s))
| step_callback_raises s n :
    outstanding s = S n ->
    step Service s (with_requests n (sent s) s).

(** The states an execution can reach, by the actors that [P] allows. *)
Inductive reaches (P : actor -> Prop) : state -> state -> Prop :=
| reaches_here s : reaches P s s
| reaches_step s1 s2 s3 a :
    reaches P s1 s2 -> P a -> step a s2 s3 -> reaches P s1 s3.

Definition anyone (a : actor) : Prop := True.

(** Executions in which the service has not answered yet. *)
Definition threads_only (a : actor) : Prop := a = Thread.

(** The refresh threads that have not finished. *)
Definition alive (r : refresher) : nat :=
  match r with
  | Finished => 0
  | _ => 1
  end.

Definition refreshes_in_flight (s : state) : nat :=
  sum_list_with alive (refreshers s).


(** The threads that hold the lock: a caller between taking it and handing
    it on, or a refresh thread that has not finished. *)
Definition holds_lock (c : caller) : nat :=
  match c with
  | Fetch _ | ReleaseLock => 1
  | _ => 0
  end.

Definition waiting (r : refresher) : nat :=
  match r with
  | Wait => 1
  | _ => 0
  end.

Definition requesting (r : refresher) : nat :=
  match r with
  | Request => 1
  | _ => 0
  end.

Definition holders (s : state) : nat :=
  (sum_list_with holds_lock (callers s) + refreshes_in_flight s)%nat.

Record invariant (s : state) : Prop := mkInvariant {
  inv_lock : holders s = if _updating s then 1%nat else 0%nat;
  inv_outstanding : (outstanding s <= sum_list_with waiting (refreshers s))%nat;
  inv_request : (0 < sum_list_with requesting (refreshers s))%nat -> _updated s = false;
  inv_event : _updated s = true -> outstanding s = 0%nat
}.



End Refresh.

(** ** The refresh of a [File]: two requests, two events

    [File._send_anidb_update_req] (lines 565-616) as the refresh thread runs
    it, with the two callbacks that the link runs for it.  Besides the
    file's own state there is the event [_mylist_updated] and the lock
    [_updating], which [update] took before it started the thread. *)

Module FileRefresh.

Import File.

Record state : Type := mkState {
  file : File.state;
  _mylist_updated : bool;
  _updating : bool
}.

Definition set_file (f : File.state) (s : state) : state :=
  mkState f (_mylist_updated s) (_updating s).

Definition set_mylist_updated (b : bool) (s : state) : state :=
  mkState (file s) b (_updating s).

Definition set_updating (b : bool) (s : state) : state :=
  mkState (file s) (_mylist_updated s) b.

(** A computation on the file's own attributes, run on the whole state. *)
Definition on_file {A} (c : M File.state A) : M state A :=
  fun s => let '(r, f) := c (file s) in (r, set_file f s).

Definition set_multiep (eps : option (list string)) (a : attrs) : attrs :=
  mkAttrs (_path a) (_fid a) (_size a) (_mtime a) (_ed2khash a) (_anime a) (_episode a) eps.

(** [self.db_data.<name> = v] on the cached row. *)
Definition assign_column (name : string) (v : pyval) : M File.state unit :=
  fun s =>
    match db_data s with
    | Some row =>
        modify (set_db_data (Some (mkRow (rowid row) (<[name := v]> (fields row))
                                     (updated row)))) s
    | None => raise AttributeError s
    end.

(** [if self.db_data and self.db_data.<name>: body], the body reading the
    column, and [if self.db_data and not self.db_data.<name>: body]. *)
Definition when_row_has (name : string) (body : pyval -> M File.state unit)
  : M File.state unit :=
  fun s =>
    match db_data s with
    | Some row => if truthy (col row name) then body (col row name) s else ret tt s
    | None => ret tt s
    end.

Definition when_row_lacks (name : string) (body : M File.state unit) : M File.state unit :=
  fun s =>
    match db_data s with
    | Some row => if truthy (col row name) then ret tt s else body s
    | None => ret tt s
    end.

(** [update(block)] called by the thread that runs the refresh (lines
    51-57): the lock is held for this refresh, so the non-blocking acquire
    fails; a non-blocking call returns, a blocking call waits for a lock
    that only this thread would release. *)
Definition update_while_refreshing (block : bool) : M File.state unit :=
  if block then raise Blocked else ret tt.

Section Collaborators.

(** What the service answers to a request. *)
Variable answer : command -> response.

Variable get_file_stats : pyval -> exn + (pyval * pyval).
Variable get_file_hash : pyval -> exn + pyval.

(** The constructors [Anime(key)] and [Episode(anime=, epno=, eid=)], and
    the properties [episode_number] and [eid] of an episode object. *)
Variable make_anime : pyval -> exn + Z.
Variable make_episode : option Z -> pyval -> pyval -> exn + episode_obj.
Variable episode_number_of : episode_obj -> exn + pyval.
Variable episode_eid_of : episode_obj -> exn + pyval.

(** [adbb.mapper.file_map_f_converters], [adbb.mapper.mylist_map_converters]
    and the two masks [getFileBitsF(file_map_f)] and [getFileBitsA([])]. *)
Variable file_map_f_converters : gmap string (pyval -> exn + pyval).
Variable mylist_map_converters : gmap string (pyval -> exn + pyval).
Variable fmask : pyval.
Variable amask : pyval.

(** [self._guess_anime_ep_from_file()] by the path it reads: [None] stands
    for the result [(None, None)]. *)
Variable _guess_anime_ep_from_file : pyval -> exn + option (Z * list string).

(** Lines 531-543: the record that a mylist response stands for. *)
Definition mylist_record (res : response) : exn + gmap string pyval :=
  if String.eqb (rescode res) "312" then inl AniDBFileError
  else if String.eqb (rescode res) "321" then inr {["is_generic" := PBool true]}
  else
    match datalines res with
    | [] => inl IndexError
    | finfo :: _ =>
        convert mylist_map_converters (base.delete "date" (base.delete "lid" finfo))
    end.

(** [File._anidb_mylist_data_callback], lines 529-562. *)
Definition _anidb_mylist_data_callback (res : response) : M state unit :=
  let! finfo := lift (mylist_record res) in
  let! finfo := on_file (fun s =>
    if truthy (_path (self s))
    then (let finfo := <["size" := _size (self s)]> (<["path" := _path (self s)]> finfo) in
          let! h := ed2khash get_file_stats get_file_hash in
          ret (<["ed2khash" := h]> finfo)) s
    else ret finfo s) in
  let! _ := on_file (modify (merge finfo)) in
  let! _ := on_file (@_db_commit _ _ (file_obj update_while_refreshing)) in
  modify (set_mylist_updated true).

(** The link runs the callback of a request in a thread of its own: the
    request leaves the queue, and an exception that the callback raises ends
    there, with the event it would have set still unset. *)
Definition run_callback (req : command) (s : state) : state :=
  let s := (on_file (modify_link (fun k => mkLink (wait k) (tl (inflight k)) (rescodes k)
                                             (events k ++ [Answered req]))) s).2 in
  if String.eqb (name req) "FileCommand"
  then (on_file (_anidb_file_data_callback update_while_refreshing get_file_stats
                   get_file_hash file_map_f_converters (answer req)) s).2
  else (_anidb_mylist_data_callback (answer req) s).2.

(** [event.wait()] in the refresh thread: it returns once the event is set;
    until then the link answers the requests in flight, oldest first; with
    the event unset and nothing left in flight the thread waits for good. *)
Fixpoint serve (event : state -> bool) (reqs : list command) (s : state)
  : (exn + unit) * state :=
  if event s then (inr tt, s)
  else match reqs with
       | [] => (inl Blocked, s)
       | req :: rest => serve event rest (run_callback req s)
       end.

Definition wait_event (event : state -> bool) : M state unit :=
  fun s => serve event (inflight (anidb (file s))) s.

(** Lines 592-607: what the refresh does for a file with a path before it
    asks for the mylist entry. *)
Definition identify : M File.state unit :=
  let! _ := when_row_has "aid" (fun aid =>
              let! a := lift (make_anime aid) in modify_self (set_anime (Some a))) in
  let! _ := when_row_has "eid" (fun eid =>
              let! e := lift (make_episode None PNone eid) in
              modify_self (set_episode (Some e))) in
  fun s =>
    match _anime (self s), _episode (self s) with
    | Some _, Some _ => ret tt s
    | _, _ =>
        (let! guess := lift (_guess_anime_ep_from_file (path s)) in
         match guess with
         | None => modify_self (set_multiep None)
         | Some (aid, eps) =>
             let! _ := modify_self (set_multiep (Some eps)) in
             match eps with
             | ep :: _ =>
                 if truthy (PInt aid) then
                   let! _ := when_row_lacks "aid" (assign_column "aid" (PInt aid)) in
                   let! a := (fun s' =>
                     match _anime (self s') with
                     | Some a => ret a s'
                     | None => (let! a := lift (make_anime (PInt aid)) in
                                let! _ := modify_self (set_anime (Some a)) in
                                ret a) s'
                     end) in
                   let! e := (fun s' =>
                     match _episode (self s') with
                     | Some e => ret e s'
                     | None => (let! e := lift (make_episode (Some a) (PStr ep) PNone) in
                                let! _ := modify_self (set_episode (Some e)) in
                                ret e) s'
                     end) in
                   when_row_lacks "eid"
                     (let! v := lift (episode_eid_of e) in
                      let! _ := assign_column "eid" v in
                      @_db_commit _ _ (file_obj update_while_refreshing))
                 else ret tt
             | [] => ret tt
             end
         end) s
    end.

(** [File._send_anidb_update_req], lines 565-616. *)
Definition _send_anidb_update_req (prio : bool) : M state unit :=
  let! _ := on_file (fun s =>
    if truthy (_fid (self s)) then
      (let! _ := modify (set_file_updated false) in
       request (mkCommand "FileCommand"
                  [("fid", _fid (self s)); ("fmask", fmask); ("amask", amask)]) prio) s
    else if truthy (_size (self s)) && truthy (_path (self s)) then
      (let! _ := modify (set_file_updated false) in
       let! h := ed2khash get_file_stats get_file_hash in
       request (mkCommand "FileCommand"
                  [("size", _size (self s)); ("ed2k", h); ("fmask", fmask); ("amask", amask)])
         prio) s
    else ret tt s) in
  let! _ := wait_event (fun s => _file_updated (file s)) in
  let! req := on_file (fun s =>
    if truthy (_fid (self s)) then ret (mkCommand "MyListCommand" [("fid", _fid (self s))]) s
    else
      (let! _ := (if truthy (_path (self s)) then identify else ret tt) in
       let! a := anime_aid update_while_refreshing make_anime in
       let! n := episode_episode_number update_while_refreshing make_anime make_episode
                   episode_number_of in
       ret (mkCommand "MyListCommand" [("aid", PInt a); ("epno", n)])) s) in
  let! _ := on_file (request req prio) in
  let! _ := wait_event _mylist_updated in
  modify (set_updating false).

End Collaborators.

End FileRefresh.

(** ** Guessing the anime and the episodes of a file from its path

    [File._guess_epno_from_filename] (lines 778-800) and
    [File._guess_anime_ep_from_file] (lines 728-776).  The patterns of
    [adbb.fileinfo] and the title search of [adbb.anames] are not part of
    this file and are taken as parameters; the two patterns written out in
    the method, [os.path.split] and the string methods are modelled on
    strings of ASCII characters. *)

Module Guess.

Definition is_opener (c : ascii) : bool :=
  Ascii.eqb c "{" || Ascii.eqb c "[" || Ascii.eqb c "(".

Definition is_closer (c : ascii) : bool :=
  Ascii.eqb c "]" || Ascii.eqb c "}" || Ascii.eqb c ")".

Fixpoint has_closer (s : string) : bool :=
  match s with
  | EmptyString => false
  | String c s' => is_closer c || has_closer s'
  end.

(** [re.sub(r'[{[(][^\]})]*?[})\]]', '', s)], line 754.  A match starts
    at an opening character that has a closing character somewhere after it,
    and ends at the first closing character after it (the characters in
    between are any but closing ones); matches are removed from left to
    right.  [inside] is true between the start and the end of a match. *)
Fixpoint strip_brackets (inside : bool) (s : string) : string :=
  match s with
  | EmptyString => EmptyString
  | String c s' =>
      if inside then strip_brackets (negb (is_closer c)) s'
      else if is_opener c && has_closer s' then strip_brackets true s'
      else String c (strip_brackets false s')
  end.

(** The part of [s] before the last [sep] and the part after it. *)
Fixpoint split_last (sep : ascii) (s : string) : option (string * string) :=
  match s with
  | EmptyString => None
  | String c s' =>
      match split_last sep s' with
      | Some (h, t) => Some (String c h, t)
      | None => if Ascii.eqb c sep then Some (EmptyString, s') else None
      end
  end.

(** [s.rstrip('/')]. *)
Fixpoint lstrip_slash (s : string) : string :=
  match s with
  | String c s' => if Ascii.eqb c "/" then lstrip_slash s' else s
  | EmptyString => EmptyString
  end.

Definition rstrip_slash (s : string) : string :=
  rev_string "" (lstrip_slash (rev_string "" s)).

(** [os.path.split(p)] of [posixpath]: the tail is what follows the last
    slash; the head is what precedes it, without its trailing slashes unless
    it consists of slashes only. *)
Definition os_path_split (p : string) : string * string :=
  match split_last "/" p with
  | None => (EmptyString, p)
  | Some (h, t) =>
      match rstrip_slash h with
      | EmptyString => (String.append h "/", t)
      | h' => (h', t)
      end
  end.

(** The characters that [\w] matches, among the ASCII characters. *)
Definition is_word (c : ascii) : bool :=
  let n := nat_of_ascii c in
  ((48 <=? n)%nat && (n <=? 57)%nat) || ((65 <=? n)%nat && (n <=? 90)%nat)
  || (n =? 95)%nat || ((97 <=? n)%nat && (n <=? 122)%nat).

(** [re.findall(r'[\w]+', s)], line 760: the maximal runs of word
    characters; [cur] is the run being read, last character first. *)
Fixpoint words (cur : string) (s : string) : list string :=
  match s with
  | EmptyString =>
      match cur with
      | EmptyString => []
      | _ => [rev_string "" cur]
      end
  | String c s' =>
      if is_word c then words (String c cur) s'
      else match cur with
           | EmptyString => words "" s'
           | _ => rev_string "" cur :: words "" s'
           end
  end.

(** [s.lower()], on ASCII letters. *)
Definition lower_char (c : ascii) : ascii :=
  let n := nat_of_ascii c in
  if (65 <=? n)%nat && (n <=? 90)%nat then ascii_of_nat (n + 32) else c.

Fixpoint lower (s : string) : string :=
  match s with
  | EmptyString => EmptyString
  | String c s' => String (lower_char c) (lower s')
  end.

(** A match of a pattern with three groups: [group(1)], [group(2)] and
    [group(3)], each [None] when the group took no part in the match. *)
Definition groups : Type := option string * option string * option string.

Section Collaborators.

(** [adbb.fileinfo.ep_nr_re], each pattern by its [search], and
    [adbb.fileinfo.multiep_re.findall]. *)
Variable ep_nr_re : list (string -> option groups).
Variable multiep_findall : string -> list string.

(** [adbb.anames.get_titles(name=..)], by the anime ids of the titles it
    returns, best first; the flag stands for [score_for_match=0.6]. *)
Variable get_titles : string -> bool -> list Z.

(** Lines 783-793: what each piece of one match gives, [None] for a piece
    that is not a number. *)
Definition numbers_of_match (res : groups) : exn + list (option string) :=
  match res with
  | (g1, g2, g3) =>
      match g3 with
      | None => inl TypeError
      | Some g3 =>
          Anime.map_exn
            (fun m : option string =>
               match m with
               | None => inl TypeError
               | Some m =>
                   match int_of_str m with
                   | None => inr None
                   | Some ep =>
                       match g1 with
                       | None => inl AttributeError
                       | Some g1 =>
                           if String.eqb (lower g1) "s"
                           then inr (Some (String.append "S" (str ep)))
                           else inr (Some (str ep))
                       end
                   end
               end)
            (g2 :: (Some <$> multiep_findall g3))
      end
  end.

(** [File._guess_epno_from_filename], lines 778-800: the first pattern
    that matches decides. *)
Fixpoint guess_epno (patterns : list (string -> option groups)) (filename : string)
  : exn + list string :=
  match patterns with
  | [] => inr []
  | r :: rest =>
      match r filename with
      | Some res =>
          match numbers_of_match res with
          | inl e => inl e
          | inr eps => inr (omap id eps)
          end
      | None => guess_epno rest filename
      end
  end.

Definition _guess_epno_from_filename (filename : string) : exn + list string :=
  guess_epno ep_nr_re filename.

(** Lines 754-762: the text asked of the title search when the directory
    name gave nothing; [None] stands for the [ValueError] of unpacking the
    single piece that [rsplit] returns for a name without a dot. *)
Definition title_of_filename (filename : string) : option string :=
  match split_last "." (strip_brackets false filename) with
  | None => None
  | Some (stripped, _) => Some (String.concat " " (words "" stripped))
  end.

(** The first anime of a search result, [None] when there is none or its
    id is 0. *)
Definition first_anime (series : list Z) : option Z :=
  match series with
  | aid :: _ => if truthy (PInt aid) then Some aid else None
  | [] => None
  end.

(** [File._guess_anime_ep_from_file], lines 728-776, by the value of
    [self.path]; [None] stands for the result [(None, None)]. *)
Definition _guess_anime_ep_from_file (path : pyval) : exn + option (Z * list string) :=
  if negb (truthy path) then inr None
  else
    match path with
    | PStr p =>
        let '(head, filename) := os_path_split p in
        let '(_, parent_dir) := os_path_split head in
        match _guess_epno_from_filename filename with
        | inl e => inl e
        | inr [] => inr None
        | inr episodes =>
            let anime :=
              match parent_dir with
              | EmptyString => None
              | _ => first_anime (get_titles parent_dir false)
              end in
            match anime with
            | Some aid => inr (Some (aid, episodes))
            | None =>
                match title_of_filename filename with
                | None => inl ValueError
                | Some joined =>
                    match first_anime (get_titles joined true) with
                    | Some aid => inr (Some (aid, episodes))
                    | None => inr None
                    end
                end
            end
        end
    | _ => inl TypeError
    end.

End Collaborators.

End Guess.

(** ** Vocabulary for the further properties *)

Module Digits.

(** The value of a string of decimal digits read after [acc]. *)
Fixpoint uint_value (acc : Z) (d : Decimal.uint) : Z :=
  match d with
  | Decimal.Nil => acc
  | Decimal.D0 l => uint_value (10 * acc + 0) l
  | Decimal.D1 l => uint_value (10 * acc + 1) l
  | Decimal.D2 l => uint_value (10 * acc + 2) l
  | Decimal.D3 l => uint_value (10 * acc + 3) l
  | Decimal.D4 l => uint_value (10 * acc + 4) l
  | Decimal.D5 l => uint_value (10 * acc + 5) l
  | Decimal.D6 l => uint_value (10 * acc + 6) l
  | Decimal.D7 l => uint_value (10 * acc + 7) l
  | Decimal.D8 l => uint_value (10 * acc + 8) l
  | Decimal.D9 l => uint_value (10 * acc + 9) l
  end.

(** No character of the string is one that [int()] skips. *)
Fixpoint no_space (s : string) : bool :=
  match s with
  | EmptyString => true
  | String c s' => negb (is_space c) && no_space s'
  end.

End Digits.

Module Stuck.

Import Refresh.

(** An entity whose refresh can never complete: the lock is held for a
    refresh thread that waits for the event, no request is outstanding whose
    callback could set it, and no other thread holds the lock or is about to
    send a request. *)
Record wedged (s : state) : Prop := mkWedged {
  wedged_lock : _updating s = true;
  wedged_event : _updated s = false;
  wedged_outstanding : outstanding s = 0%nat;
  wedged_callers : sum_list_with holds_lock (callers s) = 0%nat;
  wedged_refreshers : Forall (fun r => r = Wait \/ r = Finished) (refreshers s)
}.

End Stuck.

Module FileRefreshFrame.

Import FileRefresh.

(** The attributes of a file that no callback changes. *)
Definition attributes (f : File.state)
  : (pyval * pyval * pyval) * (option Z * option File.episode_obj * option (list string)) :=
  ((File._fid (File.self f), File._path (File.self f), File._size (File.self f)),
   (File._anime (File.self f), File._episode (File.self f), File._multiep (File.self f))).

(** With the lock, what the link leaves alone when it answers. *)
Definition identity (s : state)
  : bool * ((pyval * pyval * pyval)
            * (option Z * option File.episode_obj * option (list string))) :=
  (_updating s, attributes (file s)).

End FileRefreshFrame.

Module FileRefreshSteps.

Import FileRefresh.

(** The state after [self._file_updated.clear()], and after
    [self._anidb_link.request(req, callback, prio=prio)]. *)
Definition cleared (s : state) : state :=
  set_file (File.set_file_updated false (file s)) s.

Definition sent (req : File.command) (prio : bool) (s : state) : state :=
  set_file
    (File.set_link
       (File.mkLink (File.wait (File.anidb (file s)))
          (File.inflight (File.anidb (file s)) ++ [req])
          (File.rescodes (File.anidb (file s)))
          (File.events (File.anidb (file s)) ++ [File.Sent req prio]))
       (file s)) s.

End FileRefreshSteps.

Module GuessVocabulary.

Import Guess.

(** The character occurs in the string. *)
Fixpoint occurs (c : ascii) (s : string) : bool :=
  match s with
  | EmptyString => false
  | String c' s' => Ascii.eqb c' c || occurs c s'
  end.

(** No opening character of the string has a closing character after it. *)
Fixpoint no_group (s : string) : bool :=
  match s with
  | EmptyString => true
  | String c s' => negb (is_opener c && has_closer s') && no_group s'
  end.



End GuessVocabulary.

(** ** Sample entities and responses *)

Module AnimeExamples.

Import Anime.

(** A relation table in the style of the mapper's. *)
Definition relation_map : gmap string string :=
  <["1" := "sequel"]> (<["2" := "prequel"]> (<["11" := "same setting"]> ∅)).

Definition no_converters : gmap string (pyval -> exn + pyval) := ∅.

Definition fresh_session : Db.session obj := Db.mkSession [] [] [] [].

(** A cached anime 7 with the relations (1, A) and (2, B). *)
Definition cached_row : AnimeTable :=
  mkRow (Some 70) (<["aid" := PStr "7"]> ∅) 1000 [0%nat; 1%nat].

Definition cached : state :=
  mkState 7 (Some cached_row)
    (<[0%nat := mkRel (Some 70) 1 "A"]> (<[1%nat := mkRel (Some 70) 2 "B"]> ∅))
    2 fresh_session 5000 false [].

(** The refresh reports (2, B') and (3, C). *)
Definition reported : list AnimeRelationTable :=
  [mkRel None 2 "B'"; mkRel None 3 "C"].




(** A response with distinct related ids, and one without the list fields. *)
Definition well_formed : response :=
  mkResponse "230"
    [<["aid" := PStr "7"]>
       (<["related_aid_list" := PStr "2'3"]> (<["related_aid_type" := PStr "2'1"]> ∅))].

Definition no_relation_fields : response :=
  mkResponse "230" [<["aid" := PStr "7"]> (<["year" := PStr "1998"]> ∅)].

Definition callback := _db_data_callback relation_map no_converters.


End AnimeExamples.

Module EpisodeExamples.

Import Episode.

(** The cache holds episode 5 of anime 7 under its canonical number. *)
Definition episode_5 : EpisodeTable :=
  mkRow (<["eid" := PInt 501]> (<["aid" := PInt 7]> (<["epno" := PStr "5"]> ∅))) 1000.

Definition no_resolver (key : pyval) : exn + Z := inl IndexError.

(** [Episode(anime=<Anime 7>, epno=epno)] on that cache. *)
Definition construct (epno : string) : (exn + unit) * state :=
  __init__ no_resolver (AnimeObject 7) (PStr epno) PNone
    (new [episode_5] (Db.mkSession [] [] [] []) 5000).

End EpisodeExamples.

Module FileExamples.

Import File.

(** The cache knows the path with a size of 100; the file now has 200. *)
Definition old_row : FileTable :=
  mkRow 1 (<["path" := PStr "/anime/Show/Show - 05.mkv"]>
             (<["size" := PInt 100]> (<["fid" := PInt 9001]> ∅))) 1000.

Definition probe (path : pyval) : exn + (pyval * pyval) := inr (PInt 1700000000, PInt 200).

Definition never_refreshed (block : bool) : M state unit := raise Blocked.

Definition no_anime (key : pyval) : exn + Z := inl IndexError.

Definition no_episode (a : option Z) (epno eid : pyval) : exn + episode_obj := inl AniDBError.

Definition idle : link := mkLink false [] [] [].

Definition empty_session : Db.session FileTable := Db.mkSession [] [] [] [].

End FileExamples.

Module MylistExamples.

Import File.

(** A file identified from its path as episodes 1 and 2 of anime 7: the
    service knew no such file (a generic record), the refresh guessed the
    anime and the two episode numbers from the path. *)
Definition generic_row : FileTable :=
  mkRow 1
    (<["is_generic" := PBool true]>
       (<["aid" := PInt 7]>
          (<["eid" := PInt 501]>
             (<["path" := PStr "/anime/Show/Show - 01-02.mkv"]>
                (<["size" := PInt 100]> (<["ed2khash" := PStr "abc"]> ∅))))))
    4000.

Definition two_episodes : state :=
  mkState
    (mkAttrs (PStr "/anime/Show/Show - 01-02.mkv") PNone (PInt 100) (PInt 1700000000)
       (PStr "abc") (Some 7) (Some (mkEpisode (PInt 501) (PStr "1"))) (Some ["1"; "2"]))
    (Some generic_row) [generic_row] FileExamples.empty_session 5000
    (mkLink false [] ["210"; "210"] []) true.

(** A blocking refresh that brings nothing new. *)
Definition nothing_new (block : bool) : M state unit := ret tt.

Definition hash (path : pyval) : exn + pyval := inr (PStr "abc").

Definition number_of (e : episode_obj) : exn + pyval := inr (ep_number e).

Definition state_map : list (Z * string) := [(0, "unknown"); (1, "on hdd"); (2, "on cd")].

Definition remove : (exn + unit) * state :=
  remove_from_mylist nothing_new FileExamples.probe hash FileExamples.no_anime
    FileExamples.no_episode number_of two_episodes.

Definition add : (exn + unit) * state :=
  add_to_mylist nothing_new FileExamples.probe hash FileExamples.no_anime
    FileExamples.no_episode number_of state_map "on hdd" (PBool false) PNone PNone
    two_episodes.

Definition add_command (epno : string) : command :=
  mkCommand "MyListAddCommand"
    [("aid", PInt 7); ("epno", PStr epno); ("generic", PInt 1);
     ("state", PInt 1); ("viewed", PInt 0); ("source", PNone); ("other", PNone)].

End MylistExamples.

Module RefreshExamples.

Import Refresh.

(** Two threads call [update()]: the first takes the lock, the second finds
    it taken and returns, the first starts the refresh thread and returns,
    the refresh thread clears the event, sends the request and waits. *)
Definition both_returned : state :=
  mkState true false [Returned; Returned] [Wait] 1 1.

Definition lock_taken : state :=
  mkState true false [Fetch false; CallUpdate false] [] 0 0.

Definition second_returned : state :=
  mkState true false [Fetch false; Returned] [] 0 0.

Definition thread_started : state :=
  mkState true false [Returned; Returned] [Clear] 0 0.

Definition event_cleared : state :=
  mkState true false [Returned; Returned] [Request] 0 0.

End RefreshExamples.

Module RefreshRuns.

Import Refresh.

(** The run of [RefreshExamples.both_returned], continued: the service
    answers and the callback sets the event; the refresh thread wakes up and
    is about to release the lock. *)
Definition answered : state := mkState true true [Returned; Returned] [Wait] 0 1.

Definition woken : state := mkState true true [Returned; Returned] [Release] 0 1.

(** The same run when the callback raises instead. *)
Definition failed : state := mkState true false [Returned; Returned] [Wait] 0 1.

End RefreshRuns.

Module FurtherExamples.

(** An anime without related anime: both list fields are empty. *)
Definition no_relations : Anime.response :=
  Anime.mkResponse "230"
    [<["aid" := PStr "7"]>
       (<["related_aid_list" := PStr ""]> (<["related_aid_type" := PStr ""]> ∅))].

(** The cached anime of [AnimeExamples] before its first refresh. *)
Definition uncached : Anime.state := Anime.set_db_data None AnimeExamples.cached.


Definition no_episode_converters : gmap string (pyval -> exn + pyval) := ∅.


(** A probe that finds the file of [FileExamples.old_row] unchanged. *)
Definition same_size (path : pyval) : exn + (pyval * pyval) :=
  inr (PInt 1700000000, PInt 100).

Definition show_05 : pyval := PStr "/anime/Show/Show - 05.mkv".

(** A file with a path whose cached row knows its time, size and hash; the
    object itself has no hash yet. *)
Definition hashed_row : File.FileTable :=
  File.mkRow 1
    (<["path" := show_05]>
       (<["mtime" := PInt 1700000000]>
          (<["size" := PInt 100]>
             (<["ed2khash" := PStr "abc"]> (<["mylist_state" := PStr "on hdd"]> ∅)))))
    4000.

Definition unhashed : File.state :=
  File.mkState
    (File.mkAttrs show_05 PNone (PInt 100) (PInt 1700000000) PNone None None (Some []))
    (Some hashed_row) [hashed_row] FileExamples.empty_session 5000 FileExamples.idle false.

(** Hashing is not available. *)
Definition no_hash (path : pyval) : exn + pyval := inl IndexError.

Definition no_file_converters : gmap string (pyval -> exn + pyval) := ∅.


(** A normal response with an empty record, and one whose record has a
    status and an empty mylist field. *)
Definition empty_record : File.response := File.mkResponse "220" [∅].

Definition empty_mylist_state : File.response :=
  File.mkResponse "220" [<["state" := PStr "1"]> (<["mylist_state" := PStr ""]> ∅)].

(** The generic file of [MylistExamples] when the refresh has guessed its
    episodes but no episode id is known. *)
Definition guessed_row : File.FileTable :=
  File.mkRow 1
    (<["is_generic" := PBool true]> (<["aid" := PInt 7]> (<["eid" := PInt 0]> ∅))) 4000.

Definition guessed : File.state :=
  File.mkState
    (File.mkAttrs show_05 PNone (PInt 100) (PInt 1700000000) (PStr "abc") (Some 7) None
       (Some ["1"; "2"]))
    (Some guessed_row) [guessed_row] FileExamples.empty_session 5000 FileExamples.idle true.

(** A file known by its id, on a service that will refuse the next request. *)
Definition known_row : File.FileTable :=
  File.mkRow 1 (<["fid" := PInt 9001]> ∅) 4000.

Definition known : File.state :=
  File.mkState
    (File.mkAttrs PNone (PInt 9001) PNone PNone PNone None None (Some []))
    (Some known_row) [known_row] FileExamples.empty_session 5000
    (File.mkLink false [] ["320"] []) true.


(** A session whose storage engine refuses the next commit. *)
Definition refusing_session : Db.session File.FileTable :=
  Db.mkSession [] [] [Db.CommitRaises DBAPIError] [].

End FurtherExamples.

Module FileRefreshExamples.

Import FileRefresh.

(** The service knows the file and has it in the mylist. *)
Definition service (req : File.command) : File.response :=
  if String.eqb (File.name req) "FileCommand"
  then File.mkResponse "220" [<["state" := PStr "1"]> ∅]
  else File.mkResponse "221" [∅].

(** The service finds several mylist entries for the file. *)
Definition several_entries (req : File.command) : File.response :=
  if String.eqb (File.name req) "FileCommand"
  then File.mkResponse "220" [<["state" := PStr "1"]> ∅]
  else File.mkResponse "312" [].


Definition no_eid (e : File.episode_obj) : exn + pyval := inl AttributeError.

Definition no_guess (path : pyval) : exn + option (Z * list string) := inr None.

Definition no_converters : gmap string (pyval -> exn + pyval) := ∅.

(** The file 9001 of [FurtherExamples] as its refresh thread finds it, the
    first time and a later time; a file built from an anime and an episode;
    and the file with a path and no id of [FurtherExamples]. *)
Definition first_time : state := mkState FurtherExamples.known false true.

Definition later_time : state := mkState FurtherExamples.known true true.

Definition by_anime_and_episode : state :=
  mkState
    (File.mkState
       (File.mkAttrs PNone PNone PNone PNone PNone (Some 7)
          (Some (File.mkEpisode PNone (PStr "5"))) (Some []))
       None [] FileExamples.empty_session 5000 FileExamples.idle false)
    false true.


Definition refresh (answer : File.command -> File.response) : M state unit :=
  _send_anidb_update_req answer FurtherExamples.same_size FurtherExamples.no_hash
    FileExamples.no_anime FileExamples.no_episode MylistExamples.number_of no_eid
    no_converters no_converters (PStr "7ff8fef8") (PStr "00000000") no_guess false.

Definition file_request : File.command :=
  File.mkCommand "FileCommand"
    [("fid", PInt 9001); ("fmask", PStr "7ff8fef8"); ("amask", PStr "00000000")].

Definition mylist_request : File.command :=
  File.mkCommand "MyListCommand" [("fid", PInt 9001)].

End FileRefreshExamples.

Module GuessExamples.

(** A pattern in the style of [adbb.fileinfo.ep_nr_re]: a number of two
    digits after " - ", with what follows it up to the next space or dot. *)
Definition after_dash (filename : string) : option Guess.groups :=
  if String.prefix "Show - 05-06" filename then Some (Some "", Some "05", Some "-06")
  else if String.prefix "Show - 05" filename then Some (Some "", Some "05", Some "")
  else None.

Definition more_numbers (rest : string) : list string :=
  if String.eqb rest "-06" then ["06"] else [].

(** A title search that finds nothing. *)
Definition no_titles (name : string) (low : bool) : list Z := [].

End GuessExamples.

(** * Properties *)

(** ** The relation diff of [Anime._db_data_callback] *)

Section RelationDiff.

Import Anime.

Implicit Types (h : gmap nat AnimeRelationTable) (r sr : AnimeRelationTable).
Implicit Types (stored nr : list nat) (rs : list AnimeRelationTable) (p : option Z).


Lemma id_of_alter_overwrite r p l h x :
  id_of (alter (overwrite r p) l h) x = id_of h x.
Proof.
  unfold id_of. destruct (decide (l = x)) as [->|Hne].
  - rewrite lookup_alter_eq. by destruct (h !! x).
  - by rewrite lookup_alter_ne.
Qed.

Lemma matches_ext h h' a stored :
  (forall l, l ∈ stored -> id_of h' l = id_of h l) ->
  matches h' a stored = matches h a stored.
Proof.
  intros Hext. unfold matches. induction stored as [|l stored IH]; [done|].
  rewrite !filter_cons. rewrite Hext by set_solver.
  rewrite IH; [done|]. intros; apply Hext; set_solver.
Qed.

Lemma matches_cons h a l stored :
  matches h a (l :: stored) =
  if decide (id_of h l = Some a) then l :: matches h a stored else matches h a stored.
Proof. unfold matches. by rewrite filter_cons. Qed.

Lemma insert_overwrite_alter r p l sr h :
  h !! l = Some sr -> <[l:=overwrite r p sr]> h = alter (overwrite r p) l h.
Proof.
  intros Hl. apply map_eq. intros x. destruct (decide (l = x)) as [->|Hx].
  - by rewrite lookup_insert_eq, lookup_alter_eq, Hl.
  - by rewrite lookup_insert_ne, lookup_alter_ne.
Qed.

Lemma match_stored_spec r p stored : forall h found nr,
  match_stored r p stored h found nr =
  (overwrite_all r p (matches h (related_aid r) stored) h,
   found || negb (bool_decide (matches h (related_aid r) stored = [])),
   nr ++ matches h (related_aid r) stored).
Proof.
  induction stored as [|l stored IH]; intros h found nr; simpl.
  - by rewrite orb_false_r, app_nil_r.
  - rewrite matches_cons.
    destruct (h !! l) as [sr|] eqn:Hl.
    + destruct (Z.eqb_spec (related_aid r) (related_aid sr)) as [Heq|Hne].
      * rewrite decide_True by (unfold id_of; rewrite Hl; simpl; congruence).
        rewrite IH, <- app_assoc. simpl.
        rewrite (insert_overwrite_alter r p l sr h Hl).
        rewrite (matches_ext h (alter (overwrite r p) l h))
          by (intros; apply id_of_alter_overwrite).
        by rewrite orb_true_r.
      * rewrite decide_False by (unfold id_of; rewrite Hl; simpl; congruence).
        apply IH.
    + rewrite decide_False by (unfold id_of; rewrite Hl; done).
      apply IH.
Qed.

Lemma lookup_overwrite_all r p ls h x :
  overwrite_all r p ls h !! x =
  if decide (x ∈ ls) then overwrite r p <$> h !! x else h !! x.
Proof.
  revert h. induction ls as [|l ls IH]; intros h.
  - destruct (decide (x ∈ [])) as [Hin|_]; [set_solver | done].
  - change (overwrite_all r p (l :: ls) h)
      with (overwrite_all r p ls (alter (overwrite r p) l h)).
    rewrite IH. destruct (decide (l = x)) as [->|Hne].
    + rewrite lookup_alter_eq.
      destruct (decide (x ∈ x :: ls)) as [_|Hn]; [|set_solver].
      destruct (decide (x ∈ ls)); [|done]. by destruct (h !! x).
    + rewrite lookup_alter_ne by done.
      destruct (decide (x ∈ ls)) as [Hin|Hout], (decide (x ∈ l :: ls)) as [Hin'|Hout'];
        try done.
      * exfalso. apply Hout'. by right.
      * exfalso. apply elem_of_cons in Hin' as [->|Hin']; [by apply Hne | by apply Hout].
Qed.

Lemma id_of_overwrite_all r p ls h x :
  id_of (overwrite_all r p ls h) x = id_of h x.
Proof.
  unfold id_of. rewrite lookup_overwrite_all.
  destruct (decide (x ∈ ls)); [|done]. by destruct (h !! x).
Qed.


Lemma reconcile_cons r rs p stored h n nr :
  reconcile (r :: rs) p stored h n nr =
  if bool_decide (matches h (related_aid r) stored = [])
  then reconcile rs p stored (<[n := mkRel p (related_aid r) (relation_type r)]> h)
         (S n) (nr ++ [n])
  else reconcile rs p stored (overwrite_all r p (matches h (related_aid r) stored) h)
         n (nr ++ matches h (related_aid r) stored).
Proof.
  cbn [reconcile]. rewrite match_stored_spec. cbn [orb].
  destruct (bool_decide_reflect (matches h (related_aid r) stored = [])) as [->|Hne];
    cbn [negb]; [|done].
  by rewrite app_nil_r.
Qed.

Lemma blocks_ext h h' stored rs n :
  (forall l, l ∈ stored -> id_of h' l = id_of h l) ->
  blocks h' stored rs n = blocks h stored rs n.
Proof.
  intros Hext. revert n. induction rs as [|r rs IH]; intros n; [done|].
  cbn [blocks]. rewrite (matches_ext h h') by done.
  by rewrite !IH.
Qed.

Lemma id_of_insert_fresh h stored (n : nat) r l :
  (forall x, x ∈ stored -> (x < n)%nat) -> l ∈ stored ->
  id_of (<[n := r]> h) l = id_of h l.
Proof.
  intros Hlt Hl. unfold id_of. rewrite lookup_insert_ne; [done|].
  specialize (Hlt l Hl). lia.
Qed.

Lemma reconcile_new_relations rs p stored : forall h n nr,
  (forall x, x ∈ stored -> (x < n)%nat) ->
  (reconcile rs p stored h n nr).2 = nr ++ concat ((blocks h stored rs n).*2).
Proof.
  induction rs as [|r rs IH]; intros h n nr Hlt.
  - cbn. by rewrite app_nil_r.
  - rewrite reconcile_cons. cbn [blocks].
    destruct (bool_decide (matches h (related_aid r) stored = [])).
    + rewrite IH by (intros x Hx; specialize (Hlt x Hx); lia).
      rewrite (blocks_ext h) by (intros; by eapply id_of_insert_fresh).
      cbn. by rewrite <- app_assoc.
    + rewrite IH by done.
      rewrite (blocks_ext h) by (intros; apply id_of_overwrite_all).
      cbn. by rewrite <- app_assoc.
Qed.

Lemma matches_elem h a stored l :
  l ∈ matches h a stored <-> l ∈ stored /\ id_of h l = Some a.
Proof. unfold matches. rewrite list_elem_of_filter. tauto. Qed.

Lemma overwrite_step r p stored h l :
  l ∈ stored ->
  (if decide (l ∈ matches h (related_aid r) stored)
   then overwrite r p <$> h !! l else h !! l) =
  (fun o => if bool_decide (related_aid r = related_aid o)
            then overwrite r p o else o) <$> h !! l.
Proof.
  intros Hl. destruct (decide (l ∈ matches h (related_aid r) stored)) as [Hin|Hout].
  - apply matches_elem in Hin as [_ Hid]. unfold id_of in Hid.
    destruct (h !! l) as [sr|]; [|done]. cbn in *.
    rewrite bool_decide_eq_true_2; [done | congruence].
  - rewrite matches_elem in Hout. unfold id_of in Hout.
    destruct (h !! l) as [sr|]; [|done]. cbn in *.
    rewrite bool_decide_eq_false_2; [done|]. intros Heq. apply Hout. split; [done|].
    by rewrite Heq.
Qed.

Lemma reconcile_lookup_stored rs p stored : forall h n nr l,
  (forall x, x ∈ stored -> (x < n)%nat) -> l ∈ stored ->
  (reconcile rs p stored h n nr).1.1 !! l = settle p rs <$> h !! l.
Proof.
  induction rs as [|r rs IH]; intros h n nr l Hlt Hl.
  - cbn. by destruct (h !! l).
  - rewrite reconcile_cons.
    assert (Hstep : forall h0 : gmap nat AnimeRelationTable,
      settle p (r :: rs) <$> h0 !! l =
      settle p rs <$> ((fun o => if bool_decide (related_aid r = related_aid o)
                                 then overwrite r p o else o) <$> h0 !! l)).
    { intros h0. by destruct (h0 !! l). }
    rewrite Hstep, <- (overwrite_step r p stored h l Hl).
    destruct (bool_decide_reflect (matches h (related_aid r) stored = [])) as [Hnil|Hne].
    + rewrite IH by (try done; intros x Hx; specialize (Hlt x Hx); lia).
      rewrite lookup_insert_ne by (specialize (Hlt l Hl); lia).
      rewrite Hnil. destruct (decide (l ∈ [])) as [Hin|_]; [|done].
      by apply elem_of_nil in Hin.
    + rewrite IH by done. by rewrite lookup_overwrite_all.
Qed.

Lemma reconcile_lookup_other rs p stored : forall h n nr (l : nat),
  (l < n)%nat -> l ∉ stored ->
  (reconcile rs p stored h n nr).1.1 !! l = h !! l.
Proof.
  induction rs as [|r rs IH]; intros h n nr l Hl Hout; [done|].
  rewrite reconcile_cons.
  destruct (bool_decide (matches h (related_aid r) stored = [])).
  - rewrite IH by (try done; lia). rewrite lookup_insert_ne; [done | lia].
  - rewrite IH by done. rewrite lookup_overwrite_all.
    rewrite decide_False; [done|]. rewrite matches_elem. tauto.
Qed.

Lemma reconcile_next rs p stored : forall h n nr,
  (n <= (reconcile rs p stored h n nr).1.2)%nat.
Proof.
  induction rs as [|r rs IH]; intros h n nr; [done|].
  rewrite reconcile_cons.
  destruct (bool_decide (matches h (related_aid r) stored = [])).
  - specialize (IH (<[n:=mkRel p (related_aid r) (relation_type r)]> h) (S n) (nr ++ [n])).
    lia.
  - apply IH.
Qed.

Lemma blocks_fst h stored rs n : (blocks h stored rs n).*1 = rs.
Proof.
  revert n. induction rs as [|r rs IH]; intros n; [done|].
  cbn [blocks]. destruct (bool_decide (matches h (related_aid r) stored = []));
    cbn; by rewrite IH.
Qed.

Lemma blocks_matched h stored rs : forall n r bl,
  (r, bl) ∈ blocks h stored rs n ->
  matches h (related_aid r) stored <> [] ->
  bl = matches h (related_aid r) stored.
Proof.
  induction rs as [|r0 rs IH]; intros n r bl Hin Hne.
  - by apply elem_of_nil in Hin.
  - cbn [blocks] in Hin.
    destruct (bool_decide_reflect (matches h (related_aid r0) stored = [])) as [Hnil|Hne0];
      apply elem_of_cons in Hin as [Heq|Hin]; try (by eapply IH).
    + inversion Heq; subst. done.
    + by inversion Heq; subst.
Qed.

(** A response row without a stored match gets one fresh object, which
    carries the row's related id and type. *)
Lemma reconcile_lookup_fresh rs p stored : forall h n nr r bl,
  (forall x, x ∈ stored -> (x < n)%nat) ->
  (r, bl) ∈ blocks h stored rs n ->
  matches h (related_aid r) stored = [] ->
  exists l : nat, bl = [l] /\ (n <= l)%nat /\
    (l < (reconcile rs p stored h n nr).1.2)%nat /\
    (reconcile rs p stored h n nr).1.1 !! l
      = Some (mkRel p (related_aid r) (relation_type r)).
Proof.
  induction rs as [|r0 rs IH]; intros h n nr r bl Hlt Hin Hnil.
  - by apply elem_of_nil in Hin.
  - rewrite reconcile_cons. cbn [blocks] in Hin.
    destruct (bool_decide_reflect (matches h (related_aid r0) stored = [])) as [Hnil0|Hne0];
      apply elem_of_cons in Hin as [Heq|Hin].
    + inversion Heq; subst. exists n. split; [done|]. split; [lia|]. split.
      * pose proof (reconcile_next rs p stored
          (<[n:=mkRel p (related_aid r0) (relation_type r0)]> h) (S n) (nr ++ [n])). lia.
      * rewrite reconcile_lookup_other; [by rewrite lookup_insert_eq | lia |].
        intros Hn. specialize (Hlt n Hn). lia.
    + rewrite <- (blocks_ext _ (<[n:=mkRel p (related_aid r0) (relation_type r0)]> h)) in Hin
        by (intros; by eapply id_of_insert_fresh).
      destruct (IH (<[n:=mkRel p (related_aid r0) (relation_type r0)]> h) (S n) (nr ++ [n]) r bl)
        as (l & ? & ? & ? & ?); try done.
      * intros x Hx. specialize (Hlt x Hx). lia.
      * rewrite (matches_ext h); [done|]. intros; by eapply id_of_insert_fresh.
      * exists l. repeat split; try done. lia.
    + inversion Heq; subst. done.
    + rewrite <- (blocks_ext _ (overwrite_all r0 p (matches h (related_aid r0) stored) h)) in Hin
        by (intros; apply id_of_overwrite_all).
      apply IH; try done.
      rewrite (matches_ext h); [done|]. intros; apply id_of_overwrite_all.
Qed.

Lemma blocks_lookup h stored rs n r :
  r ∈ rs -> exists bl, (r, bl) ∈ blocks h stored rs n.
Proof.
  intros Hr. rewrite <- (blocks_fst h stored rs n) in Hr.
  apply list_elem_of_fmap in Hr as ([r' bl] & -> & Hin). by exists bl.
Qed.

Lemma blocks_elem h stored rs : forall n r bl,
  (r, bl) ∈ blocks h stored rs n ->
  r ∈ rs /\
  (bl = matches h (related_aid r) stored /\ bl <> [] \/
   matches h (related_aid r) stored = [] /\ exists l : nat, bl = [l] /\ (n <= l)%nat).
Proof.
  induction rs as [|r0 rs IH]; intros n r bl Hin.
  - by apply elem_of_nil in Hin.
  - cbn [blocks] in Hin.
    destruct (bool_decide_reflect (matches h (related_aid r0) stored = [])) as [Hnil|Hne];
      apply elem_of_cons in Hin as [Heq|Hin].
    + inversion Heq; subst. split; [left|]. right. split; [done|]. by exists n.
    + apply IH in Hin as [Hr Hcase]. split; [by right|].
      destruct Hcase as [?|(? & l & ? & ?)]; [by left|].
      right. split; [done|]. exists l. split; [done | lia].
    + inversion Heq; subst. split; [left|]. by left.
    + apply IH in Hin as [Hr Hcase]. split; [by right | done].
Qed.

Lemma settle_spec p rs : forall sr,
  settle p rs sr =
  match last (filter (fun r => related_aid r = related_aid sr) rs) with
  | Some r => overwrite r p sr
  | None => sr
  end.
Proof.
  induction rs as [|r rs IH]; intros sr; [done|].
  change (settle p (r :: rs) sr)
    with (settle p rs (if bool_decide (related_aid r = related_aid sr)
                       then overwrite r p sr else sr)).
  rewrite filter_cons.
  destruct (bool_decide_reflect (related_aid r = related_aid sr)) as [Heq|Hne].
  - rewrite decide_True by done. rewrite IH, last_cons. cbn [overwrite related_aid].
    by destruct (last (filter (fun r0 => related_aid r0 = related_aid sr) rs)).
  - rewrite decide_False by done. apply IH.
Qed.

Lemma matches_nil h a stored :
  (forall l sr, l ∈ stored -> h !! l = Some sr -> related_aid sr <> a) ->
  matches h a stored = [].
Proof.
  intros Hno. destruct (matches h a stored) as [|l ms] eqn:Hm; [done|].
  assert (Hl : l ∈ matches h a stored) by (rewrite Hm; left).
  apply matches_elem in Hl as [Hl Hid]. unfold id_of in Hid.
  destruct (h !! l) as [sr|] eqn:Hsr; [|done].
  exfalso. apply (Hno l sr Hl Hsr). by inversion Hid.
Qed.

Lemma pending_deletes (ls : list nat) : forall d : Db.session obj,
  Db.pending (foldl (fun d l => Db.delete (Relation l) d) d ls) =
  Db.pending d ++ ((fun l => Db.Delete (Relation l)) <$> ls).
Proof.
  induction ls as [|l ls IH]; intros d; cbn [foldl].
  - by rewrite app_nil_r.
  - rewrite IH. cbn. by rewrite <- app_assoc.
Qed.

Lemma merge_existing rels ainfo s row :
  db_data s = Some row ->
  merge rels ainfo s =
  let rc := reconcile rels (pk row) (relations row) (heap s) (next s) [] in
  set_db_data
    (Some (mkRow (pk row) (Db.row_update ainfo (fields row)) (clock s) rc.2))
    (set_session
       (foldl (fun d l => Db.delete (Relation l) d) (db s) (dropped (relations row) rc.2))
       (set_heap rc.1.1 rc.1.2 s)).
Proof.
  intros Hrow. unfold merge. rewrite Hrow.
  by destruct (reconcile rels (pk row) (relations row) (heap s) (next s) []) as [[h n] nr].
Qed.

Lemma elem_of_new_relations h stored rs n (l : nat) :
  l ∈ concat ((blocks h stored rs n).*2) <->
  exists r bl, (r, bl) ∈ blocks h stored rs n /\ l ∈ bl.
Proof.
  generalize (blocks h stored rs n). intros bs.
  induction bs as [|[r0 bl0] bs IH]; cbn.
  - split; [intros Hl; by apply elem_of_nil in Hl|].
    intros (r & bl & Hin & _). by apply elem_of_nil in Hin.
  - rewrite elem_of_app, IH. split.
    + intros [Hl|(r & bl & Hin & Hl)].
      * exists r0, bl0. split; [left | done].
      * exists r, bl. split; [by right | done].
    + intros (r & bl & Hin & Hl). apply elem_of_cons in Hin as [Heq|Hin].
      * inversion Heq; subst. by left.
      * right. by exists r, bl.
Qed.

(** C1: for every merge of a parsed response into an existing cache row, the
    relations are reconciled by related id.  A stored relation whose related
    id is reported stays in the relation list as the same object, is not
    handed to the session for deletion, and has the type of the (last)
    reported relation with that id; a reported relation whose related id is
    not stored is a fresh object of the new list with the reported id and
    type; a stored relation whose related id is not reported leaves the list
    and is handed to the session for deletion; and the new list holds nothing
    else. *)
Theorem merge_relation_three_way_diff rels ainfo s row :
  db_data s = Some row ->
  (forall l, l ∈ relations row -> (l < next s)%nat) ->
  exists row' del,
    db_data (merge rels ainfo s) = Some row' /\
    Db.pending (db (merge rels ainfo s)) =
      Db.pending (db s) ++ ((fun l => Db.Delete (Relation l)) <$> del) /\
    (forall l sr, l ∈ relations row -> heap s !! l = Some sr ->
       related_aid sr ∈ (related_aid <$> rels) ->
       l ∈ relations row' /\ (l ∉ del) /\
       exists r, last (filter (fun r => related_aid r = related_aid sr) rels) = Some r /\
         heap (merge rels ainfo s) !! l
           = Some (mkRel (pk row) (related_aid sr) (relation_type r))) /\
    (forall r, r ∈ rels ->
       (forall l sr, l ∈ relations row -> heap s !! l = Some sr ->
          related_aid sr <> related_aid r) ->
       exists l : nat, (next s <= l)%nat /\ l ∈ relations row' /\
         heap (merge rels ainfo s) !! l
           = Some (mkRel (pk row) (related_aid r) (relation_type r))) /\
    (forall l sr, l ∈ relations row -> heap s !! l = Some sr ->
       related_aid sr ∉ (related_aid <$> rels) ->
       (l ∉ relations row') /\ l ∈ del /\ heap (merge rels ainfo s) !! l = Some sr) /\
    (forall l, l ∈ relations row' ->
       (l ∈ relations row /\
        exists sr, heap s !! l = Some sr /\ related_aid sr ∈ (related_aid <$> rels)) \/
       ((next s <= l)%nat /\
        exists r, r ∈ rels /\
          heap (merge rels ainfo s) !! l
            = Some (mkRel (pk row) (related_aid r) (relation_type r)))).
Proof.
  intros Hrow Hlt. rewrite (merge_existing rels ainfo s row Hrow). cbn zeta.
  set (rc := reconcile rels (pk row) (relations row) (heap s) (next s) []).
  assert (Hnr : rc.2 = concat ((blocks (heap s) (relations row) rels (next s)).*2))
    by (unfold rc; by rewrite reconcile_new_relations).
  eexists _, (dropped (relations row) rc.2). cbn.
  split; [reflexivity|]. split; [apply pending_deletes|].
  split; [|split; [|split]].
  - intros l sr Hl Hsr Hid.
    apply list_elem_of_fmap in Hid as (r & Hidr & Hr).
    destruct (blocks_lookup (heap s) (relations row) rels (next s) r Hr) as [bl Hbl].
    assert (Hm : l ∈ matches (heap s) (related_aid r) (relations row)).
    { apply matches_elem. split; [done|]. unfold id_of. rewrite Hsr. cbn. by rewrite Hidr. }
    assert (Hin : l ∈ rc.2).
    { rewrite Hnr. apply elem_of_new_relations. exists r, bl. split; [done|].
      rewrite (blocks_matched _ _ _ _ _ _ Hbl); [done|].
      intros Hnil. rewrite Hnil in Hm. by apply elem_of_nil in Hm. }
    split; [done|]. split.
    + unfold dropped. rewrite list_elem_of_filter. tauto.
    + unfold rc. rewrite reconcile_lookup_stored, Hsr by done. cbn.
      rewrite settle_spec.
      destruct (last (filter (fun r0 => related_aid r0 = related_aid sr) rels)) as [r'|] eqn:Hlast.
      * exists r'. done.
      * apply last_None in Hlast.
        assert (Hrf : r ∈ filter (fun r0 => related_aid r0 = related_aid sr) rels)
          by (apply list_elem_of_filter; split; [by symmetry | done]).
        rewrite Hlast in Hrf. by apply elem_of_nil in Hrf.
  - intros r Hr Hno.
    destruct (blocks_lookup (heap s) (relations row) rels (next s) r Hr) as [bl Hbl].
    destruct (reconcile_lookup_fresh rels (pk row) (relations row) (heap s) (next s) [] r bl)
      as (l & -> & Hge & _ & Hlook); [done | done | by apply matches_nil |].
    exists l. split; [done|]. split; [|done].
    rewrite Hnr. apply elem_of_new_relations. exists r, [l]. split; [done | left].
  - intros l sr Hl Hsr Hid.
    assert (Hout : l ∉ rc.2).
    { rewrite Hnr, elem_of_new_relations. intros (r & bl & Hbl & Hin).
      apply blocks_elem in Hbl as [Hr [[-> _]|(_ & l' & -> & Hge)]].
      - apply matches_elem in Hin as [_ Hidl]. unfold id_of in Hidl.
        rewrite Hsr in Hidl. apply Hid. apply list_elem_of_fmap. exists r.
        split; [|done]. by inversion Hidl.
      - apply list_elem_of_singleton in Hin as ->. specialize (Hlt l' Hl). lia. }
    split; [done|]. split.
    + unfold dropped. rewrite list_elem_of_filter. tauto.
    + unfold rc. rewrite reconcile_lookup_stored, Hsr by done. cbn.
      rewrite settle_spec.
      destruct (last (filter (fun r0 => related_aid r0 = related_aid sr) rels)) as [r'|] eqn:Hlast;
        [|done].
      apply last_Some_elem_of, list_elem_of_filter in Hlast as [Heq Hr'].
      exfalso. apply Hid. apply list_elem_of_fmap. by exists r'.
  - intros l Hl. rewrite Hnr in Hl. apply elem_of_new_relations in Hl as (r & bl & Hbl & Hin).
    pose proof (blocks_elem _ _ _ _ _ _ Hbl) as [Hr [[-> _]|(Hnil & l' & -> & Hge)]].
    + left. apply matches_elem in Hin as [Hst Hidl]. split; [done|].
      unfold id_of in Hidl. destruct (heap s !! l) as [sr|]; [|done].
      exists sr. split; [done|]. apply list_elem_of_fmap. exists r.
      split; [|done]. by inversion Hidl.
    + right. apply list_elem_of_singleton in Hin as ->.
      destruct (reconcile_lookup_fresh rels (pk row) (relations row) (heap s) (next s) [] r [l'])
        as (l & Heq & _ & _ & Hlook); [done | done | done |].
      inversion Heq; subst l. split; [done|]. by exists r.
Qed.

Lemma filter_no_key (rs : list AnimeRelationTable) (a : Z) :
  a ∉ (related_aid <$> rs) -> filter (fun r' => related_aid r' = a) rs = [].
Proof.
  induction rs as [|r0 rs IH]; intros Ha; [done|].
  rewrite filter_cons, decide_False by (intros Heq; apply Ha; cbn; rewrite Heq; left).
  apply IH. intros Hin. apply Ha. cbn. by right.
Qed.

Lemma filter_unique_key (rs : list AnimeRelationTable) r :
  NoDup (related_aid <$> rs) -> r ∈ rs ->
  filter (fun r' => related_aid r' = related_aid r) rs = [r].
Proof.
  induction rs as [|r0 rs IH]; intros Hnd Hr.
  - by apply elem_of_nil in Hr.
  - cbn in Hnd. apply NoDup_cons in Hnd as [Hfresh Hnd]. rewrite filter_cons.
    apply elem_of_cons in Hr as [->|Hr].
    + rewrite decide_True by done. by rewrite filter_no_key.
    + rewrite decide_False.
      * by apply IH.
      * intros Heq. apply Hfresh. rewrite Heq. by apply list_elem_of_fmap_2.
Qed.







(** When the reported related ids are pairwise distinct, every object of a
    block ends up with exactly the reported id and type of its row. *)
Lemma block_contents rs p stored h n nr r bl :
  NoDup (related_aid <$> rs) ->
  (forall x, x ∈ stored -> (x < n)%nat) ->
  (r, bl) ∈ blocks h stored rs n ->
  bl <> [] /\
  forall l, l ∈ bl ->
    (l < (reconcile rs p stored h n nr).1.2)%nat /\
    (reconcile rs p stored h n nr).1.1 !! l
      = Some (mkRel p (related_aid r) (relation_type r)).
Proof.
  intros Hnd Hlt Hbl.
  pose proof (blocks_elem _ _ _ _ _ _ Hbl) as [Hr [[-> Hne]|(Hnil & l' & -> & Hge)]].
  - split; [done|]. intros l Hl. apply matches_elem in Hl as [Hst Hid].
    split.
    + pose proof (reconcile_next rs p stored h n nr). specialize (Hlt l Hst). lia.
    + rewrite reconcile_lookup_stored by done.
      unfold id_of in Hid. destruct (h !! l) as [sr|]; [|done].
      cbn in *. inversion Hid as [Hid']. rewrite settle_spec, Hid'.
      rewrite filter_unique_key by done. cbn. unfold overwrite. by rewrite Hid'.
  - split; [done|]. intros l Hl. apply list_elem_of_singleton in Hl as ->.
    destruct (reconcile_lookup_fresh rs p stored h n nr r [l'])
      as (l & Heq & _ & Hb & Hlook); [done | done | done |].
    by inversion Heq; subst l.
Qed.




End RelationDiff.

(** ** [Anime._db_data_callback] as a whole *)

Section AnimeCallback.

Import Anime.

Variable relmap : gmap string string.
Variable convs : gmap string (pyval -> exn + pyval).

Lemma callback_unfold res ainfo others rels rest ainfo' s :
  datalines res = ainfo :: others ->
  parse_relations relmap ainfo = inr (rels, rest) ->
  convert convs rest = inr ainfo' ->
  _db_data_callback relmap convs res s =
  match _db_commit (merge rels ainfo' s) with
  | (inr _, sc) => (inr tt, set_updated true sc)
  | (inl e, sc) => (inl e, sc)
  end.
Proof.
  intros Hd Hp Hc. unfold _db_data_callback, bind, lift, modify.
  rewrite Hd, Hp. cbn [fst snd]. rewrite Hc.
  by destruct (_db_commit (merge rels ainfo' s)) as [[e|[]] sc].
Qed.

(** The commit helper touches the session only. *)
Lemma db_commit_frame (s s' : state) r :
  _db_commit s = (r, s') ->
  db_data s' = db_data s /\ heap s' = heap s /\ next s' = next s /\
  clock s' = clock s /\ _updated s' = _updated s.
Proof.
  unfold _db_commit, try_except. cbn.
  destruct (Db.commit (db s)) as [[e|[]] d]; cbn.
  - destruct (decide (e = DBAPIError)); intros Heq; by inversion Heq; subst.
  - intros Heq; by inversion Heq; subst.
Qed.




(** A response either fails before the merge, whatever the state, or parses. *)
Lemma callback_cases res :
  (exists e, forall s, _db_data_callback relmap convs res s = (inl e, s)) \/
  (exists ainfo others rels rest ainfo',
     datalines res = ainfo :: others /\
     parse_relations relmap ainfo = inr (rels, rest) /\
     convert convs rest = inr ainfo').
Proof.
  unfold _db_data_callback, bind, lift.
  destruct (datalines res) as [|ainfo others]; [left; by exists IndexError|].
  destruct (parse_relations relmap ainfo) as [e|[rels rest]] eqn:Hp; [left; by exists e|].
  cbn [fst snd].
  destruct (convert convs rest) as [e|ainfo'] eqn:Hc; [left; by exists e|].
  right. by exists ainfo, others, rels, rest, ainfo'.
Qed.



End AnimeCallback.

(** ** Concrete runs of the anime merge *)


Example reported_diff_view :
  Anime.relation_view (Anime.merge AnimeExamples.reported ∅ AnimeExamples.cached)
  = [(2, "B'"); (3, "C")].
Proof. vm_compute. reflexivity. Qed.

Example reported_diff_objects :
  let s' := Anime.merge AnimeExamples.reported ∅ AnimeExamples.cached in
  Anime.relations <$> Anime.db_data s' = Some [1%nat; 2%nat] /\
  Db.pending (Anime.db s') = [Db.Delete (Anime.Relation 0)].
Proof. vm_compute. split; reflexivity. Qed.

Lemma merge_relation_three_way_diff_witness :
  Anime.relation_view (Anime.merge AnimeExamples.reported ∅ AnimeExamples.cached)
    = [(2, "B'"); (3, "C")] /\
  exists row' del,
    Anime.db_data (Anime.merge AnimeExamples.reported ∅ AnimeExamples.cached) = Some row' /\
    Db.pending (Anime.db (Anime.merge AnimeExamples.reported ∅ AnimeExamples.cached))
      = (fun l => Db.Delete (Anime.Relation l)) <$> del.
Proof.
  split; [vm_compute; reflexivity|].
  destruct (merge_relation_three_way_diff AnimeExamples.reported ∅
              AnimeExamples.cached AnimeExamples.cached_row)
    as (row' & del & Hrow & Hpending & _).
  - reflexivity.
  - intros l Hl. cbn in Hl.
    apply elem_of_cons in Hl as [->|Hl]; [cbn; lia|].
    apply list_elem_of_singleton in Hl as ->. cbn; lia.
  - exists row', del. split; [exact Hrow | exact Hpending].
Defined.



(** C10: when the first record of an anime response lacks the related id list
    or the related type list, the callback raises [TypeError] and leaves the
    whole state as it was: no cache row is updated or created, nothing is
    handed to the session, and the completion event [_updated] is not set. *)
Theorem callback_without_relation_lists relmap convs res ainfo others s :
  Anime.datalines res = ainfo :: others ->
  ainfo !! "related_aid_list" = None \/ ainfo !! "related_aid_type" = None ->
  Anime._db_data_callback relmap convs res s = (inl TypeError, s).
Proof.
  intros Hd Hmissing.
  unfold Anime._db_data_callback, bind, lift. rewrite Hd.
  unfold Anime.parse_relations.
  destruct Hmissing as [-> | ->]; [done|].
  by destruct (ainfo !! "related_aid_list").
Qed.

Lemma callback_without_relation_lists_witness :
  AnimeExamples.callback AnimeExamples.no_relation_fields AnimeExamples.cached
  = (inl TypeError, AnimeExamples.cached) /\
  Anime._updated AnimeExamples.cached = false.
Proof.
  split; [|reflexivity].
  apply (callback_without_relation_lists AnimeExamples.relation_map
           AnimeExamples.no_converters AnimeExamples.no_relation_fields
           (<["aid" := PStr "7"]> (<["year" := PStr "1998"]> ∅)) []).
  - reflexivity.
  - left. vm_compute. reflexivity.
Defined.

(** ** The commit helper *)

(** Whatever the entity, a [DBAPIError] of the storage engine does not leave
    the commit helper. *)
Lemma db_commit_returns {St T} `{AniDBObj St T} (s : St) rest :
  Db.storage (_db s) = Db.CommitRaises DBAPIError :: rest ->
  exists s', _db_commit s = (inr tt, s').
Proof.
  intros Hst. unfold _db_commit, try_except, Db.commit. rewrite Hst.
  rewrite decide_True by done. eauto.
Qed.

Lemma merge_storage rels ainfo (s : Anime.state) :
  Db.storage (Anime.db (Anime.merge rels ainfo s)) = Db.storage (Anime.db s) /\
  Db.durable (Anime.db (Anime.merge rels ainfo s)) = Db.durable (Anime.db s) /\
  Db.log (Anime.db (Anime.merge rels ainfo s)) = Db.log (Anime.db s).
Proof.
  unfold Anime.merge. destruct (Anime.db_data s) as [row|].
  - destruct (Anime.reconcile _ _ _ _ _ _) as [[h n] nr]. cbn.
    generalize (Anime.dropped (Anime.relations row) nr). intros ls.
    generalize (Anime.db s). induction ls as [|l ls IH]; intros d; [done|].
    cbn [foldl]. destruct (IH (Db.delete (Anime.Relation l) d)) as (-> & -> & ->). done.
  - destruct (Anime.allocate _ _ _) as [[h n] ls]. done.
Qed.



(** ** The staleness policy *)

(** C4: [update_if_old] with no cached record runs [update(block=True)],
    whatever the age; with a cached record whose stamp is at or before now
    minus the age it runs [update(block)]; with a younger record it does
    nothing. *)
Theorem update_if_old_policy {St T} `{AniDBObj St T} (age : Z) (block : bool) (s : St) :
  (db_stamp s = None -> update_if_old age block s = update true s) /\
  (forall stamp, db_stamp s = Some stamp -> stamp <= now s - age ->
     update_if_old age block s = update block s) /\
  (forall stamp, db_stamp s = Some stamp -> now s - age < stamp ->
     update_if_old age block s = (inr tt, s)).
Proof.
  unfold update_if_old. repeat split.
  - intros ->. done.
  - intros stamp -> Hold. destruct (Z.leb_spec stamp (now s - age)); [done | lia].
  - intros stamp -> Hyoung. destruct (Z.leb_spec stamp (now s - age)); [lia | done].
Qed.

Lemma update_if_old_policy_witness :
  (* no cached record, an age of zero, non-blocking: a blocking refresh *)
  Anime.update_calls
    (update_if_old 0 false (Anime.set_db_data None AnimeExamples.cached)).2 = [true] /\
  (* stamp 1000, now 5000: stale for an age of 4000, young for 4001 *)
  Anime.update_calls (update_if_old 4000 false AnimeExamples.cached).2 = [false] /\
  Anime.update_calls (update_if_old 4001 false AnimeExamples.cached).2 = [].
Proof.
  destruct (update_if_old_policy 0 false (Anime.set_db_data None AnimeExamples.cached))
    as (Hnone & _ & _).
  destruct (update_if_old_policy 4000 false AnimeExamples.cached) as (_ & Hstale & _).
  destruct (update_if_old_policy 4001 false AnimeExamples.cached) as (_ & _ & Hyoung).
  rewrite (Hnone eq_refl).
  rewrite (Hstale 1000 eq_refl ltac:(cbn; lia)).
  rewrite (Hyoung 1000 eq_refl ltac:(cbn; lia)).
  repeat split.
Defined.

(** ** Episode numbers *)


(** The merge callback does normalize an episode number that parses. *)
Lemma callback_normalizes_epno convs (raw : string) n :
  int_of_str raw = Some n ->
  Episode.convert_field convs ("epno", PStr raw) = inr ("epno", PStr (str n)).
Proof. intros Hn. unfold Episode.convert_field. cbn. by rewrite Hn. Qed.

Lemma callback_keeps_other_epno convs (raw : string) :
  int_of_str raw = None ->
  Episode.convert_field convs ("epno", PStr raw) = inr ("epno", PStr raw).
Proof. intros Hn. unfold Episode.convert_field. cbn. by rewrite Hn. Qed.

Lemma get_db_data_keeps_epno resolve (s s' : Episode.state) r :
  truthy (Episode._episode_number s) = true ->
  Episode._get_db_data resolve s = (r, s') ->
  Episode._episode_number s' = Episode._episode_number s.
Proof.
  intros Hep. unfold Episode._get_db_data, bind.
  destruct (truthy (Episode._eid s)).
  - cbn. destruct (filter _ (Episode.table s)); cbn; intros Heq; by inversion Heq.
  - unfold Episode.anime, Episode.episode_number, bind, gets, ret.
    destruct (Episode._anime s) as [a|] eqn:Ha.
    + cbn. rewrite Hep. cbn.
      destruct (filter _ (Episode.table s)); cbn; intros Heq; by inversion Heq.
    + cbn.
      destruct (match Episode.db_data s with
                | Some row => negb (truthy (Episode.col row "aid"))
                | None => true
                end); cbn.
      * destruct (Episode.db_data s) as [row|]; cbn; [|intros Heq; by inversion Heq].
        unfold lift. destruct (resolve (Episode.col row "aid")) as [e|a]; cbn;
          [intros Heq; by inversion Heq|].
        rewrite Hep. cbn.
        destruct (filter _ (Episode.table s)); cbn; intros Heq; by inversion Heq.
      * destruct (Episode.db_data s) as [row|]; cbn; [|intros Heq; by inversion Heq].
        unfold lift. destruct (resolve (Episode.col row "aid")) as [e|a]; cbn;
          [intros Heq; by inversion Heq|].
        rewrite Hep. cbn.
        destruct (filter _ (Episode.table s)); cbn; intros Heq; by inversion Heq.
Qed.

(** Whatever the episode number given with an anime, the constructor that
    returns has stored it as it was given. *)
Lemma init_keeps_epno resolve a (epno : pyval) (s s' : Episode.state) :
  Episode.__init__ resolve a epno PNone s = (inr tt, s') ->
  Episode._episode_number s' = epno.
Proof.
  unfold Episode.__init__. cbn [truthy]. rewrite orb_false_r.
  destruct (Episode.truthy_anime a && truthy epno) eqn:Hargs; cbn [negb];
    [|intros Heq; by inversion Heq].
  apply andb_true_iff in Hargs as [_ Hep].
  unfold bind at 1. unfold bind at 1, lift at 1.
  destruct (match a with
            | Episode.NoAnime => resolve PNone
            | Episode.AnimeObject a0 => inr a0
            | Episode.AnimeKey key => resolve key
            end) as [e|aid]; [intros Heq; by inversion Heq|].
  unfold bind at 1, modify at 1. unfold bind at 1.
  unfold try_except, bind, lift, ret.
  destruct (int epno) as [e|n]; cbn.
  - destruct (decide (e = ValueError)); cbn; [|intros Heq; by inversion Heq].
    destruct (Episode._get_db_data resolve _) as [r s1] eqn:Hget.
    apply get_db_data_keeps_epno in Hget; [|done].
    intros Heq. destruct r; inversion Heq; subst. exact Hget.
  - destruct (Episode._get_db_data resolve _) as [r s1] eqn:Hget.
    apply get_db_data_keeps_epno in Hget; [|done].
    intros Heq. destruct r; inversion Heq; subst. exact Hget.
Qed.

(** C2, at the constructor: [Episode(anime, epno="05")] returns with the
    episode number "05", not the canonical "5" that [str(int("05"))] gives,
    and its cache lookup by (anime id, "05") misses the row that is stored
    under "5"; the same construction with "5" finds it.  An episode number
    that does not parse is kept as it was given. *)
Theorem episode_number_not_normalized :
  (EpisodeExamples.construct "05").1 = inr tt /\
  Episode._episode_number (EpisodeExamples.construct "05").2 = PStr "05" /\
  str <$> int_of_str "05" = Some "5" /\
  Episode.db_data (EpisodeExamples.construct "05").2 = None /\
  Episode.db_data (EpisodeExamples.construct "5").2 = Some EpisodeExamples.episode_5 /\
  Episode._episode_number (EpisodeExamples.construct "S2").2 = PStr "S2".
Proof. vm_compute. repeat split; reflexivity. Qed.

(** ** The status bits of a file *)

Lemma land_pow2 (a k : Z) :
  0 <= k -> Z.land a (2 ^ k) = if Z.testbit a k then 2 ^ k else 0.
Proof.
  intros Hk. apply Z.bits_inj'. intros m Hm.
  rewrite Z.land_spec, Z.pow2_bits_eqb by done.
  destruct (Z.eqb_spec k m) as [->|Hne].
  - destruct (Z.testbit a m); cbn.
    + by rewrite Z.pow2_bits_eqb, Z.eqb_refl.
    + by rewrite Z.bits_0.
  - rewrite andb_false_r. destruct (Z.testbit a k).
    + rewrite Z.pow2_bits_eqb by done. symmetry. by apply Z.eqb_neq.
    + by rewrite Z.bits_0.
Qed.

Lemma truthy_land_pow2 (a k : Z) :
  0 <= k -> truthy (PInt (Z.land a (2 ^ k))) = Z.testbit a k.
Proof.
  intros Hk. rewrite land_pow2 by done. destruct (Z.testbit a k); cbn; [|done].
  destruct (Z.eqb_spec (2 ^ k) 0) as [H0|]; [|done].
  pose proof (Z.pow_pos_nonneg 2 k). lia.
Qed.

(** A normal response with a numeric status goes through the decoding. *)
Lemma file_record_decodes convs (res : File.response) finfo others v state converted :
  File.rescode_normal res = true ->
  File.datalines res = finfo :: others ->
  finfo !! "state" = Some v ->
  int v = inr state ->
  File.convert convs
    (filter (fun kv => ~ (String.prefix "mylist_" (fst kv) = true /\ snd kv = PStr ""))
       (base.delete "state" finfo)) = inr converted ->
  File.file_record convs res
  = inr (<["is_generic" := PBool false]> (File.decode_state state converted)).
Proof.
  unfold File.rescode_normal, File.file_record. intros Hcode Hd Hstate Hint Hconv.
  apply negb_true_iff in Hcode. rewrite Hcode, Hd, Hstate, Hint. cbn zeta.
  by rewrite Hconv.
Qed.

(** C5: for every status value, the decoding sets [crc_ok] to true when
    bit 0 is set, else to false when bit 1 is set, else leaves it as the
    record had it; sets [file_version] to 2, 3, 4 or 5 by the first set bit
    among bits 2, 3, 4, 5, and to 1 when none is set; sets [censored] to
    false when bit 6 is set, else to true when bit 7 is set, else leaves it.
    A status with only bit 2 set gives version 2 and sets nothing else. *)
Theorem decode_state_bits (state : Z) (finfo : gmap string pyval) :
  File.decode_state state finfo !! "crc_ok" =
    (if Z.testbit state 0 then Some (PBool true)
     else if Z.testbit state 1 then Some (PBool false)
     else finfo !! "crc_ok") /\
  File.decode_state state finfo !! "file_version" =
    Some (PInt (if Z.testbit state 2 then 2
                else if Z.testbit state 3 then 3
                else if Z.testbit state 4 then 4
                else if Z.testbit state 5 then 5
                else 1)) /\
  File.decode_state state finfo !! "censored" =
    (if Z.testbit state 6 then Some (PBool false)
     else if Z.testbit state 7 then Some (PBool true)
     else finfo !! "censored") /\
  File.decode_state 4 ∅ = {["file_version" := PInt 2]}.
Proof.
  unfold File.decode_state.
  change (Z.land state 0x1) with (Z.land state (2 ^ 0)).
  change (Z.land state 0x2) with (Z.land state (2 ^ 1)).
  change (Z.land state 0x4) with (Z.land state (2 ^ 2)).
  change (Z.land state 0x8) with (Z.land state (2 ^ 3)).
  change (Z.land state 0x10) with (Z.land state (2 ^ 4)).
  change (Z.land state 0x20) with (Z.land state (2 ^ 5)).
  change (Z.land state 0x40) with (Z.land state (2 ^ 6)).
  change (Z.land state 0x80) with (Z.land state (2 ^ 7)).
  rewrite !truthy_land_pow2 by lia.
  split; [|split; [|split]].
  - destruct (Z.testbit state 0), (Z.testbit state 1), (Z.testbit state 2),
      (Z.testbit state 3), (Z.testbit state 4), (Z.testbit state 5),
      (Z.testbit state 6), (Z.testbit state 7); by simplify_map_eq.
  - destruct (Z.testbit state 0), (Z.testbit state 1), (Z.testbit state 2),
      (Z.testbit state 3), (Z.testbit state 4), (Z.testbit state 5),
      (Z.testbit state 6), (Z.testbit state 7); by simplify_map_eq.
  - destruct (Z.testbit state 0), (Z.testbit state 1), (Z.testbit state 2),
      (Z.testbit state 3), (Z.testbit state 4), (Z.testbit state 5),
      (Z.testbit state 6), (Z.testbit state 7); by simplify_map_eq.
  - vm_compute. reflexivity.
Qed.

(** ** Constructing a [File] from a path *)

Section StaleRow.

Variable refresh : bool -> M File.state unit.
Variable stats : pyval -> exn + (pyval * pyval).
Variable mk_anime : pyval -> exn + Z.
Variable mk_episode : option Z -> pyval -> pyval -> exn + File.episode_obj.

Lemma construct_from_path_unfold path mtime size (s : File.state) :
  truthy path = true ->
  stats path = inr (mtime, size) ->
  File._fid (File.self s) = PNone ->
  File.construct_from_path refresh stats mk_anime mk_episode path s =
  File._get_db_data refresh
    (File.set_self (File.set_path_stats path mtime size (File.self s)) s).
Proof.
  intros Hpath Hstats Hfid. unfold File.construct_from_path, File.__init__.
  rewrite Hpath. cbn [negb andb truthy Episode.truthy_anime].
  unfold bind at 1. unfold bind at 1, lift at 1. rewrite Hstats.
  unfold File.modify_self, modify. cbn [fst snd].
  unfold bind at 1, ret at 1. unfold bind at 1, ret at 1. done.
Qed.

(** C6: constructing a [File] from a path alone, when the cache lookup by
    that path returns a row whose stored size differs from the size just
    probed and the storage engine accepts the commit: the construction
    returns with no cached record, the row is deleted and the deletion is
    durable, and the link is untouched (no request was sent). *)
Theorem stale_row_discarded path mtime size stored d t k row others d' :
  truthy path = true ->
  stats path = inr (mtime, size) ->
  File.query "path" path (File.new stored d t k) = row :: others ->
  File.col row "size" <> size ->
  Db.commit (Db.delete row d) = (inr tt, d') ->
  exists s',
    File.construct_from_path refresh stats mk_anime mk_episode path (File.new stored d t k) = (inr tt, s') /\
    File.db_data s' = None /\
    File.anidb s' = k /\
    File.db s' = d' /\
    Db.pending d' = [] /\
    Db.durable d' = Db.durable d ++ Db.pending d ++ [Db.Delete row] /\
    (forall r, r ∈ File.committed_rows s' -> File.rowid r <> File.rowid row).
Proof.
  intros Hpath Hstats Hquery Hsize Hcommit.
  rewrite (construct_from_path_unfold path mtime size) by done.
  unfold File._get_db_data. unfold bind at 1. cbn [File.self File.set_self File._fid
    File.set_path_stats File.new File.new_attrs truthy File._path File._size].
  change (File.query "path" path _) with (File.query "path" path (File.new stored d t k)).
  rewrite Hquery.
  rewrite bool_decide_eq_false_2 by done. cbn [negb].
  unfold bind at 1, modify at 1. unfold bind at 1.
  unfold _db_commit, try_except. cbn [_db set_db File.file_obj File.db File.set_session].
  change (File.db (File.set_self (File.set_path_stats path mtime size File.new_attrs)
                     (File.new stored d t k))) with d.
  rewrite Hcommit. cbn [ret].
  assert (Hshape : Db.pending d' = [] /\
                   Db.durable d' = Db.durable d ++ Db.pending d ++ [Db.Delete row]).
  { unfold Db.commit, Db.delete in Hcommit. cbn in Hcommit.
    destruct (Db.storage d) as [|[|e] rest]; inversion Hcommit; subst; done. }
  destruct Hshape as [Hpending Hdurable].
  eexists. split; [reflexivity|]. cbn.
  repeat split; try done.
  intros r. unfold File.committed_rows. cbn. rewrite Hdurable, !foldl_app. cbn.
  rewrite list_elem_of_filter. tauto.
Qed.

(** X18: when the storage engine refuses that commit with its [DBAPIError],
    the construction still returns without a cached record, but the deletion
    is rolled back: the durable changes are as before. *)
Lemma stale_row_commit_refused path mtime size stored d t k row others rest :
  truthy path = true ->
  stats path = inr (mtime, size) ->
  File.query "path" path (File.new stored d t k) = row :: others ->
  File.col row "size" <> size ->
  Db.storage d = Db.CommitRaises DBAPIError :: rest ->
  exists s',
    File.construct_from_path refresh stats mk_anime mk_episode path (File.new stored d t k) = (inr tt, s') /\
    File.db_data s' = None /\
    File.anidb s' = k /\
    Db.pending (File.db s') = [] /\
    Db.durable (File.db s') = Db.durable d.
Proof.
  intros Hpath Hstats Hquery Hsize Hstorage.
  rewrite (construct_from_path_unfold path mtime size) by done.
  unfold File._get_db_data. unfold bind at 1. cbn [File.self File.set_self File._fid
    File.set_path_stats File.new File.new_attrs truthy File._path File._size].
  change (File.query "path" path _) with (File.query "path" path (File.new stored d t k)).
  rewrite Hquery.
  rewrite bool_decide_eq_false_2 by done. cbn [negb].
  unfold bind at 1, modify at 1. unfold bind at 1.
  unfold _db_commit, try_except, Db.commit.
  cbn [_db set_db File.file_obj File.db File.set_session].
  change (File.db (File.set_self (File.set_path_stats path mtime size File.new_attrs)
                     (File.new stored d t k))) with d.
  cbn [Db.delete Db.storage].
  rewrite Hstorage. cbn.
  eexists. split; [reflexivity|]. done.
Qed.

End StaleRow.


Lemma stale_row_discarded_witness :
  exists s',
    File.construct_from_path FileExamples.never_refreshed FileExamples.probe
      FileExamples.no_anime FileExamples.no_episode
      (PStr "/anime/Show/Show - 05.mkv")
      (File.new [FileExamples.old_row] FileExamples.empty_session 5000 FileExamples.idle)
    = (inr tt, s') /\
    File.db_data s' = None /\
    File.events (File.anidb s') = [] /\
    File.committed_rows s' = [].
Proof.
  destruct (stale_row_discarded FileExamples.never_refreshed FileExamples.probe
              FileExamples.no_anime FileExamples.no_episode
              (PStr "/anime/Show/Show - 05.mkv") (PInt 1700000000) (PInt 200)
              [FileExamples.old_row] FileExamples.empty_session 5000 FileExamples.idle
              FileExamples.old_row []
              (Db.mkSession [] [Db.Delete FileExamples.old_row] [] []))
    as (s' & Hrun & Hdata & Hlink & Hdb & _).
  - reflexivity.
  - reflexivity.
  - vm_compute. reflexivity.
  - vm_compute. discriminate.
  - reflexivity.
  - exists s'. split; [exact Hrun|]. split; [exact Hdata|].
    split; [by rewrite Hlink|].
    unfold File.committed_rows. rewrite Hdb.
    assert (Htable : File.table0 s' = [FileExamples.old_row]).
    { vm_compute in Hrun. by inversion Hrun. }
    rewrite Htable. vm_compute. reflexivity.
Defined.

(** ** The mylist workflows on a generic file with several episodes *)


(** C3, at [remove_from_mylist]: on the generic file with the guessed
    episodes 1 and 2, [add_to_mylist] sends one request per episode number,
    each answered before the next is sent, and writes and commits the local
    mylist fields after the last answer; [remove_from_mylist] sends a single
    request keyed by size and hash, and none per episode. *)
Theorem remove_from_mylist_single_request :
  MylistExamples.add.1 = inr tt /\
  File.events (File.anidb MylistExamples.add.2) =
    [File.Sent (MylistExamples.add_command "1") true;
     File.Answered (MylistExamples.add_command "1");
     File.Sent (MylistExamples.add_command "2") true;
     File.Answered (MylistExamples.add_command "2");
     File.Stored; File.Committed] /\
  MylistExamples.remove.1 = inr tt /\
  File.events (File.anidb MylistExamples.remove.2) =
    [File.Sent (File.mkCommand "MyListDelCommand" [("size", PInt 100); ("ed2k", PStr "abc")]) true;
     File.Answered
       (File.mkCommand "MyListDelCommand" [("size", PInt 100); ("ed2k", PStr "abc")])].
Proof. vm_compute. repeat split; reflexivity. Qed.

Lemma bind_returns {St A B} (c : M St A) (k : A -> M St B) (s s' : St) (v : A) :
  c s = (inr v, s') -> bind c k s = k v s'.
Proof. intros Hc. unfold bind. by rewrite Hc. Qed.

Section MylistRemoval.

Variable refresh : bool -> M File.state unit.
Variable stats : pyval -> exn + (pyval * pyval).
Variable hash : pyval -> exn + pyval.
Variable mk_anime : pyval -> exn + Z.
Variable mk_episode : option Z -> pyval -> pyval -> exn + File.episode_obj.
Variable number_of : File.episode_obj -> exn + pyval.

Lemma getattr_fresh (s : File.state) row (attr : string) :
  File.db_data s = Some row ->
  File.clock s - seven_days < File.updated row ->
  File.__getattr__ refresh attr s = (inr (File.col row attr), s).
Proof.
  intros Hrow Hfresh. unfold File.__getattr__, update_if_old, bind, gets.
  cbn [db_stamp now File.file_obj]. rewrite Hrow. cbn [fmap option_fmap option_map].
  destruct (Z.leb_spec (File.updated row) (File.clock s - seven_days)) as [Hle|_]; [lia|].
  cbn [ret]. by rewrite Hrow.
Qed.

Lemma size_known (s : File.state) :
  truthy (File._size (File.self s)) = true ->
  File.size stats s = (inr (File._size (File.self s)), s).
Proof. intros Hsize. unfold File.size. by rewrite Hsize. Qed.

Lemma ed2khash_known (s : File.state) :
  truthy (File._ed2khash (File.self s)) = true ->
  File.ed2khash stats hash s = (inr (File._ed2khash (File.self s)), s).
Proof. intros Hhash. unfold File.ed2khash. by rewrite Hhash. Qed.

Lemma mylistdel_callback_returns (code : string) (s : File.state) :
  exists s', File._mylistdel_callback code s = (inr tt, s') /\
             File.anidb s' = File.anidb s.
Proof.
  unfold File._mylistdel_callback, File.log_info, File.log_warning, modify, ret.
  destruct (String.eqb code "211"); [by eexists|].
  destruct (String.eqb code "411"); by eexists.
Qed.

(** X19: whatever the guessed episode numbers, a file whose size and hash
    are known, and whose fresh cached row carries no attribute [db], is
    removed from the mylist with one request keyed by size and hash. *)
Lemma remove_by_size_and_hash (s : File.state) row :
  File.db_data s = Some row ->
  File.clock s - seven_days < File.updated row ->
  truthy (File.col row "db") = false ->
  truthy (File._size (File.self s)) = true ->
  truthy (File._ed2khash (File.self s)) = true ->
  File.inflight (File.anidb s) = [] ->
  exists s',
    File.remove_from_mylist refresh stats hash mk_anime mk_episode number_of s = (inr tt, s') /\
    File.events (File.anidb s') =
      File.events (File.anidb s) ++
      [File.Sent (File.mkCommand "MyListDelCommand"
                    [("size", File._size (File.self s));
                     ("ed2k", File._ed2khash (File.self s))]) true;
       File.Answered (File.mkCommand "MyListDelCommand"
                        [("size", File._size (File.self s));
                         ("ed2k", File._ed2khash (File.self s))])].
Proof.
  intros Hrow Hfresh Hdb Hsize Hhash Hidle.
  unfold File.remove_from_mylist.
  erewrite bind_returns by reflexivity.
  erewrite bind_returns by (by apply getattr_fresh).
  rewrite Hdb.
  erewrite bind_returns by reflexivity.
  cbn match.
  set (s1 := File.set_link _ s).
  assert (Hs1 : File.self s1 = File.self s) by done.
  assert (Hhashed : bind (File.ed2khash stats hash) (fun h => ret (truthy h)) s1
                    = (inr true, s1)).
  { erewrite bind_returns by (apply ed2khash_known; by rewrite Hs1).
    by rewrite Hs1, Hhash. }
  erewrite (bind_returns (bind (File.size stats) _)); cycle 1.
  { erewrite bind_returns by (apply size_known; by rewrite Hs1).
    cbn beta. rewrite Hs1, Hsize.
    erewrite bind_returns by exact Hhashed.
    cbn beta match.
    erewrite bind_returns by (apply size_known; by rewrite Hs1).
    erewrite bind_returns by (apply ed2khash_known; by rewrite Hs1).
    rewrite Hs1. reflexivity. }
  unfold File.wait_wait. cbn [File.anidb File.set_link File.wait File.inflight s1
    File.request File.modify_link modify bind app]. rewrite Hidle. cbn [app].
  match goal with
  | |- context [bind (File._mylistdel_callback ?c) ?k ?st] =>
      destruct (mylistdel_callback_returns c st) as (s2 & Hcb & Hlink);
      rewrite (bind_returns _ k st s2 tt Hcb)
  end.
  eexists. split; [reflexivity|]. cbn. rewrite Hlink. cbn. by rewrite <- app_assoc.
Qed.




End MylistRemoval.

(** ** One refresh at a time *)

Section OneRefresh.

Import Refresh.


Lemma sum_middle {A} (f : A -> nat) (l1 l2 : list A) (x : A) :
  sum_list_with f (l1 ++ x :: l2) = (sum_list_with f l1 + f x + sum_list_with f l2)%nat.
Proof. rewrite sum_list_with_app. cbn. lia. Qed.

Lemma waiting_requesting_alive (rs : list refresher) :
  (sum_list_with waiting rs + sum_list_with requesting rs <= sum_list_with alive rs)%nat.
Proof. induction rs as [|[] rs IH]; cbn; lia. Qed.

Lemma invariant_initial (blocks : list bool) : invariant (initial blocks).
Proof.
  constructor; cbn; try done; try lia.
  unfold holders, refreshes_in_flight. cbn.
  induction blocks as [|b blocks IH]; cbn in *; lia.
Qed.

Ltac unfold_counts :=
  unfold holders, refreshes_in_flight in *;
  cbn [_updating _updated callers refreshers outstanding sent
       with_lock with_event with_callers with_refreshers with_requests] in *;
  repeat match goal with
         | H : callers ?s = _ |- _ => rewrite H in *; clear H
         | H : refreshers ?s = _ |- _ => rewrite H in *; clear H
         end;
  rewrite ?sum_middle, ?sum_list_with_app in *;
  cbn [holds_lock alive waiting requesting sum_list_with] in *.

Lemma invariant_step (a : actor) (s s' : state) :
  invariant s -> step a s s' -> invariant s'.
Proof.
  intros [Hlock Hout Hreq Hev] Hstep.
  pose proof (waiting_requesting_alive (refreshers s)) as Hwra.
  inversion Hstep; subst; constructor; unfold_counts;
    repeat match goal with
           | H : _updating _ = _ |- _ => rewrite H in *
           | H : _updated _ = _ |- _ => rewrite H in *
           | H : outstanding _ = _ |- _ => rewrite H in *
           end;
    try (destruct b); cbn [holds_lock] in *;
    try (destruct (_updating s)); try lia; try done;
    try (intros; first [ apply Hreq; lia | apply Hev; done | lia ]).
  (* sending the request: the event was cleared and nobody has set it since *)
  intros Hup. rewrite Hreq in Hup by lia. discriminate Hup.
Qed.

Lemma invariant_reaches (P : actor -> Prop) (s0 s : state) :
  invariant s0 -> reaches P s0 s -> invariant s.
Proof.
  intros Hinit Hreach. induction Hreach as [|s1 s2 s3 a _ IH _ Hstep]; [done|].
  eapply invariant_step; [by apply IH | exact Hstep].
Qed.












End OneRefresh.


Section RefreshRun.

Import Refresh RefreshExamples.

Lemma both_returned_reached :
  reaches threads_only (initial [false; false]) both_returned.
Proof.
  apply (reaches_step _ _ event_cleared _ Thread); [|reflexivity|].
  2: exact (step_request event_cleared [] [] eq_refl).
  apply (reaches_step _ _ thread_started _ Thread); [|reflexivity|].
  2: exact (step_clear thread_started [] [] eq_refl).
  apply (reaches_step _ _ second_returned _ Thread); [|reflexivity|].
  2: exact (step_fetch second_returned [] false [Returned] eq_refl).
  apply (reaches_step _ _ lock_taken _ Thread); [|reflexivity|].
  2: exact (step_locked lock_taken [Fetch false] false [] eq_refl eq_refl).
  apply (reaches_step _ _ (initial [false; false]) _ Thread); [|reflexivity|].
  2: exact (step_acquire (initial [false; false]) [] false [CallUpdate false] eq_refl eq_refl).
  apply reaches_here.
Defined.


End RefreshRun.


(** * Further properties *)

(** ** [str] and [int] *)

Section DecimalRoundTrip.

Import Digits.

Lemma rev_string_twice (s : string) : forall a b,
  rev_string b (rev_string a s) = rev_string (String.append s b) a.
Proof.
  induction s as [|c s IH]; intros a b; [done|].
  cbn [rev_string String.append]. by rewrite IH.
Qed.

Lemma append_empty (s : string) : String.append s "" = s.
Proof.
  induction s as [|c s IH]; [done|].
  change (String c (String.append s "") = String c s). by rewrite IH.
Qed.

Lemma no_space_rev (s : string) : forall acc,
  no_space (rev_string acc s) = no_space s && no_space acc.
Proof.
  induction s as [|c s IH]; intros acc; cbn [rev_string no_space]; [done|].
  rewrite IH. cbn [no_space]. destruct (is_space c), (no_space s), (no_space acc); done.
Qed.

Lemma lstrip_no_space (s : string) : no_space s = true -> lstrip s = s.
Proof.
  destruct s as [|c s]; [done|]. cbn. destruct (is_space c); [discriminate | done].
Qed.

Lemma strip_no_space (s : string) : no_space s = true -> strip s = s.
Proof.
  intros Hs. unfold strip. rewrite (lstrip_no_space s Hs).
  rewrite lstrip_no_space by (by rewrite no_space_rev, Hs).
  by rewrite rev_string_twice, append_empty.
Qed.

Lemma no_space_uint (d : Decimal.uint) : no_space (NilEmpty.string_of_uint d) = true.
Proof. induction d; cbn; done. Qed.

Lemma parse_digits_uint (d : Decimal.uint) : forall acc,
  parse_digits acc true (NilEmpty.string_of_uint d) = Some (uint_value acc d).
Proof.
  induction d; intros acc; cbn [NilEmpty.string_of_uint uint_value]; [done|..];
    cbn; apply IHd.
Qed.

Lemma parse_digits_uint_start (d : Decimal.uint) (acc : Z) (b : bool) :
  d <> Decimal.Nil ->
  parse_digits acc b (NilEmpty.string_of_uint d) = Some (uint_value acc d).
Proof.
  intros Hd. destruct d; [done|..];
    cbn [NilEmpty.string_of_uint uint_value]; cbn; apply parse_digits_uint.
Qed.

Lemma uint_value_acc (d : Decimal.uint) : forall acc : positive,
  Z.pos (Pos.of_uint_acc d acc) = uint_value (Z.pos acc) d.
Proof.
  induction d; intros acc; cbn [Pos.of_uint_acc uint_value]; [done|..];
    rewrite IHd; f_equal; lia.
Qed.

Lemma uint_value_of_uint (d : Decimal.uint) : Z.of_uint d = uint_value 0 d.
Proof.
  unfold Z.of_uint. induction d; cbn [Pos.of_uint uint_value]; [done|..];
    try (cbn; apply uint_value_acc).
  exact IHd.
Qed.

Lemma to_uint_value (p : positive) : uint_value 0 (Pos.to_uint p) = Z.pos p.
Proof.
  rewrite <- uint_value_of_uint.
  change (Z.of_int (Z.to_int (Z.pos p)) = Z.pos p). apply DecimalZ.of_to.
Qed.

Lemma int_of_str_uint (p : positive) :
  int_of_str (NilEmpty.string_of_uint (Pos.to_uint p)) = Some (Z.pos p).
Proof.
  pose proof (DecimalPos.Unsigned.to_uint_nonnil p) as Hnil.
  unfold int_of_str. rewrite strip_no_space by apply no_space_uint.
  rewrite <- (to_uint_value p).
  rewrite <- (parse_digits_uint_start _ 0 false Hnil).
  by destruct (Pos.to_uint p).
Qed.

(** [int(str(n))] is [n] for every integer: the decimal text that [str]
    writes is read back by [int] to the same number. *)
Theorem int_str_round_trip (n : Z) : int (PStr (str n)) = inr n.
Proof.
  assert (forall p, NilZero.string_of_uint (Pos.to_uint p)
                    = NilEmpty.string_of_uint (Pos.to_uint p)) as Hnz.
  { intros p. pose proof (DecimalPos.Unsigned.to_uint_nonnil p).
    by destruct (Pos.to_uint p). }
  unfold int, str. destruct n as [|p|p]; [done|..]; cbn [Z.to_int NilZero.string_of_int].
  - by rewrite Hnz, int_of_str_uint.
  - rewrite Hnz. unfold int_of_str.
    rewrite strip_no_space by (cbn [no_space]; by rewrite no_space_uint).
    pose proof (DecimalPos.Unsigned.to_uint_nonnil p) as Hnil.
    rewrite (parse_digits_uint_start _ 0 false Hnil), to_uint_value. done.
Qed.

End DecimalRoundTrip.
(** ** What a refresh leaves in the anime cache *)

Lemma map_exn_inr {A B} (f : A -> exn + B) (l : list A) (ys : list B) :
  Anime.map_exn f l = inr ys -> Forall2 (fun x y => f x = inr y) l ys.
Proof.
  revert ys. induction l as [|x l IH]; intros ys; cbn.
  - intros [= <-]. constructor.
  - destruct (f x) as [e|y] eqn:Hx; [done|].
    destruct (Anime.map_exn f l) as [e|ys']; [done|].
    intros [= <-]. constructor; [done | by apply IH].
Qed.

(** A conversion that keeps the key of every field keeps the keys of the
    record, and converts each field on its own. *)
Lemma convert_fields_lookup (f : string * pyval -> exn + (string * pyval))
    (m : gmap string pyval) (kvs : list (string * pyval)) (k : string) :
  (forall kv kv', f kv = inr kv' -> kv'.1 = kv.1) ->
  Anime.map_exn f (map_to_list m) = inr kvs ->
  match m !! k with
  | Some v => exists w, f (k, v) = inr (k, w) /\
                        (list_to_map kvs : gmap string pyval) !! k = Some w
  | None => (list_to_map kvs : gmap string pyval) !! k = None
  end.
Proof.
  intros Hkey Hmap. apply map_exn_inr in Hmap.
  assert (Hfst : kvs.*1 = (map_to_list m).*1).
  { clear k. induction Hmap as [|kv kv' l l' Hf _ IH]; [done|].
    cbn. by rewrite IH, (Hkey kv kv' Hf). }
  assert (Hnd : NoDup (kvs.*1)) by (rewrite Hfst; apply NoDup_fst_map_to_list).
  destruct (m !! k) as [v|] eqn:Hk.
  - apply elem_of_map_to_list in Hk.
    apply list_elem_of_lookup in Hk as [i Hi].
    destruct (Forall2_lookup_l _ _ _ _ _ Hmap Hi) as ([k' w] & Hi' & Hf).
    pose proof (Hkey _ _ Hf) as Hk'. cbn in Hk'. subst k'.
    exists w. split; [done|].
    apply elem_of_list_to_map; [done|]. by eapply list_elem_of_lookup_2.
  - apply not_elem_of_list_to_map. rewrite Hfst.
    intros Hin. apply list_elem_of_fmap in Hin as ([k' v] & -> & Hin).
    apply elem_of_map_to_list in Hin. cbn in Hk. congruence.
Qed.

Section AnimeRefreshed.

Import Anime.

Variable relmap : gmap string string.
Variable convs : gmap string (pyval -> exn + pyval).

Implicit Types (h : gmap nat AnimeRelationTable) (rs : list AnimeRelationTable).

Lemma allocate_spec rs : forall h n,
  (allocate rs h n).2 = seq n (length rs) /\
  (allocate rs h n).1.2 = (n + length rs)%nat /\
  (forall i r, rs !! i = Some r -> (allocate rs h n).1.1 !! (n + i)%nat = Some r) /\
  (forall l : nat, (l < n)%nat -> (allocate rs h n).1.1 !! l = h !! l).
Proof.
  induction rs as [|r rs IH]; intros h n.
  - cbn. repeat split; try done; lia.
  - cbn [allocate]. specialize (IH (<[n:=r]> h) (S n)).
    destruct (allocate rs (<[n:=r]> h) (S n)) as [[h' n'] ls]. cbn in *.
    destruct IH as (-> & -> & Hnew & Hold). repeat split; [lia | |].
    + intros [|i] r' Hi; cbn in Hi.
      * inversion Hi; subst. rewrite Nat.add_0_r, Hold by lia. by rewrite lookup_insert_eq.
      * rewrite <- Nat.add_succ_comm. by apply Hnew.
    + intros l Hl. rewrite Hold by lia. rewrite lookup_insert_ne; [done | lia].
Qed.

Lemma view_of_allocated rs : forall h (n : nat),
  (forall i r, rs !! i = Some r -> h !! (n + i)%nat = Some r) ->
  omap (fun l => (fun r => (related_aid r, relation_type r)) <$> h !! l) (seq n (length rs))
  = (fun r => (related_aid r, relation_type r)) <$> rs.
Proof.
  induction rs as [|r rs IH]; intros h n Hh; [done|].
  cbn. rewrite <- (Nat.add_0_r n) at 1. rewrite (Hh 0%nat r) by done. cbn.
  f_equal. apply IH. intros i r' Hi. rewrite Nat.add_succ_comm. by apply Hh.
Qed.

(** X1: merging a parsed response when nothing is cached builds a new row
    that holds the response as it is: the converted fields, the stamp of the
    moment, and the reported relations in the reported order (duplicates
    included); the row is handed to the session to be added, and no object
    that existed before is touched. *)
Theorem fresh_row_holds_response rs (ainfo : gmap string pyval) (s : state) :
  db_data s = None ->
  exists row,
    db_data (merge rs ainfo s) = Some row /\
    pk row = None /\ fields row = ainfo /\ updated row = clock s /\
    relation_view (merge rs ainfo s) = (fun r => (related_aid r, relation_type r)) <$> rs /\
    Db.pending (db (merge rs ainfo s)) = Db.pending (db s) ++ [Db.Add (Row row)] /\
    forall l : nat, (l < next s)%nat -> heap (merge rs ainfo s) !! l = heap s !! l.
Proof.
  intros Hnone. unfold merge, relation_view. rewrite Hnone.
  destruct (allocate_spec rs (heap s) (next s)) as (Hls & _ & Hnew & Hold).
  destruct (allocate rs (heap s) (next s)) as [[h' n'] ls]. cbn in *. subst ls.
  eexists. split; [reflexivity|]. cbn. repeat split; try done.
  by apply view_of_allocated.
Qed.

(** X2: when the reported related ids are pairwise distinct, merging
    into an existing row leaves the cache with exactly the reported
    relations: the set of (related id, type) pairs read through the row's
    relation list is the set of the reported pairs. *)
Theorem merge_mirrors_response rs (ainfo : gmap string pyval) (s : state) row :
  db_data s = Some row ->
  (forall l, l ∈ relations row -> (l < next s)%nat) ->
  NoDup (related_aid <$> rs) ->
  relation_set (merge rs ainfo s)
  = list_to_set ((fun r => (related_aid r, relation_type r)) <$> rs).
Proof.
  intros Hrow Hlt Hnd. unfold relation_set, relation_view.
  rewrite (merge_existing rs ainfo s row Hrow). cbn zeta.
  set (rc := reconcile rs (pk row) (relations row) (heap s) (next s) []).
  cbn [db_data set_db_data relations heap set_session set_heap].
  assert (Hnr : rc.2 = concat ((blocks (heap s) (relations row) rs (next s)).*2))
    by (unfold rc; by rewrite reconcile_new_relations).
  apply set_eq. intros x. rewrite !elem_of_list_to_set, list_elem_of_omap, list_elem_of_fmap.
  split.
  - intros (l & Hl & Hx). rewrite Hnr in Hl.
    apply elem_of_new_relations in Hl as (r & bl & Hbl & Hl).
    destruct (block_contents rs (pk row) (relations row) (heap s) (next s) [] r bl Hnd Hlt Hbl)
      as [_ Hc].
    destruct (Hc l Hl) as [_ Hlook]. fold rc in Hlook. rewrite Hlook in Hx.
    cbn in Hx. inversion Hx; subst x. exists r. split; [done|].
    by apply blocks_elem in Hbl as [Hr _].
  - intros (r & -> & Hr).
    destruct (blocks_lookup (heap s) (relations row) rs (next s) r Hr) as [bl Hbl].
    destruct (block_contents rs (pk row) (relations row) (heap s) (next s) [] r bl Hnd Hlt Hbl)
      as [Hne Hc].
    destruct bl as [|l bl]; [done|].
    destruct (Hc l) as [_ Hlook]; [left|]. fold rc in Hlook.
    exists l. split.
    + rewrite Hnr. apply elem_of_new_relations. exists r, (l :: bl). split; [done | left].
    + by rewrite Hlook.
Qed.

Lemma split_aux_cons (sep : ascii) (s : string) : forall cur,
  exists x xs, split_aux sep cur s = x :: xs.
Proof.
  induction s as [|c s IH]; intros cur; cbn; [by eexists _, _|].
  destruct (Ascii.eqb c sep); [by eexists _, _ | apply IH].
Qed.

(** X3: a response whose first related id is not a decimal number makes
    the callback raise [ValueError] before anything is stored; the cache and
    the completion event are as they were.  An anime without relations is
    such a response: its empty id list splits into one empty piece. *)
Theorem relation_id_not_numeric res ainfo others (ids types : string) (s : state) :
  datalines res = ainfo :: others ->
  ainfo !! "related_aid_list" = Some (PStr ids) ->
  ainfo !! "related_aid_type" = Some (PStr types) ->
  int_of_str (hd "" (split "'" ids)) = None ->
  _db_data_callback relmap convs res s = (inl ValueError, s).
Proof.
  intros Hd Hids Htypes Hnum. unfold _db_data_callback, bind, lift.
  rewrite Hd. unfold parse_relations. rewrite Hids, Htypes. cbn [split_field].
  destruct (split_aux_cons "'" ids "") as (x & xs & Hx).
  destruct (split_aux_cons "'" types "") as (y & ys & Hy).
  unfold split in *. rewrite Hx in *. rewrite Hy. cbn [zip map_exn hd] in *.
  unfold make_relation. cbn [fst int]. by rewrite Hnum.
Qed.





(** X5: the callback sets the completion event exactly when it returns.
    When it raises, the event is as it was, and unless the exception is one
    that the commit itself raised (other than the [DBAPIError] the helper
    catches) nothing at all has changed. *)
Theorem callback_sets_event_when_it_returns res (s : state) :
  (forall s', _db_data_callback relmap convs res s = (inr tt, s') -> _updated s' = true) /\
  (forall e s', _db_data_callback relmap convs res s = (inl e, s') ->
     _updated s' = _updated s /\
     (s' = s \/
      e <> DBAPIError /\ exists rest, Db.storage (db s) = Db.CommitRaises e :: rest)).
Proof.
  split.
  - intros s' Hrun. unfold _db_data_callback, bind, lift, modify in Hrun.
    destruct (datalines res) as [|ainfo others]; [done|]. cbn in Hrun.
    destruct (parse_relations relmap ainfo) as [e|parsed]; [done|]. cbn in Hrun.
    destruct (convert convs parsed.2) as [e|ainfo']; [done|]. cbn in Hrun.
    destruct (_db_commit _) as [[e|[]] sc]; [done|]. by inversion Hrun.
  - intros e s' Hrun.
    destruct (callback_cases relmap convs res)
      as [[e0 Hfail]|(ainfo & others & rs & rest & ainfo' & Hd & Hp & Hc)].
    { rewrite Hfail in Hrun. inversion Hrun; subst. split; [done | by left]. }
    rewrite (callback_unfold relmap convs res ainfo others rs rest ainfo' s Hd Hp Hc) in Hrun.
    destruct (merge_storage rs ainfo' s) as (Hstorage & _).
    destruct (_db_commit (merge rs ainfo' s)) as [[e1|[]] sc] eqn:Hcommit; [|done].
    inversion Hrun; subst e1 sc.
    pose proof (db_commit_frame _ _ _ Hcommit) as (_ & _ & _ & _ & Hev).
    split.
    { rewrite Hev. unfold merge. destruct (db_data s).
      - by destruct (reconcile _ _ _ _ _ _) as [[h n] nr].
      - by destruct (allocate _ _ _) as [[h n] ls]. }
    right. unfold _db_commit, try_except, Db.commit in Hcommit. cbn in Hcommit.
    rewrite Hstorage in Hcommit.
    destruct (Db.storage (db s)) as [|[|e1] rest']; cbn in Hcommit; [done | done |].
    destruct (decide (e1 = DBAPIError)) as [->|Hne]; cbn in Hcommit; [done|].
    inversion Hcommit; subst e1. split; [done | by exists rest'].
Qed.

End AnimeRefreshed.

(** ** What a refresh leaves in the episode cache *)

Section EpisodeRefreshed.

Import Episode.

Variable convs : gmap string (pyval -> exn + pyval).




(** X7: normalising an episode number twice is normalising it once:
    whatever value the response carries, the field that the conversion
    produces is left as it is by a second conversion. *)
Theorem epno_conversion_idempotent (v : pyval) (kv : string * pyval) :
  convert_field convs ("epno", v) = inr kv ->
  convert_field convs kv = inr kv.
Proof.
  unfold convert_field. cbn [fst snd String.eqb Ascii.eqb Bool.eqb].
  destruct (int v) as [e|n] eqn:Hv.
  - destruct e; try done. intros [= <-]. cbn. by rewrite Hv.
  - intros [= <-]. cbn [fst snd String.eqb Ascii.eqb Bool.eqb].
    by rewrite int_str_round_trip.
Qed.

End EpisodeRefreshed.

(** ** The cache lookup of a new [File] *)

Section FileLookup.

Variable refresh : bool -> M File.state unit.
Variable stats : pyval -> exn + (pyval * pyval).
Variable hash : pyval -> exn + pyval.
Variable mk_anime : pyval -> exn + Z.
Variable mk_episode : option Z -> pyval -> pyval -> exn + File.episode_obj.

(** X8: constructing a [File] from a path alone, when the first row that
    the cache returns for the path has the size just probed: the row becomes
    the cached record, nothing is deleted or committed, and no request is
    sent. *)
Theorem matching_row_adopted path mtime size stored d t k row others :
  truthy path = true ->
  stats path = inr (mtime, size) ->
  File.query "path" path (File.new stored d t k) = row :: others ->
  File.col row "size" = size ->
  exists s',
    File.construct_from_path refresh stats mk_anime mk_episode path (File.new stored d t k)
      = (inr tt, s') /\
    File.db_data s' = Some row /\
    File.db s' = d /\
    File.anidb s' = k /\
    File._size (File.self s') = size /\ File._mtime (File.self s') = mtime.
Proof.
  intros Hpath Hstats Hquery Hsize.
  rewrite (construct_from_path_unfold refresh stats mk_anime mk_episode path mtime size) by done.
  unfold File._get_db_data. unfold bind at 1. cbn [File.self File.set_self File._fid
    File.set_path_stats File.new File.new_attrs truthy File._path File._size].
  change (File.query "path" path _) with (File.query "path" path (File.new stored d t k)).
  rewrite Hquery. rewrite bool_decide_eq_true_2 by done. cbn [negb ret].
  eexists. split; [reflexivity|]. done.
Qed.

(** X9: constructing a [File] with a file id looks the cache up by that
    id alone: the first row with the id becomes the cached record whatever
    its path and size, also when a path is given and the file on disk has
    another size; nothing is deleted. *)
Theorem fid_lookup_skips_size_check path fid n mtime size stored d t k row others :
  truthy fid = true ->
  int fid = inr n ->
  n <> 0 ->
  (truthy path = true -> stats path = inr (mtime, size)) ->
  File.query "fid" (PInt n) (File.new stored d t k) = row :: others ->
  exists s',
    File.__init__ refresh stats mk_anime mk_episode path fid Episode.NoAnime File.NoEpisode
      (File.new stored d t k) = (inr tt, s') /\
    File.db_data s' = Some row /\
    File.db s' = d /\
    File.anidb s' = k /\
    File._fid (File.self s') = PInt n.
Proof.
  intros Hfid Hint Hn Hstats Hquery. unfold File.__init__.
  rewrite Hfid. cbn [negb andb Episode.truthy_anime]. rewrite andb_false_r.
  assert (Htruthy : truthy (PInt n) = true).
  { cbn. by destruct (Z.eqb_spec n 0). }
  destruct (truthy path) eqn:Hpath.
  - rewrite (Hstats eq_refl). cbn [negb andb].
    unfold bind, lift, File.modify_self, modify, ret.
    rewrite Hint. cbn [fst snd]. unfold File._get_db_data, bind, modify, ret.
    cbn [File.self File.set_self File._fid File.set_fid File.set_path_stats].
    rewrite Htruthy.
    change (File.query "fid" (PInt n) _) with (File.query "fid" (PInt n) (File.new stored d t k)).
    rewrite Hquery. eexists. split; [reflexivity|]. done.
  - cbn [negb andb]. unfold bind, lift, File.modify_self, modify, ret.
    rewrite Hint. unfold File._get_db_data, bind, modify, ret.
    cbn [File.self File.set_self File._fid File.set_fid].
    rewrite Htruthy.
    change (File.query "fid" (PInt n) _) with (File.query "fid" (PInt n) (File.new stored d t k)).
    rewrite Hquery. eexists. split; [reflexivity|]. done.
Qed.

(** X10: the hash of a file with a path and no hash yet.  When the cached
    row has a modification time, a size and a hash, and the file on disk
    still has that time and size, the row's hash is taken and the file is
    not hashed; when time or size differ, the file is hashed, from the
    attribute [_path]. *)
Theorem ed2khash_reuses_cached_hash (s : File.state) row mtime size :
  truthy (File._ed2khash (File.self s)) = false ->
  truthy (File.path s) = true ->
  File.db_data s = Some row ->
  truthy (File.col row "mtime") = true ->
  truthy (File.col row "size") = true ->
  truthy (File.col row "ed2khash") = true ->
  stats (File.path s) = inr (mtime, size) ->
  (mtime = File.col row "mtime" /\ size = File.col row "size" ->
   File.ed2khash stats hash s
   = (inr (File.col row "ed2khash"),
      File.set_self (File.set_ed2khash (File.col row "ed2khash") (File.self s)) s)) /\
  (mtime <> File.col row "mtime" \/ size <> File.col row "size" ->
   File.ed2khash stats hash s
   = match hash (File._path (File.self s)) with
     | inr h => (inr h, File.set_self (File.set_ed2khash h (File.self s)) s)
     | inl e => (inl e, s)
     end).
Proof.
  intros Hnone Hpath Hrow Hm Hs Hh Hstats.
  split; intros Hcase; unfold File.ed2khash; rewrite Hnone, Hpath;
    unfold bind at 1; rewrite Hrow, Hm, Hs, Hh; cbn [andb];
    unfold bind at 1, lift at 1; rewrite Hstats; cbn [fst snd].
  - destruct Hcase as [-> ->]. rewrite !bool_decide_eq_true_2 by done. cbn [andb].
    unfold File.modify_self, modify, bind, gets, ret.
    cbn [File.self File.set_self File._ed2khash File.set_ed2khash]. by rewrite Hh.
  - assert (Hcmp : forall A (x y : M File.state A),
      (if bool_decide (mtime = File.col row "mtime")
          && bool_decide (size = File.col row "size") then x else y) = y).
    { intros A x y. destruct Hcase as [Hd|Hd]; rewrite (bool_decide_eq_false_2 _ Hd);
        [done | by rewrite andb_false_r]. }
    rewrite Hcmp. unfold ret at 1. unfold bind at 1. rewrite Hnone.
    unfold bind, lift, File.modify_self, modify, gets, ret.
    by destruct (hash (File._path (File.self s))).
Qed.

End FileLookup.

(** ** The file data callback *)

Section FileCallback.

Variable refresh : bool -> M File.state unit.
Variable stats : pyval -> exn + (pyval * pyval).
Variable hash : pyval -> exn + pyval.
Variable convs : gmap string (pyval -> exn + pyval).

Lemma file_commit_frame (s s' : File.state) r :
  @_db_commit _ _ (File.file_obj refresh) s = (r, s') ->
  File.db_data s' = File.db_data s /\ File.self s' = File.self s /\
  File.anidb s' = File.anidb s /\ File.clock s' = File.clock s /\
  File._file_updated s' = File._file_updated s.
Proof.
  unfold _db_commit, try_except. cbn.
  destruct (Db.commit (File.db s)) as [[e|[]] d]; cbn.
  - destruct (decide (e = DBAPIError)); intros Heq; by inversion Heq; subst.
  - intros Heq; by inversion Heq; subst.
Qed.

Lemma ed2khash_frame (s s' : File.state) r :
  File.ed2khash stats hash s = (r, s') ->
  File.db_data s' = File.db_data s /\ File.db s' = File.db s /\
  File.anidb s' = File.anidb s /\ File.clock s' = File.clock s /\
  File._file_updated s' = File._file_updated s /\
  File._path (File.self s') = File._path (File.self s) /\
  File._size (File.self s') = File._size (File.self s).
Proof.
  unfold File.ed2khash.
  destruct (truthy (File._ed2khash (File.self s))); [by intros [= <- <-]|].
  destruct (truthy (File.path s)).
  - unfold bind, lift, File.modify_self, modify, gets, ret.
    destruct (File.db_data s) as [row|] eqn:Hrow.
    + destruct (truthy (File.col row "mtime") && truthy (File.col row "size")
                && truthy (File.col row "ed2khash")).
      * destruct (stats (File.path s)) as [e|st]; [by intros [= <- <-]|].
        destruct (bool_decide (st.1 = File.col row "mtime")
                  && bool_decide (st.2 = File.col row "size")); cbn.
        -- destruct (truthy (File.col row "ed2khash")); cbn; [by intros [= <- <-]|].
           destruct (hash (File._path (File.self s))); cbn; by intros [= <- <-].
        -- destruct (truthy (File._ed2khash (File.self s))); cbn; [by intros [= <- <-]|].
           destruct (hash (File._path (File.self s))); cbn; by intros [= <- <-].
      * destruct (truthy (File._ed2khash (File.self s))); cbn; [by intros [= <- <-]|].
        destruct (hash (File._path (File.self s))); cbn; by intros [= <- <-].
    + destruct (truthy (File._ed2khash (File.self s))); cbn; [by intros [= <- <-]|].
      destruct (hash (File._path (File.self s))); cbn; by intros [= <- <-].
  - unfold bind, lift, File.modify_self, modify, gets, ret.
    destruct (File.db_data s) as [row|] eqn:Hrow; cbn; [|by intros [= <- <-]].
    rewrite Hrow. cbn. by intros [= <- <-].
Qed.

(** The record that the callback merges: the record of the response, with
    the file's own path, size and hash when it has a path, and with the ids
    0 where the record names none. *)
Lemma file_callback_returned res finfo0 (s s' : File.state) :
  File.file_record convs res = inr finfo0 ->
  File._anidb_file_data_callback refresh stats hash convs res s = (inr tt, s') ->
  exists finfo1 finfo s1,
    (finfo1 = finfo0 \/
     exists h, finfo1 = <["ed2khash" := h]>
                          (<["size" := File._size (File.self s)]>
                             (<["path" := File._path (File.self s)]> finfo0))) /\
    finfo = (let f := match finfo1 !! "aid" with
                      | Some _ => finfo1 | None => <["aid" := PInt 0]> finfo1 end in
             match f !! "eid" with Some _ => f | None => <["eid" := PInt 0]> f end) /\
    File.db_data s1 = File.db_data s /\ File.clock s1 = File.clock s /\
    File.db_data s' = File.db_data (File.merge finfo s1) /\
    File._file_updated s' = true.
Proof.
  intros Hrec Hrun. unfold File._anidb_file_data_callback in Hrun.
  unfold bind at 1, lift at 1 in Hrun. rewrite Hrec in Hrun.
  unfold bind at 1 in Hrun.
  destruct (truthy (File._path (File.self s))).
  - unfold bind at 1 in Hrun.
    destruct (File.ed2khash stats hash s) as [[e|h] s1] eqn:Hh; [done|].
    apply ed2khash_frame in Hh as (Hdata & _ & _ & Hclock & _).
    unfold ret at 1 in Hrun. cbn zeta in Hrun.
    unfold bind, modify in Hrun.
    destruct (_db_commit _) as [[e|[]] sc] eqn:Hcommit; [done|].
    apply file_commit_frame in Hcommit as (Hd & _).
    inversion Hrun; subst s'.
    eexists _, _, s1. split; [right; by exists h|]. split; [reflexivity|].
    cbn. by rewrite Hd.
  - unfold ret at 1 in Hrun. cbn zeta in Hrun.
    unfold bind, modify in Hrun.
    destruct (_db_commit _) as [[e|[]] sc] eqn:Hcommit; [done|].
    apply file_commit_frame in Hcommit as (Hd & _).
    inversion Hrun; subst s'.
    eexists _, _, s. split; [by left|]. split; [reflexivity|].
    cbn. by rewrite Hd.
Qed.

Lemma file_merge_row finfo (s : File.state) :
  exists row, File.db_data (File.merge finfo s) = Some row /\
    File.updated row = File.clock s /\
    forall k : string, File.fields row !! k
      = match finfo !! k with
        | Some v => Some v
        | None => File.db_data s ≫= fun r => File.fields r !! k
        end.
Proof.
  unfold File.merge. destruct (File.db_data s) as [row|].
  - eexists. split; [reflexivity|]. split; [done|]. intros k. cbn.
    unfold Db.row_update. rewrite lookup_union.
    by destruct (finfo !! k), (File.fields row !! k).
  - eexists. split; [reflexivity|]. split; [done|]. intros k. cbn.
    by destruct (finfo !! k).
Qed.


Lemma file_convert_field_key (kv kv' : string * pyval) :
  File.convert_field convs kv = inr kv' -> kv'.1 = kv.1.
Proof.
  unfold File.convert_field. destruct (convs !! kv.1) as [conv|]; [|done].
  destruct (conv kv.2) as [e|v]; [done|]. by intros [= <-].
Qed.

Lemma decode_state_other (st : Z) (m : gmap string pyval) (k : string) :
  k <> "crc_ok" -> k <> "file_version" -> k <> "censored" ->
  File.decode_state st m !! k = m !! k.
Proof.
  intros H1 H2 H3. unfold File.decode_state.
  repeat match goal with
         | |- context [if ?b then _ else _] => destruct b
         end; by rewrite ?lookup_insert_ne by done.
Qed.

(** X12: a normal response whose record carries no [state] field makes the
    callback raise, [TypeError] when every field converts, and nothing is
    stored: the cache, the session and the completion event are as they
    were. *)
Theorem response_without_state_raises res finfo others (s : File.state) :
  File.rescode_normal res = true ->
  File.datalines res = finfo :: others ->
  finfo !! "state" = None ->
  File._anidb_file_data_callback refresh stats hash convs res s
  = (match File.convert convs
             (filter (fun kv => ~ (String.prefix "mylist_" (fst kv) = true /\ snd kv = PStr ""))
                (base.delete "state" finfo)) with
     | inl e => inl e
     | inr _ => inl TypeError
     end, s).
Proof.
  intros Hcode Hd Hstate. unfold File.rescode_normal in Hcode.
  apply negb_true_iff in Hcode.
  unfold File._anidb_file_data_callback, bind, lift, File.file_record.
  rewrite Hcode, Hd, Hstate. cbn zeta.
  by destruct (File.convert convs _).
Qed.

(** X13: a field of a normal response whose name begins with "mylist_"
    and whose value is the empty string is dropped before the merge: when
    the callback returns, the cached row holds for it what it held before
    (nothing, for a new row). *)
Theorem empty_mylist_field_kept res finfo others (k : string) (s s' : File.state) :
  File.rescode_normal res = true ->
  File.datalines res = finfo :: others ->
  String.prefix "mylist_" k = true ->
  finfo !! k = Some (PStr "") ->
  File._anidb_file_data_callback refresh stats hash convs res s = (inr tt, s') ->
  exists row,
    File.db_data s' = Some row /\
    File.fields row !! k = (File.db_data s ≫= fun r => File.fields r !! k).
Proof.
  intros Hcode Hd Hprefix Hk Hrun.
  destruct (File.file_record convs res) as [e|finfo0] eqn:Hrec.
  { unfold File._anidb_file_data_callback, bind, lift in Hrun. by rewrite Hrec in Hrun. }
  assert (Hnone : finfo0 !! k = None).
  { unfold File.rescode_normal in Hcode. apply negb_true_iff in Hcode.
    unfold File.file_record in Hrec. rewrite Hcode, Hd in Hrec.
    destruct (match finfo !! "state" with
              | Some v => match int v with inl e => inl e | inr n => inr (Some n) end
              | None => inr None
              end) as [e|state]; [done|]. cbn zeta in Hrec.
    destruct (File.convert convs _) as [e|converted] eqn:Hc; [done|].
    destruct state as [st|]; [|done]. inversion Hrec; subst finfo0.
    rewrite lookup_insert_ne by (intros <-; discriminate Hprefix).
    rewrite decode_state_other by (intros ->; discriminate Hprefix).
    unfold File.convert in Hc.
    destruct (Anime.map_exn (File.convert_field convs) _) as [e|kvs] eqn:Hmap; [done|].
    inversion Hc; subst converted.
    pose proof (convert_fields_lookup (File.convert_field convs) _ kvs k
                  file_convert_field_key Hmap) as Hlook.
    match type of Hlook with
    | match ?m !! k with _ => _ end =>
        assert (Hfiltered : m !! k = None)
    end.
    { apply map_lookup_filter_None. right. intros v Hv Hnot.
      apply Hnot. split; [done|]. cbn.
      rewrite lookup_delete_ne in Hv by (intros <-; discriminate Hprefix).
      rewrite Hk in Hv. by inversion Hv. }
    by rewrite Hfiltered in Hlook. }
  destruct (file_callback_returned res finfo0 s s' Hrec Hrun)
    as (finfo1 & f & s1 & Hfinfo1 & -> & Hdata & Hclock & Hdata' & Hset).
  assert (Hnone1 : finfo1 !! k = None).
  { destruct Hfinfo1 as [->|[h ->]]; [done|].
    by rewrite !lookup_insert_ne by (intros <-; discriminate Hprefix). }
  match type of Hdata' with
  | _ = File.db_data (File.merge ?f s1) =>
      destruct (file_merge_row f s1) as (row & Hrow & _ & Hfields);
      assert (Hnone2 : f !! k = None)
  end.
  { cbn zeta.
    repeat match goal with
           | |- context [match ?m !! ?key with _ => _ end] => destruct (m !! key)
           end; by rewrite ?lookup_insert_ne by (intros <-; discriminate Hprefix). }
  exists row. rewrite Hdata', Hrow. split; [done|].
  by rewrite Hfields, Hnone2, Hdata.
Qed.

End FileCallback.

(** ** The episode of a file and the mylist workflows *)

Section FileMylist.

Variable refresh : bool -> M File.state unit.
Variable stats : pyval -> exn + (pyval * pyval).
Variable hash : pyval -> exn + pyval.
Variable mk_anime : pyval -> exn + Z.
Variable mk_episode : option Z -> pyval -> pyval -> exn + File.episode_obj.
Variable number_of : File.episode_obj -> exn + pyval.
Variable state_map : list (Z * string).

(** X14: the property [episode] of a file without an episode object,
    whose cached row still has no episode id after the blocking refresh: when
    episode numbers were guessed and the anime is known, the property raises
    [NameError] instead of building the episode from the first guessed
    number. *)
Theorem episode_from_guess_raises (s s1 : File.state) row a ep eps :
  File._episode (File.self s) = None ->
  File.lacks "eid" s = true ->
  refresh true s = (inr tt, s1) ->
  File.db_data s1 = Some row ->
  truthy (File.col row "eid") = false ->
  File._multiep (File.self s1) = Some (ep :: eps) ->
  File._anime (File.self s1) = Some a ->
  File.episode refresh mk_anime mk_episode s = (inl NameError, s1).
Proof.
  intros Hnone Hlacks Hrefresh Hrow Heid Hmulti Hanime.
  unfold File.episode. rewrite Hnone.
  unfold bind at 1. rewrite Hlacks. cbn [update File.file_obj]. rewrite Hrefresh.
  unfold bind at 1, File.db_data_attr at 1. rewrite Hrow. unfold ret at 1.
  rewrite Heid. unfold bind at 1. rewrite Hmulti.
  unfold bind at 1, File.anime at 1. by rewrite Hanime.
Qed.





End FileMylist.

(** ** Handing the lock on, and a callback that raises *)

Section LockHandover.

Import Refresh.

Lemma reaches_anyone (P : actor -> Prop) (s0 s : state) :
  reaches P s0 s -> reaches anyone s0 s.
Proof.
  induction 1 as [|s1 s2 s3 a _ IH _ Hstep]; [apply reaches_here|].
  by apply (reaches_step _ _ s2 _ a).
Defined.

Lemma sum_list_with_elem {A} (f : A -> nat) (l : list A) (x : A) :
  x ∈ l -> (f x <= sum_list_with f l)%nat.
Proof.
  induction l as [|y l IH]; intros Hx; [by apply elem_of_nil in Hx|].
  cbn. apply elem_of_cons in Hx as [->|Hx]; [lia|]. specialize (IH Hx). lia.
Qed.

(** X16: the lock is handed on in order.  A refresh thread that is about
    to release the lock does hold it, and its request has been answered; a
    blocking caller that found the lock taken gets it only once no refresh
    thread is alive, so [update(block=True)] returns after the refresh that
    was running has finished. *)
Theorem lock_handed_on_after_refresh (blocks : list bool) (s : state) :
  reaches anyone (initial blocks) s ->
  (Release ∈ refreshers s -> _updating s = true /\ outstanding s = 0%nat) /\
  (ReleaseLock ∈ callers s -> _updating s = true /\ refreshes_in_flight s = 0%nat).
Proof.
  intros Hreach.
  pose proof (invariant_reaches _ _ _ (invariant_initial blocks) Hreach) as [Hlock Hout _ _].
  pose proof (waiting_requesting_alive (refreshers s)) as Hwra.
  unfold holders, refreshes_in_flight in *. split.
  - intros Hin.
    pose proof (sum_list_with_elem (fun r => alive r - waiting r)%nat _ _ Hin) as Hrel.
    assert (Hsplit : (sum_list_with (fun r => alive r - waiting r) (refreshers s)
                      + sum_list_with waiting (refreshers s)
                      <= sum_list_with alive (refreshers s))%nat).
    { clear. induction (refreshers s) as [|[] rs IH]; cbn; lia. }
    cbn in Hrel. destruct (_updating s); [split; [done|] |]; lia.
  - intros Hin.
    pose proof (sum_list_with_elem holds_lock _ _ Hin) as Hheld. cbn in Hheld.
    destruct (_updating s); [split; [done|] |]; lia.
Qed.

Import Stuck.

Lemma wedged_step (a : actor) (s s' : state) :
  wedged s -> step a s s' ->
  wedged s' /\ sent s' = sent s /\ refreshers s' = refreshers s.
Proof.
  intros [Hlock Hev Hout Hcs Hrs] Hstep.
  inversion Hstep; subst;
    try congruence;
    try (match goal with
         | H : refreshers s = _ |- _ =>
             rewrite H in Hrs; apply Forall_app in Hrs as [_ Hrs];
             apply Forall_cons in Hrs as [[Hbad|Hbad] _]; discriminate Hbad
         end);
    try (match goal with
         | H : callers s = _ |- _ => rewrite H, sum_middle in Hcs; cbn in Hcs; lia
         end);
    (split; [|done]); constructor;
    cbn [_updating _updated callers refreshers outstanding sent
         with_lock with_event with_callers with_refreshers with_requests];
    try done;
    match goal with
    | H : callers s = _ |- _ => rewrite H, sum_middle in Hcs; rewrite sum_middle
    end; try destruct b; cbn [holds_lock] in *; lia.
Qed.

Lemma wedged_reaches (s s' : state) :
  wedged s -> reaches anyone s s' ->
  wedged s' /\ sent s' = sent s /\ refreshers s' = refreshers s.
Proof.
  intros Hw Hreach. induction Hreach as [|s1 s2 s3 a _ IH _ Hstep]; [done|].
  destruct (IH Hw) as (Hw2 & Hsent & Hrs).
  destruct (wedged_step a s2 s3 Hw2 Hstep) as (Hw3 & Hsent3 & Hrs3).
  split; [done|]. split; congruence.
Qed.

Lemma alive_all_waiting (rs : list refresher) :
  sum_list_with alive rs = sum_list_with waiting rs ->
  Forall (fun r => r = Wait \/ r = Finished) rs.
Proof.
  induction rs as [|r rs IH]; [constructor|]. cbn. intros Hsum.
  pose proof (waiting_requesting_alive rs).
  destruct r; cbn in Hsum; try lia; constructor; try tauto; apply IH; lia.
Qed.

(** X17: when the callback of the outstanding request raises (so the
    completion event is not set), the entity is never refreshed again.  In
    every state that any further steps of any threads and of the service
    reach, the lock is still held, the event is still unset, no further
    request has been sent, and the refresh threads stand where they stood:
    the one that waits for the event waits for good. *)
Theorem raising_callback_blocks_refresh (blocks : list bool) (s s' : state) (n : nat) :
  reaches anyone (initial blocks) s ->
  outstanding s = S n ->
  reaches anyone (with_requests n (sent s) s) s' ->
  _updating s' = true /\ _updated s' = false /\ outstanding s' = 0%nat /\
  sent s' = sent s /\ refreshers s' = refreshers s /\ Wait ∈ refreshers s'.
Proof.
  intros Hreach Hn Hlater.
  pose proof (invariant_reaches _ _ _ (invariant_initial blocks) Hreach) as [Hlock Hout _ Hev].
  pose proof (waiting_requesting_alive (refreshers s)) as Hwra.
  unfold holders, refreshes_in_flight in *.
  assert (Hheld : _updating s = true) by (destruct (_updating s); [done | lia]).
  rewrite Hheld in Hlock.
  assert (Hw : wedged (with_requests n (sent s) s)).
  { constructor; cbn; [done | | lia | lia |].
    - destruct (_updated s); [|done]. specialize (Hev eq_refl). lia.
    - apply alive_all_waiting. lia. }
  destruct (wedged_reaches _ _ Hw Hlater) as ([Hl He Ho _ Hrs] & Hsent & Hsame).
  cbn in Hsent, Hsame. repeat split; try done.
  rewrite Hsame.
  assert (Hone : (0 < sum_list_with waiting (refreshers s))%nat) by lia.
  clear -Hone. induction (refreshers s) as [|r rs IH]; cbn in Hone; [lia|].
  destruct r; cbn in Hone; try (right; apply IH; lia). left.
Qed.

End LockHandover.

(** ** The further properties on the sample entities *)

Lemma fresh_row_holds_response_witness :
  Anime.relation_view (Anime.merge AnimeExamples.reported ∅ FurtherExamples.uncached)
  = [(2, "B'"); (3, "C")].
Proof.
  destruct (fresh_row_holds_response AnimeExamples.reported ∅ FurtherExamples.uncached eq_refl)
    as (row & _ & _ & _ & _ & Hview & _).
  exact Hview.
Defined.

Lemma merge_mirrors_response_witness :
  Anime.relation_set (Anime.merge AnimeExamples.reported ∅ AnimeExamples.cached)
  = list_to_set [(2, "B'"); (3, "C")].
Proof.
  apply (merge_mirrors_response AnimeExamples.reported ∅ AnimeExamples.cached
           AnimeExamples.cached_row).
  - reflexivity.
  - intros l Hl. cbn in Hl.
    apply elem_of_cons in Hl as [->|Hl]; [cbn; lia|].
    apply list_elem_of_singleton in Hl as ->. cbn; lia.
  - cbn. apply NoDup_cons. split; [|apply NoDup_singleton].
    intros Hin. apply list_elem_of_singleton in Hin. discriminate Hin.
Defined.

Lemma relation_id_not_numeric_witness :
  AnimeExamples.callback FurtherExamples.no_relations AnimeExamples.cached
  = (inl ValueError, AnimeExamples.cached).
Proof.
  apply (relation_id_not_numeric AnimeExamples.relation_map AnimeExamples.no_converters
           FurtherExamples.no_relations
           (<["aid" := PStr "7"]>
              (<["related_aid_list" := PStr ""]> (<["related_aid_type" := PStr ""]> ∅)))
           [] "" ""); reflexivity.
Defined.


Lemma callback_sets_event_when_it_returns_witness :
  Anime._updated (AnimeExamples.callback AnimeExamples.well_formed AnimeExamples.cached).2
  = true.
Proof.
  destruct (callback_sets_event_when_it_returns AnimeExamples.relation_map
              AnimeExamples.no_converters AnimeExamples.well_formed AnimeExamples.cached)
    as [Hret _].
  apply Hret. vm_compute. reflexivity.
Defined.


Lemma epno_conversion_idempotent_witness :
  Episode.convert_field FurtherExamples.no_episode_converters ("epno", PStr "5")
  = inr ("epno", PStr "5").
Proof.
  apply (epno_conversion_idempotent FurtherExamples.no_episode_converters (PStr "05")).
  reflexivity.
Defined.

Lemma matching_row_adopted_witness :
  exists s',
    File.construct_from_path FileExamples.never_refreshed FurtherExamples.same_size
      FileExamples.no_anime FileExamples.no_episode FurtherExamples.show_05
      (File.new [FileExamples.old_row] FileExamples.empty_session 5000 FileExamples.idle)
    = (inr tt, s') /\
    File.db_data s' = Some FileExamples.old_row /\
    File.db s' = FileExamples.empty_session /\
    File.events (File.anidb s') = [].
Proof.
  destruct (matching_row_adopted FileExamples.never_refreshed FurtherExamples.same_size
              FileExamples.no_anime FileExamples.no_episode FurtherExamples.show_05
              (PInt 1700000000) (PInt 100)
              [FileExamples.old_row] FileExamples.empty_session 5000 FileExamples.idle
              FileExamples.old_row [])
    as (s' & Hrun & Hdata & Hdb & Hlink & _).
  - reflexivity.
  - reflexivity.
  - vm_compute. reflexivity.
  - vm_compute. reflexivity.
  - exists s'. split; [exact Hrun|]. split; [exact Hdata|]. split; [exact Hdb|].
    by rewrite Hlink.
Defined.

Lemma fid_lookup_skips_size_check_witness :
  exists s',
    File.__init__ FileExamples.never_refreshed FileExamples.probe
      FileExamples.no_anime FileExamples.no_episode FurtherExamples.show_05 (PStr "9001")
      Episode.NoAnime File.NoEpisode
      (File.new [FileExamples.old_row] FileExamples.empty_session 5000 FileExamples.idle)
    = (inr tt, s') /\
    File.db_data s' = Some FileExamples.old_row /\
    File._size (File.self s') = PInt 200 /\
    File.col FileExamples.old_row "size" = PInt 100 /\
    File.db s' = FileExamples.empty_session.
Proof.
  destruct (fid_lookup_skips_size_check FileExamples.never_refreshed FileExamples.probe
              FileExamples.no_anime FileExamples.no_episode FurtherExamples.show_05
              (PStr "9001") 9001 (PInt 1700000000) (PInt 200)
              [FileExamples.old_row] FileExamples.empty_session 5000 FileExamples.idle
              FileExamples.old_row [])
    as (s' & Hrun & Hdata & Hdb & _).
  - reflexivity.
  - vm_compute. reflexivity.
  - discriminate.
  - reflexivity.
  - vm_compute. reflexivity.
  - exists s'. split; [exact Hrun|]. split; [exact Hdata|].
    split; [vm_compute in Hrun; by inversion Hrun|]. split; [reflexivity | exact Hdb].
Defined.

Lemma ed2khash_reuses_cached_hash_witness :
  File.ed2khash FurtherExamples.same_size FurtherExamples.no_hash FurtherExamples.unhashed
  = (inr (PStr "abc"),
     File.set_self (File.set_ed2khash (PStr "abc") (File.self FurtherExamples.unhashed))
       FurtherExamples.unhashed) /\
  (File.ed2khash FileExamples.probe FurtherExamples.no_hash FurtherExamples.unhashed).1
  = inl IndexError.
Proof.
  split.
  - apply (ed2khash_reuses_cached_hash FurtherExamples.same_size FurtherExamples.no_hash
             FurtherExamples.unhashed FurtherExamples.hashed_row
             (PInt 1700000000) (PInt 100) eq_refl eq_refl eq_refl eq_refl eq_refl eq_refl
             eq_refl).
    split; reflexivity.
  - rewrite (proj2 (ed2khash_reuses_cached_hash FileExamples.probe FurtherExamples.no_hash
                      FurtherExamples.unhashed FurtherExamples.hashed_row
                      (PInt 1700000000) (PInt 200) eq_refl eq_refl eq_refl eq_refl eq_refl
                      eq_refl eq_refl)); [reflexivity|].
    right. discriminate.
Defined.


Lemma response_without_state_raises_witness :
  File._anidb_file_data_callback MylistExamples.nothing_new FileExamples.probe
    MylistExamples.hash FurtherExamples.no_file_converters
    FurtherExamples.empty_record MylistExamples.two_episodes
  = (inl TypeError, MylistExamples.two_episodes).
Proof.
  rewrite (response_without_state_raises MylistExamples.nothing_new FileExamples.probe
             MylistExamples.hash FurtherExamples.no_file_converters
             FurtherExamples.empty_record ∅ [] MylistExamples.two_episodes);
    reflexivity.
Defined.

Lemma empty_mylist_field_kept_witness :
  exists row,
    File.db_data
      (File._anidb_file_data_callback MylistExamples.nothing_new FurtherExamples.same_size
         FurtherExamples.no_hash FurtherExamples.no_file_converters
         FurtherExamples.empty_mylist_state FurtherExamples.unhashed).2 = Some row /\
    File.fields row !! "mylist_state" = Some (PStr "on hdd").
Proof.
  destruct (empty_mylist_field_kept MylistExamples.nothing_new FurtherExamples.same_size
              FurtherExamples.no_hash FurtherExamples.no_file_converters
              FurtherExamples.empty_mylist_state
              (<["state" := PStr "1"]> (<["mylist_state" := PStr ""]> ∅)) [] "mylist_state"
              FurtherExamples.unhashed
              (File._anidb_file_data_callback MylistExamples.nothing_new
                 FurtherExamples.same_size FurtherExamples.no_hash
                 FurtherExamples.no_file_converters
                 FurtherExamples.empty_mylist_state FurtherExamples.unhashed).2)
    as (row & Hrow & Hkept).
  - reflexivity.
  - reflexivity.
  - reflexivity.
  - reflexivity.
  - vm_compute. reflexivity.
  - exists row. split; [exact Hrow | exact Hkept].
Defined.

Lemma episode_from_guess_raises_witness :
  File.episode MylistExamples.nothing_new FileExamples.no_anime FileExamples.no_episode
    FurtherExamples.guessed
  = (inl NameError, FurtherExamples.guessed).
Proof.
  apply (episode_from_guess_raises MylistExamples.nothing_new FileExamples.no_anime
           FileExamples.no_episode FurtherExamples.guessed FurtherExamples.guessed
           FurtherExamples.guessed_row 7 "1" ["2"]); reflexivity.
Defined.


Lemma stale_row_commit_refused_witness :
  exists s',
    File.construct_from_path FileExamples.never_refreshed FileExamples.probe
      FileExamples.no_anime FileExamples.no_episode FurtherExamples.show_05
      (File.new [FileExamples.old_row] FurtherExamples.refusing_session 5000 FileExamples.idle)
    = (inr tt, s') /\
    File.db_data s' = None /\
    Db.pending (File.db s') = [] /\
    Db.durable (File.db s') = [].
Proof.
  destruct (stale_row_commit_refused FileExamples.never_refreshed FileExamples.probe
              FileExamples.no_anime FileExamples.no_episode FurtherExamples.show_05
              (PInt 1700000000) (PInt 200)
              [FileExamples.old_row] FurtherExamples.refusing_session 5000 FileExamples.idle
              FileExamples.old_row [] [])
    as (s' & Hrun & Hdata & _ & Hpending & Hdurable).
  - reflexivity.
  - reflexivity.
  - vm_compute. reflexivity.
  - vm_compute. discriminate.
  - reflexivity.
  - exists s'. split; [exact Hrun|]. split; [exact Hdata|]. split; [exact Hpending|].
    exact Hdurable.
Defined.

Lemma remove_by_size_and_hash_witness :
  exists s',
    MylistExamples.remove = (inr tt, s') /\
    File.events (File.anidb s') =
      [File.Sent (File.mkCommand "MyListDelCommand" [("size", PInt 100); ("ed2k", PStr "abc")])
         true;
       File.Answered
         (File.mkCommand "MyListDelCommand" [("size", PInt 100); ("ed2k", PStr "abc")])].
Proof.
  destruct (remove_by_size_and_hash MylistExamples.nothing_new FileExamples.probe
              MylistExamples.hash FileExamples.no_anime FileExamples.no_episode
              MylistExamples.number_of MylistExamples.two_episodes MylistExamples.generic_row)
    as (s' & Hrun & Hev).
  - reflexivity.
  - vm_compute. reflexivity.
  - reflexivity.
  - reflexivity.
  - reflexivity.
  - reflexivity.
  - exists s'. split; [exact Hrun | exact Hev].
Defined.


Lemma lock_handed_on_after_refresh_witness :
  Refresh.reaches Refresh.anyone (Refresh.initial [false; false]) RefreshRuns.woken /\
  Refresh._updating RefreshRuns.woken = true /\
  Refresh.outstanding RefreshRuns.woken = 0%nat.
Proof.
  assert (Hreach : Refresh.reaches Refresh.anyone (Refresh.initial [false; false])
                     RefreshRuns.woken).
  { apply (Refresh.reaches_step _ _ RefreshRuns.answered _ Refresh.Thread); [|exact I|].
    2: exact (Refresh.step_woken RefreshRuns.answered [] [] eq_refl eq_refl).
    apply (Refresh.reaches_step _ _ RefreshExamples.both_returned _ Refresh.Service);
      [|exact I|].
    2: exact (Refresh.step_callback RefreshExamples.both_returned 0 eq_refl).
    exact (reaches_anyone _ _ _ both_returned_reached). }
  split; [exact Hreach|].
  destruct (lock_handed_on_after_refresh [false; false] RefreshRuns.woken Hreach)
    as [Hrelease _].
  apply Hrelease. left.
Defined.

Lemma raising_callback_blocks_refresh_witness :
  Refresh.reaches Refresh.anyone (Refresh.initial [false; false])
    RefreshExamples.both_returned /\
  Refresh._updating RefreshRuns.failed = true /\
  Refresh._updated RefreshRuns.failed = false /\
  Refresh.refreshers RefreshRuns.failed = [Refresh.Wait].
Proof.
  pose proof (reaches_anyone _ _ _ both_returned_reached) as Hreach.
  split; [exact Hreach|].
  destruct (raising_callback_blocks_refresh [false; false] RefreshExamples.both_returned
              RefreshRuns.failed 0 Hreach eq_refl (Refresh.reaches_here _ _))
    as (Hlock & Hev & _ & _ & Hrs & _).
  split; [exact Hlock|]. split; [exact Hev | exact Hrs].
Defined.

(** ** The refresh of a file *)

Section FileRefreshed.

Import FileRefresh FileRefreshFrame FileRefreshSteps.

Variable answer : File.command -> File.response.
Variable stats : pyval -> exn + (pyval * pyval).
Variable hash : pyval -> exn + pyval.
Variable mk_anime : pyval -> exn + Z.
Variable mk_episode : option Z -> pyval -> pyval -> exn + File.episode_obj.
Variable number_of : File.episode_obj -> exn + pyval.
Variable eid_of : File.episode_obj -> exn + pyval.
Variable fconvs : gmap string (pyval -> exn + pyval).
Variable mconvs : gmap string (pyval -> exn + pyval).
Variable fmask : pyval.
Variable amask : pyval.
Variable guess : pyval -> exn + option (Z * list string).

Notation "'refresh_file'" :=
  (_send_anidb_update_req answer stats hash mk_anime mk_episode number_of eid_of
     fconvs mconvs fmask amask guess).
Notation "'mylist_callback'" := (_anidb_mylist_data_callback stats hash mconvs).
Notation "'file_callback'" :=
  (File._anidb_file_data_callback update_while_refreshing stats hash fconvs).
Notation "'answer_to'" := (run_callback answer stats hash fconvs mconvs).
Notation "'wait_for'" := (serve answer stats hash fconvs mconvs).

Lemma ed2khash_self (f f' : File.state) r :
  File.ed2khash stats hash f = (r, f') ->
  f' = f \/ exists h, f' = File.set_self (File.set_ed2khash h (File.self f)) f.
Proof.
  unfold File.ed2khash.
  destruct (truthy (File._ed2khash (File.self f))) eqn:Hh; [intros [= <- <-]; by left|].
  destruct (truthy (File.path f)).
  - unfold bind, lift, File.modify_self, modify, gets, ret.
    destruct (File.db_data f) as [row|] eqn:Hrow.
    + destruct (truthy (File.col row "mtime") && truthy (File.col row "size")
                && truthy (File.col row "ed2khash")).
      * destruct (stats (File.path f)) as [e|st]; [intros [= <- <-]; by left|].
        destruct (bool_decide (st.1 = File.col row "mtime")
                  && bool_decide (st.2 = File.col row "size")); cbn.
        -- destruct (truthy (File.col row "ed2khash")); cbn;
             [intros [= <- <-]; right; by eexists|].
           destruct (hash (File._path (File.self f))); cbn; intros [= <- <-].
           ++ right. by eexists.
           ++ right. destruct f as [[]]. by eexists.
        -- rewrite Hh. cbn.
           destruct (hash (File._path (File.self f))); cbn; intros [= <- <-];
             [by left | right; by eexists].
      * rewrite Hh. cbn.
        destruct (hash (File._path (File.self f))); cbn; intros [= <- <-];
          [by left | right; by eexists].
    + rewrite Hh. cbn.
      destruct (hash (File._path (File.self f))); cbn; intros [= <- <-];
        [by left | right; by eexists].
  - unfold bind, lift, File.modify_self, modify, gets, ret.
    destruct (File.db_data f) as [row|] eqn:Hrow; cbn; [|intros [= <- <-]; by left].
    rewrite Hrow. cbn. intros [= <- <-]. right. by eexists.
Qed.

Lemma ed2khash_attributes (f f' : File.state) r :
  File.ed2khash stats hash f = (r, f') ->
  attributes f' = attributes f /\ File.anidb f' = File.anidb f /\
  File._file_updated f' = File._file_updated f /\ File.db_data f' = File.db_data f /\
  File.clock f' = File.clock f.
Proof.
  intros Hrun. apply ed2khash_self in Hrun as [->|[h ->]]; done.
Qed.

Lemma file_callback_frame res (f f' : File.state) r :
  file_callback res f = (r, f') ->
  attributes f' = attributes f /\ File.anidb f' = File.anidb f /\
  File._file_updated f' = match r with
                          | inr _ => true
                          | inl _ => File._file_updated f
                          end.
Proof.
  unfold File._anidb_file_data_callback.
  unfold bind at 1, lift at 1.
  destruct (File.file_record fconvs res) as [e|finfo0]; [by intros [= <- <-]|].
  unfold bind at 1.
  destruct (truthy (File._path (File.self f))).
  - unfold bind at 1.
    destruct (File.ed2khash stats hash f) as [[e|h] f1] eqn:Hh;
      apply ed2khash_attributes in Hh as (Ha & Hl & Hu & _);
      [intros [= <- <-]; done|].
    unfold ret at 1. cbn zeta. unfold bind, modify.
    destruct (_db_commit _) as [[e|[]] fc] eqn:Hcommit;
      apply file_commit_frame in Hcommit as (_ & Hself & Hlink & _ & Hupd);
      intros [= <- <-]; unfold attributes in *; cbn; rewrite ?Hself, ?Hlink, ?Hupd;
      unfold File.merge; destruct (File.db_data f1); cbn; done.
  - unfold ret at 1. cbn zeta. unfold bind, modify.
    destruct (_db_commit _) as [[e|[]] fc] eqn:Hcommit;
      apply file_commit_frame in Hcommit as (_ & Hself & Hlink & _ & Hupd);
      intros [= <- <-]; unfold attributes in *; cbn; rewrite ?Hself, ?Hlink, ?Hupd;
      unfold File.merge; destruct (File.db_data f); cbn; done.
Qed.

Lemma mylist_callback_frame res (s s' : state) r :
  mylist_callback res s = (r, s') ->
  identity s' = identity s /\ File.anidb (file s') = File.anidb (file s) /\
  File._file_updated (file s') = File._file_updated (file s) /\
  _mylist_updated s' = match r with
                       | inr _ => true
                       | inl _ => _mylist_updated s
                       end.
Proof.
  unfold _anidb_mylist_data_callback.
  unfold bind at 1, lift at 1.
  destruct (mylist_record mconvs res) as [e|finfo0]; [by intros [= <- <-]|].
  unfold bind at 1, on_file at 1.
  destruct (truthy (File._path (File.self (file s)))).
  - unfold bind at 1.
    destruct (File.ed2khash stats hash (file s)) as [[e|h] f1] eqn:Hh;
      apply ed2khash_attributes in Hh as (Ha & Hl & Hu & _);
      [intros [= <- <-]; unfold identity; cbn; by rewrite Ha|].
    unfold ret at 1. unfold bind, on_file, modify. cbn [file set_file].
    destruct (_db_commit _) as [[e|[]] fc] eqn:Hcommit;
      apply file_commit_frame in Hcommit as (_ & Hself & Hlink & _ & Hupd);
      intros [= <- <-]; unfold identity, attributes in *; cbn; rewrite ?Hself, ?Hlink, ?Hupd;
      unfold File.merge; destruct (File.db_data f1); cbn; by rewrite ?Ha, ?Hl, ?Hu.
  - unfold ret at 1. unfold bind, on_file, modify. cbn [file set_file].
    destruct (_db_commit _) as [[e|[]] fc] eqn:Hcommit;
      apply file_commit_frame in Hcommit as (_ & Hself & Hlink & _ & Hupd);
      intros [= <- <-]; unfold identity, attributes in *; cbn; rewrite ?Hself, ?Hlink, ?Hupd;
      unfold File.merge; destruct (File.db_data (file s)); cbn; done.
Qed.

(** What the link changes when it answers a request: the queue and the
    events of the link; the callback sets its own event or none. *)
Lemma answer_frame req (s : state) :
  identity (answer_to req s) = identity s /\
  File.events (File.anidb (file (answer_to req s)))
    = File.events (File.anidb (file s)) ++ [File.Answered req] /\
  File.inflight (File.anidb (file (answer_to req s)))
    = tl (File.inflight (File.anidb (file s))) /\
  (_mylist_updated s = true -> _mylist_updated (answer_to req s) = true) /\
  (File._file_updated (file s) = true -> File._file_updated (file (answer_to req s)) = true) /\
  (File.name req = "FileCommand" -> _mylist_updated (answer_to req s) = _mylist_updated s) /\
  (File.name req <> "FileCommand" ->
   File._file_updated (file (answer_to req s)) = File._file_updated (file s)).
Proof.
  unfold run_callback. cbn zeta.
  set (s1 := (on_file _ s).2).
  assert (H1 : identity s1 = identity s /\
               File.events (File.anidb (file s1))
                 = File.events (File.anidb (file s)) ++ [File.Answered req] /\
               File.inflight (File.anidb (file s1)) = tl (File.inflight (File.anidb (file s))) /\
               _mylist_updated s1 = _mylist_updated s /\
               File._file_updated (file s1) = File._file_updated (file s)) by done.
  clearbody s1. destruct H1 as (Hid & Hev & Hin & Hm & Hf).
  assert (Hlock : _updating s1 = _updating s) by exact (f_equal fst Hid).
  assert (Hattr : attributes (file s1) = attributes (file s)) by exact (f_equal snd Hid).
  destruct (String.eqb_spec (File.name req) "FileCommand") as [Hname|Hname].
  - unfold on_file.
    destruct (file_callback (answer req) (file s1)) as [r f'] eqn:Hcb.
    apply file_callback_frame in Hcb as (Ha & Hl & Hu).
    unfold identity. cbn [snd file set_file _updating _mylist_updated].
    rewrite Ha, Hl, Hu, Hev, Hin, Hm, Hlock, Hattr.
    repeat split; try done. intros Hset. rewrite Hf, Hset. by destruct r.
  - destruct (mylist_callback (answer req) s1) as [r s'] eqn:Hcb.
    apply mylist_callback_frame in Hcb as (Hid' & Hl & Hu & Hm').
    cbn [snd]. rewrite Hid', Hl, Hu, Hm', Hev, Hin, Hm, Hf.
    unfold identity. rewrite Hlock, Hattr.
    repeat split; try done. intros Hset. rewrite Hset. by destruct r.
Qed.

Lemma wait_event_set (event : state -> bool) (s : state) :
  event s = true -> wait_event answer stats hash fconvs mconvs event s = (inr tt, s).
Proof.
  intros Hset. unfold wait_event.
  destruct (File.inflight (File.anidb (file s))); cbn; by rewrite Hset.
Qed.

Lemma wait_event_one (event : state -> bool) (s : state) req :
  File.inflight (File.anidb (file s)) = [req] ->
  event s = false ->
  wait_event answer stats hash fconvs mconvs event s
  = (if event (answer_to req s) then inr tt else inl Blocked, answer_to req s).
Proof.
  intros Hin Hunset. unfold wait_event. rewrite Hin. cbn. rewrite Hunset.
  by destruct (event (answer_to req s)).
Qed.

Lemma wait_event_none (event : state -> bool) (s : state) :
  File.inflight (File.anidb (file s)) = [] ->
  event s = false ->
  wait_event answer stats hash fconvs mconvs event s = (inl Blocked, s).
Proof.
  intros Hin Hunset. unfold wait_event. rewrite Hin. cbn. by rewrite Hunset.
Qed.

(** The refresh of a file whose id is known, step by step. *)
Lemma refresh_by_fid prio (s : state) :
  truthy (File._fid (File.self (file s))) = true ->
  File.inflight (File.anidb (file s)) = [] ->
  let freq := File.mkCommand "FileCommand"
                [("fid", File._fid (File.self (file s))); ("fmask", fmask); ("amask", amask)] in
  let mreq := File.mkCommand "MyListCommand" [("fid", File._fid (File.self (file s)))] in
  let s2 := answer_to freq (sent freq prio (cleared s)) in
  let s3 := sent mreq prio s2 in
  refresh_file prio s =
    if File._file_updated (file s2) then
      if _mylist_updated s3 then (inr tt, set_updating false s3)
      else if _mylist_updated (answer_to mreq s3)
           then (inr tt, set_updating false (answer_to mreq s3))
           else (inl Blocked, answer_to mreq s3)
    else (inl Blocked, s2).
Proof.
  intros Hfid Hidle freq mreq s2 s3. unfold _send_anidb_update_req.
  unfold bind at 1, on_file at 1. rewrite Hfid.
  unfold bind at 1, modify at 1, File.request at 1, File.modify_link at 1, modify at 1.
  change (set_file _ s) with (sent freq prio (cleared s)).
  unfold bind at 1.
  rewrite (wait_event_one _ (sent freq prio (cleared s)) freq);
    [|cbn; by rewrite Hidle|done].
  fold s2.
  destruct (File._file_updated (file s2)) eqn:Hfile; [|done].
  destruct (answer_frame freq (sent freq prio (cleared s))) as (Hid & Hev & Hin & _).
  fold s2 in Hid, Hev, Hin.
  assert (Hfid2 : File._fid (File.self (file s2)) = File._fid (File.self (file s))).
  { exact (f_equal (fun i => i.2.1.1.1) Hid). }
  unfold bind at 1, on_file at 1. rewrite Hfid2, Hfid. unfold ret at 1.
  unfold bind at 1, on_file at 1, File.request at 1, File.modify_link at 1, modify at 1.
  change (set_file _ (set_file (file s2) s2)) with (sent mreq prio s2). fold s3.
  destruct (_mylist_updated s3) eqn:Hmy.
  - unfold bind at 1. by rewrite (wait_event_set _ s3 Hmy).
  - unfold bind at 1. rewrite (wait_event_one _ s3 mreq); [| |done].
    + by destruct (_mylist_updated (answer_to mreq s3)).
    + unfold s3, sent at 1. cbn [file set_file File.anidb File.set_link File.inflight].
      rewrite Hin. cbn. by rewrite Hidle.
Qed.

Lemma sent_cleared_frame req prio (s : state) :
  File.events (File.anidb (file (sent req prio (cleared s))))
    = File.events (File.anidb (file s)) ++ [File.Sent req prio] /\
  _mylist_updated (sent req prio (cleared s)) = _mylist_updated s /\
  identity (sent req prio (cleared s)) = identity s.
Proof. done. Qed.

Lemma sent_frame req prio (s : state) :
  File.events (File.anidb (file (sent req prio s)))
    = File.events (File.anidb (file s)) ++ [File.Sent req prio] /\
  _mylist_updated (sent req prio s) = _mylist_updated s /\
  File._file_updated (file (sent req prio s)) = File._file_updated (file s) /\
  identity (sent req prio s) = identity s.
Proof. done. Qed.

(** X21: the first refresh of a file whose id is known, when it returns:
    the file request was sent and answered, then the mylist request was sent
    and answered, both keyed by the file id, and only then was the lock
    released; both events are set and nothing is left in flight. *)
Theorem first_refresh_by_fid prio (s s' : state) :
  truthy (File._fid (File.self (file s))) = true ->
  File.inflight (File.anidb (file s)) = [] ->
  _mylist_updated s = false ->
  refresh_file prio s = (inr tt, s') ->
  let freq := File.mkCommand "FileCommand"
                [("fid", File._fid (File.self (file s))); ("fmask", fmask); ("amask", amask)] in
  let mreq := File.mkCommand "MyListCommand" [("fid", File._fid (File.self (file s)))] in
  File.events (File.anidb (file s')) =
    File.events (File.anidb (file s))
    ++ [File.Sent freq prio; File.Answered freq; File.Sent mreq prio; File.Answered mreq] /\
  File.inflight (File.anidb (file s')) = [] /\
  _updating s' = false /\
  File._file_updated (file s') = true /\
  _mylist_updated s' = true.
Proof.
  intros Hfid Hidle Hmy Hrun freq mreq.
  rewrite (refresh_by_fid prio s Hfid Hidle) in Hrun. cbn zeta in Hrun.
  fold freq mreq in Hrun.
  set (s1 := sent freq prio (cleared s)) in *.
  set (s2 := answer_to freq s1) in *.
  set (s3 := sent mreq prio s2) in *.
  set (s4 := answer_to mreq s3) in *.
  destruct (sent_cleared_frame freq prio s) as (Hev1 & Hmy1 & _).
  destruct (answer_frame freq s1) as (_ & Hev2 & Hin2 & _ & _ & Hmy2 & _).
  destruct (sent_frame mreq prio s2) as (Hev3 & Hmy3 & Hf3 & _).
  destruct (answer_frame mreq s3) as (_ & Hev4 & Hin4 & _ & Hf4 & _).
  fold s1 in Hev1, Hmy1. fold s2 in Hev2, Hin2, Hmy2. fold s3 in Hev3, Hmy3, Hf3.
  fold s4 in Hev4, Hin4, Hf4.
  destruct (File._file_updated (file s2)) eqn:Hfile; [|done].
  rewrite Hmy3, (Hmy2 eq_refl), Hmy1, Hmy in Hrun.
  destruct (_mylist_updated s4) eqn:Hmy4; [|done].
  inversion Hrun; subst s'. cbn [file set_updating _updating _mylist_updated].
  rewrite Hev4, Hev3, Hev2, Hev1, <- !app_assoc. split; [done|].
  split.
  { rewrite Hin4. unfold s3, sent. cbn [file set_file File.anidb File.set_link File.inflight].
    rewrite Hin2. unfold s1, sent. cbn. by rewrite Hidle. }
  split; [done|]. split; [|done].
  apply Hf4. by rewrite Hf3.
Qed.

(** X22: a later refresh of the same file.  The event [_mylist_updated],
    once set, is never cleared, so a refresh that finds it set does not wait
    for the mylist answer: when it returns, the lock is released while the
    mylist request is still in flight, its answer not yet merged. *)
Theorem later_refresh_skips_mylist_wait prio (s s' : state) :
  truthy (File._fid (File.self (file s))) = true ->
  File.inflight (File.anidb (file s)) = [] ->
  _mylist_updated s = true ->
  refresh_file prio s = (inr tt, s') ->
  let freq := File.mkCommand "FileCommand"
                [("fid", File._fid (File.self (file s))); ("fmask", fmask); ("amask", amask)] in
  let mreq := File.mkCommand "MyListCommand" [("fid", File._fid (File.self (file s)))] in
  File.events (File.anidb (file s')) =
    File.events (File.anidb (file s))
    ++ [File.Sent freq prio; File.Answered freq; File.Sent mreq prio] /\
  File.inflight (File.anidb (file s')) = [mreq] /\
  _updating s' = false /\
  _mylist_updated s' = true.
Proof.
  intros Hfid Hidle Hmy Hrun freq mreq.
  rewrite (refresh_by_fid prio s Hfid Hidle) in Hrun. cbn zeta in Hrun.
  fold freq mreq in Hrun.
  set (s1 := sent freq prio (cleared s)) in *.
  set (s2 := answer_to freq s1) in *.
  set (s3 := sent mreq prio s2) in *.
  destruct (sent_cleared_frame freq prio s) as (Hev1 & Hmy1 & _).
  destruct (answer_frame freq s1) as (_ & Hev2 & Hin2 & _ & _ & Hmy2 & _).
  destruct (sent_frame mreq prio s2) as (Hev3 & Hmy3 & _).
  fold s1 in Hev1, Hmy1. fold s2 in Hev2, Hin2, Hmy2. fold s3 in Hev3, Hmy3.
  destruct (File._file_updated (file s2)) eqn:Hfile; [|done].
  rewrite Hmy3, (Hmy2 eq_refl), Hmy1, Hmy in Hrun.
  inversion Hrun; subst s'. cbn [file set_updating _updating _mylist_updated].
  rewrite Hev3, Hev2, Hev1, <- !app_assoc. split; [done|].
  split.
  { unfold s3, sent. cbn [file set_file File.anidb File.set_link File.inflight].
    rewrite Hin2. unfold s1, sent. cbn. by rewrite Hidle. }
  split; [done|]. by rewrite Hmy3, (Hmy2 eq_refl), Hmy1.
Qed.

Lemma mylist_callback_312 res (s : state) :
  File.rescode res = "312" -> mylist_callback res s = (inl AniDBFileError, s).
Proof.
  intros Hcode. unfold _anidb_mylist_data_callback, bind, lift, mylist_record.
  by rewrite Hcode.
Qed.

(** X23: when the service answers the mylist request with 312 (several
    mylist entries for the episode), the callback raises [AniDBFileError]
    and sets no event; the first refresh of a file whose id is known then
    never returns: the thread waits for good, with the lock still held. *)
Theorem several_mylist_entries_block_refresh prio (s : state) :
  truthy (File._fid (File.self (file s))) = true ->
  File.inflight (File.anidb (file s)) = [] ->
  _mylist_updated s = false ->
  File.rescode
    (answer (File.mkCommand "MyListCommand" [("fid", File._fid (File.self (file s)))]))
  = "312" ->
  exists s',
    refresh_file prio s = (inl Blocked, s') /\
    _updating s' = _updating s /\
    _mylist_updated s' = false.
Proof.
  intros Hfid Hidle Hmy Hcode.
  rewrite (refresh_by_fid prio s Hfid Hidle). cbn zeta.
  set (freq := File.mkCommand "FileCommand" _).
  set (mreq := File.mkCommand "MyListCommand" _) in *.
  set (s1 := sent freq prio (cleared s)).
  set (s2 := answer_to freq s1).
  set (s3 := sent mreq prio s2).
  destruct (sent_cleared_frame freq prio s) as (_ & Hmy1 & Hid1).
  destruct (answer_frame freq s1) as (Hid2 & _ & _ & _ & _ & Hmy2 & _).
  destruct (sent_frame mreq prio s2) as (_ & Hmy3 & _ & Hid3).
  destruct (answer_frame mreq s3) as (Hid4 & _).
  fold s1 in Hmy1, Hid1. fold s2 in Hid2, Hmy2. fold s3 in Hmy3, Hid3, Hid4.
  assert (Hmy' : _mylist_updated s3 = false) by (by rewrite Hmy3, (Hmy2 eq_refl), Hmy1).
  assert (Hanswer : _mylist_updated (answer_to mreq s3) = false).
  { unfold run_callback. cbn zeta.
    change (File.name mreq =? "FileCommand")%string with false. cbn match.
    rewrite (mylist_callback_312 _ _ Hcode). cbn [snd]. exact Hmy'. }
  destruct (File._file_updated (file s2)).
  - rewrite Hmy', Hanswer. eexists. split; [reflexivity|]. split; [|done].
    change (_updating ?x) with (identity x).1. by rewrite Hid4, Hid3, Hid2, Hid1.
  - eexists. split; [reflexivity|]. split.
    + change (_updating ?x) with (identity x).1. by rewrite Hid2, Hid1.
    + by rewrite (Hmy2 eq_refl), Hmy1.
Qed.

(** X24: a file that has neither an id nor a path (one built from an
    anime and an episode).  Its refresh sends no request and waits for the
    event [_file_updated], which only the callback of a file request sets:
    the thread waits for good and nothing has changed, the lock included. *)
Theorem refresh_without_fid_or_path_blocks prio (s : state) :
  truthy (File._fid (File.self (file s))) = false ->
  truthy (File._path (File.self (file s))) = false ->
  File._file_updated (file s) = false ->
  File.inflight (File.anidb (file s)) = [] ->
  refresh_file prio s = (inl Blocked, s).
Proof.
  intros Hfid Hpath Hunset Hidle. unfold _send_anidb_update_req.
  unfold bind at 1, on_file at 1. rewrite Hfid, Hpath, andb_false_r. unfold ret at 1.
  assert (Hsame : set_file (file s) s = s) by (by destruct s).
  rewrite Hsame. unfold bind at 1.
  by rewrite (wait_event_none _ s Hidle Hunset).
Qed.





End FileRefreshed.

Lemma first_refresh_by_fid_witness :
  (FileRefreshExamples.refresh FileRefreshExamples.service FileRefreshExamples.first_time).1
  = inr tt /\
  File.events (File.anidb (FileRefresh.file
    (FileRefreshExamples.refresh FileRefreshExamples.service
       FileRefreshExamples.first_time).2))
  = [File.Sent FileRefreshExamples.file_request false;
     File.Answered FileRefreshExamples.file_request;
     File.Sent FileRefreshExamples.mylist_request false;
     File.Answered FileRefreshExamples.mylist_request] /\
  FileRefresh._updating
    (FileRefreshExamples.refresh FileRefreshExamples.service
       FileRefreshExamples.first_time).2 = false.
Proof.
  split; [vm_compute; reflexivity|].
  destruct (first_refresh_by_fid FileRefreshExamples.service FurtherExamples.same_size
              FurtherExamples.no_hash FileExamples.no_anime FileExamples.no_episode
              MylistExamples.number_of FileRefreshExamples.no_eid
              FileRefreshExamples.no_converters FileRefreshExamples.no_converters
              (PStr "7ff8fef8") (PStr "00000000") FileRefreshExamples.no_guess false
              FileRefreshExamples.first_time
              (FileRefreshExamples.refresh FileRefreshExamples.service
                 FileRefreshExamples.first_time).2)
    as (Hev & _ & Hlock & _).
  - reflexivity.
  - reflexivity.
  - reflexivity.
  - vm_compute. reflexivity.
  - split; [exact Hev | exact Hlock].
Defined.

Lemma later_refresh_skips_mylist_wait_witness :
  (FileRefreshExamples.refresh FileRefreshExamples.service FileRefreshExamples.later_time).1
  = inr tt /\
  File.inflight (File.anidb (FileRefresh.file
    (FileRefreshExamples.refresh FileRefreshExamples.service
       FileRefreshExamples.later_time).2))
  = [FileRefreshExamples.mylist_request] /\
  FileRefresh._updating
    (FileRefreshExamples.refresh FileRefreshExamples.service
       FileRefreshExamples.later_time).2 = false.
Proof.
  split; [vm_compute; reflexivity|].
  destruct (later_refresh_skips_mylist_wait FileRefreshExamples.service
              FurtherExamples.same_size
              FurtherExamples.no_hash FileExamples.no_anime FileExamples.no_episode
              MylistExamples.number_of FileRefreshExamples.no_eid
              FileRefreshExamples.no_converters FileRefreshExamples.no_converters
              (PStr "7ff8fef8") (PStr "00000000") FileRefreshExamples.no_guess false
              FileRefreshExamples.later_time
              (FileRefreshExamples.refresh FileRefreshExamples.service
                 FileRefreshExamples.later_time).2)
    as (_ & Hin & Hlock & _).
  - reflexivity.
  - reflexivity.
  - reflexivity.
  - vm_compute. reflexivity.
  - split; [exact Hin | exact Hlock].
Defined.

Lemma several_mylist_entries_block_refresh_witness :
  exists s',
    FileRefreshExamples.refresh FileRefreshExamples.several_entries
      FileRefreshExamples.first_time = (inl Blocked, s') /\
    FileRefresh._updating s' = true.
Proof.
  destruct (several_mylist_entries_block_refresh FileRefreshExamples.several_entries
              FurtherExamples.same_size
              FurtherExamples.no_hash FileExamples.no_anime FileExamples.no_episode
              MylistExamples.number_of FileRefreshExamples.no_eid
              FileRefreshExamples.no_converters FileRefreshExamples.no_converters
              (PStr "7ff8fef8") (PStr "00000000") FileRefreshExamples.no_guess false
              FileRefreshExamples.first_time)
    as (s' & Hrun & Hlock & _).
  - reflexivity.
  - reflexivity.
  - reflexivity.
  - reflexivity.
  - exists s'. split; [exact Hrun | exact Hlock].
Defined.

Lemma refresh_without_fid_or_path_blocks_witness :
  FileRefreshExamples.refresh FileRefreshExamples.service
    FileRefreshExamples.by_anime_and_episode
  = (inl Blocked, FileRefreshExamples.by_anime_and_episode).
Proof.
  apply (refresh_without_fid_or_path_blocks FileRefreshExamples.service
           FurtherExamples.same_size
           FurtherExamples.no_hash FileExamples.no_anime FileExamples.no_episode
           MylistExamples.number_of FileRefreshExamples.no_eid
           FileRefreshExamples.no_converters FileRefreshExamples.no_converters
           (PStr "7ff8fef8") (PStr "00000000") FileRefreshExamples.no_guess false
           FileRefreshExamples.by_anime_and_episode); reflexivity.
Defined.



(** ** Guessing from the path *)

Section Guessing.

Import Guess GuessVocabulary.

Variable ep_nr_re : list (string -> option groups).
Variable multiep_findall : string -> list string.
Variable get_titles : string -> bool -> list Z.

(** X27: every episode number that the filename patterns yield is in
    canonical form: it is the decimal text [str(n)] of an integer, which
    reads back as [n] (so a matched "05" is guessed as "5"), or that text
    after the letter S for a special. *)
Theorem guessed_numbers_canonical (filename : string) (eps : list string) :
  _guess_epno_from_filename ep_nr_re multiep_findall filename = inr eps ->
  Forall (fun e => exists n, (e = str n /\ int (PStr e) = inr n)
                             \/ e = String.append "S" (str n)) eps.
Proof.
  unfold _guess_epno_from_filename. induction ep_nr_re as [|r rest IH]; cbn.
  - intros [= <-]. constructor.
  - destruct (r filename) as [[[g1 g2] g3]|]; [|exact IH].
    unfold numbers_of_match. destruct g3 as [g3|]; [|done].
    destruct (Anime.map_exn _ _) as [e|l] eqn:Hmap; [done|]. intros [= <-].
    apply map_exn_inr in Hmap. clear IH.
    induction Hmap as [|m o ms os Hm _ IHm]; [constructor|].
    cbn. destruct o as [e|]; [|exact IHm]. cbn. constructor; [|exact IHm].
    destruct m as [m|]; [|done]. destruct (int_of_str m) as [n|]; [|done].
    destruct g1 as [g1|]; [|done]. exists n.
    destruct (String.eqb (lower g1) "s"); inversion Hm; subst.
    + by right.
    + left. split; [done|]. apply int_str_round_trip.
Qed.

Lemma occurs_strip_brackets (c : ascii) (s : string) : forall inside,
  occurs c (strip_brackets inside s) = true -> occurs c s = true.
Proof.
  induction s as [|c' s IH]; intros inside; [done|]. cbn.
  destruct inside.
  - intros H. apply IH in H. rewrite H. by rewrite orb_true_r.
  - destruct (is_opener c' && has_closer s).
    + intros H. apply IH in H. rewrite H. by rewrite orb_true_r.
    + cbn. destruct (Ascii.eqb c' c); [done|]. cbn. apply IH.
Qed.

Lemma split_last_occurs (sep : ascii) (s : string) :
  occurs sep s = false -> split_last sep s = None.
Proof.
  induction s as [|c s IH]; [done|]. cbn.
  destruct (Ascii.eqb c sep); [done|]. cbn. intros H. by rewrite (IH H).
Qed.

(** X28: a file name without a dot, when the episode patterns match but
    the name of the parent directory finds no anime: the guess raises
    [ValueError], from unpacking the single piece that [rsplit('.', 1)]
    returns, and no title search is made on the file name. *)
Theorem filename_without_dot_raises (p : string) (ep : string) (eps : list string) :
  p <> EmptyString ->
  occurs "." (os_path_split p).2 = false ->
  _guess_epno_from_filename ep_nr_re multiep_findall (os_path_split p).2 = inr (ep :: eps) ->
  (os_path_split (os_path_split p).1).2 = EmptyString \/
  first_anime (get_titles (os_path_split (os_path_split p).1).2 false) = None ->
  _guess_anime_ep_from_file ep_nr_re multiep_findall get_titles (PStr p) = inl ValueError.
Proof.
  intros Hp Hdot Heps Hdir. unfold _guess_anime_ep_from_file.
  assert (Htruthy : truthy (PStr p) = true) by (by destruct p).
  rewrite Htruthy. cbn [negb].
  destruct (os_path_split p) as [head filename]. cbn [fst snd] in *.
  destruct (os_path_split head) as [head' parent_dir]. cbn [fst snd] in *.
  rewrite Heps.
  assert (Htitle : title_of_filename filename = None).
  { unfold title_of_filename. rewrite split_last_occurs; [done|].
    destruct (occurs "." (strip_brackets false filename)) eqn:Hocc; [|done].
    apply occurs_strip_brackets in Hocc. congruence. }
  destruct Hdir as [->|Hnone].
  - by rewrite Htitle.
  - rewrite Hnone. destruct parent_dir; by rewrite Htitle.
Qed.

Lemma has_closer_strip_brackets (s : string) : forall inside,
  has_closer (strip_brackets inside s) = true -> has_closer s = true.
Proof.
  induction s as [|c s IH]; intros inside; [done|]. cbn.
  destruct inside.
  - intros H. apply IH in H. rewrite H. by rewrite orb_true_r.
  - destruct (is_opener c && has_closer s).
    + intros H. apply IH in H. rewrite H. by rewrite orb_true_r.
    + cbn. destruct (is_closer c); [done|]. cbn. apply IH.
Qed.

Lemma strip_brackets_no_group (s : string) : forall inside,
  no_group (strip_brackets inside s) = true.
Proof.
  induction s as [|c s IH]; intros inside; [done|]. cbn.
  destruct inside; [apply IH|].
  destruct (is_opener c && has_closer s) eqn:Hopen; [apply IH|].
  cbn. rewrite IH, andb_true_r. apply negb_true_iff.
  destruct (is_opener c); [|done]. cbn in *.
  destruct (has_closer (strip_brackets false s)) eqn:Hc; [|done].
  apply has_closer_strip_brackets in Hc. congruence.
Qed.

Lemma no_group_fixed (s : string) :
  no_group s = true -> strip_brackets false s = s.
Proof.
  induction s as [|c s IH]; [done|]. cbn. intros H.
  apply andb_true_iff in H as [Hc Hs]. apply negb_true_iff in Hc.
  rewrite Hc. by rewrite (IH Hs).
Qed.

(** X29: removing the bracketed tags from a file name leaves no
    bracketed group: in the result no opening bracket, brace or parenthesis
    has a closing one anywhere after it; so removing the tags once more
    changes nothing. *)
Theorem no_bracketed_group_survives (s : string) :
  no_group (strip_brackets false s) = true /\
  strip_brackets false (strip_brackets false s) = strip_brackets false s.
Proof.
  split; [apply strip_brackets_no_group|].
  apply no_group_fixed, strip_brackets_no_group.
Qed.





End Guessing.

Lemma guessed_numbers_canonical_witness :
  Guess._guess_epno_from_filename [GuessExamples.after_dash] GuessExamples.more_numbers
    "Show - 05-06.mkv" = inr ["5"; "6"] /\
  Forall (fun e => exists n, (e = str n /\ int (PStr e) = inr n)
                             \/ e = String.append "S" (str n)) ["5"; "6"].
Proof.
  split; [reflexivity|].
  apply (guessed_numbers_canonical [GuessExamples.after_dash] GuessExamples.more_numbers
           "Show - 05-06.mkv").
  reflexivity.
Defined.

Lemma filename_without_dot_raises_witness :
  Guess._guess_anime_ep_from_file [GuessExamples.after_dash] GuessExamples.more_numbers
    GuessExamples.no_titles (PStr "/anime/Show/Show - 05") = inl ValueError.
Proof.
  apply (filename_without_dot_raises [GuessExamples.after_dash] GuessExamples.more_numbers
           GuessExamples.no_titles "/anime/Show/Show - 05" "5" []).
  - discriminate.
  - reflexivity.
  - reflexivity.
  - right. reflexivity.
Defined.

